(** * MMS-Player: timing table, resampler, inflection targets and merge stage

    A shallow embedding of the Python sources under [player/]
    ([mms_parser.py], [ArmatureUtils.py], [extract.py], [targets.py],
    [merge.py]) together with the properties of the timing-table model,
    the resampler, the inflection targets and the glue stage.

    Conventions of the embedding:
    - Numbers come in two layers.  [MMSParser], [Resampler], [Merge] and
      [Targets] carry Python [float] and [int] values as rationals ([Q]),
      with [math.ceil], [math.floor] and [int] as [Qceiling], [Qfloor]
      and truncation: they follow the control flow, the exceptions and
      the keyframes of the player, with exact arithmetic.  [Float64],
      [MMSParser64], [Resampler64] and [Merge64] carry the same numbers
      as binary64 floats ([PrimFloat]), every operation rounded as the
      interpreter rounds it, and [float(str)] with the grammar of
      Python; the statements on seconds, frames and durations are made
      there.
    - A Python exception is a value of [exn]; fallible code lives in the
      [result] monad.
    - The animation host (Blender's [bpy], [mathutils]) is modelled by the
      few operations the player calls: f-curve lookup, creation, keyframe
      insertion; curve evaluation, frame ranges, matrix and quaternion
      algebra are section variables. *)

From Stdlib Require Import List String Ascii Bool Arith ZArith QArith Qround Lia.
From Stdlib Require Import Sorted Permutation DecimalString.
From Stdlib Require Floats.
Import ListNotations.

Set Implicit Arguments.
Close Scope Q_scope.

(* ================================================================== *)
(** ** Python runtime: exceptions, indexing, numbers *)

Module Py.

Inductive exn : Type :=
| KeyError | IndexError | ValueError | TypeError | AttributeError
| AssertionError | ZeroDivisionError | UnboundLocalError
| RuntimeError | OverflowError | Exception_.

Inductive result (A : Type) : Type :=
| Ok (a : A)
| Raise (e : exn).
Arguments Ok {A} a.
Arguments Raise {A} e.

Definition bind {A B} (m : result A) (k : A -> result B) : result B :=
  match m with
  | Ok a => k a
  | Raise e => Raise e
  end.

Definition is_ok {A} (m : result A) : bool :=
  match m with Ok _ => true | Raise _ => false end.

(** [seq[i]] for an index given as a Python integer: negative indices
    count from the end, anything else out of range raises [IndexError]. *)
Definition index {A} (l : list A) (i : Z) : result A :=
  let n := Z.of_nat (List.length l) in
  let j := if (i <? 0)%Z then (n + i)%Z else i in
  if ((0 <=? j) && (j <? n))%bool%Z then
    match nth_error l (Z.to_nat j) with
    | Some a => Ok a
    | None => Raise IndexError
    end
  else Raise IndexError.

(** [seq[i]] for a non-negative index. *)
Definition get {A} (l : list A) (i : nat) : result A :=
  match nth_error l i with
  | Some a => Ok a
  | None => Raise IndexError
  end.

(** [seq[i] = v]. *)
Fixpoint set {A} (l : list A) (i : nat) (v : A) : result (list A) :=
  match l, i with
  | [], _ => Raise IndexError
  | _ :: t, O => Ok (v :: t)
  | h :: t, S j => bind (set t j v) (fun t' => Ok (h :: t'))
  end.

(** [for x in l: st = f(st, x)], stopping at the first exception. *)
Fixpoint foldM {A S} (f : S -> A -> result S) (l : list A) (st : S)
  : result S :=
  match l with
  | [] => Ok st
  | x :: t => bind (f st x) (foldM f t)
  end.

Fixpoint mapM {A B} (f : A -> result B) (l : list A) : result (list B) :=
  match l with
  | [] => Ok []
  | x :: t => bind (f x) (fun y => bind (mapM f t) (fun ys => Ok (y :: ys)))
  end.

(** [enumerate(l)] starting at [k]. *)
Fixpoint enumerate_from {A} (k : nat) (l : list A) : list (nat * A) :=
  match l with
  | [] => []
  | x :: t => (k, x) :: enumerate_from (S k) t
  end.

Definition enumerate {A} (l : list A) : list (nat * A) := enumerate_from 0 l.

(** [int(x)] on a float: truncation toward zero. *)
Definition int (q : Q) : Z := Z.quot (Qnum q) (Zpos (Qden q)).

(** A Python number: an [int] or a [float]. *)
Inductive num : Type :=
| PInt (z : Z)
| PFloat (q : Q).

Definition to_Q (n : num) : Q :=
  match n with
  | PInt z => inject_Z z
  | PFloat q => q
  end.

(** [math.ceil] and [math.floor]. *)
Definition ceil (q : Q) : Z := Qceiling q.
Definition floor (q : Q) : Z := Qfloor q.

(** [str(n)] for a natural number. *)
Definition str_of_nat (n : nat) : string :=
  NilEmpty.string_of_uint (Nat.to_uint n).

(** [c in s] for a one-character needle. *)
Fixpoint contains (c : ascii) (s : string) : bool :=
  match s with
  | EmptyString => false
  | String d r => if Ascii.eqb c d then true else contains c r
  end.

(** [s.split(c)]: the pieces between occurrences of [c]; never empty. *)
Fixpoint split (c : ascii) (s : string) : list string :=
  match s with
  | EmptyString => [EmptyString]
  | String d r =>
      if Ascii.eqb c d then EmptyString :: split c r
      else match split c r with
           | [] => [String d EmptyString]
           | p :: ps => String d p :: ps
           end
  end.

(** [s.strip(c)]: drop every leading and trailing [c]. *)
Fixpoint lstrip (c : ascii) (s : string) : string :=
  match s with
  | EmptyString => EmptyString
  | String d r => if Ascii.eqb c d then lstrip c r else s
  end.

Fixpoint rstrip (c : ascii) (s : string) : string :=
  match s with
  | EmptyString => EmptyString
  | String d r =>
      match rstrip c r with
      | EmptyString => if Ascii.eqb c d then EmptyString else String d EmptyString
      | r' => String d r'
      end
  end.

Definition strip (c : ascii) (s : string) : string := rstrip c (lstrip c s).

(** *** [float(str)] on plain decimal literals

    [sign? digits ('.' digits)?] with at least one digit, read as the
    rational it writes.  Exponents, [inf], [nan], underscores and
    surrounding blanks, which Python also accepts, answer [ValueError]
    in this layer; [Float64.float_of_string] has the whole grammar and
    the rounding. *)

Definition digit_of (c : ascii) : option Z :=
  let n := nat_of_ascii c in
  if ((48 <=? n) && (n <=? 57))%nat%bool then Some (Z.of_nat (n - 48)) else None.

(** Reads digits; returns the accumulated numerator, the number of digits
    read and the rest of the string. *)
Fixpoint digits (s : string) (acc : Z) (cnt : nat) : Z * nat * string :=
  match s with
  | EmptyString => (acc, cnt, s)
  | String c r =>
      match digit_of c with
      | Some d => digits r (10 * acc + d)%Z (S cnt)
      | None => (acc, cnt, s)
      end
  end.

Definition unsigned_decimal (s : string) : result Q :=
  let '(ip, ni, rest) := digits s 0%Z 0 in
  match rest with
  | EmptyString => if (0 <? ni)%nat then Ok (inject_Z ip) else Raise ValueError
  | String c r =>
      if Ascii.eqb c "."%char then
        let '(fp, nf, rest') := digits r ip 0 in
        match rest' with
        | EmptyString =>
            if (0 <? ni + nf)%nat
            then Ok (Qmake fp (Pos.of_nat (10 ^ nf)))
            else Raise ValueError
        | _ => Raise ValueError
        end
      else Raise ValueError
  end.

Definition float_of_string (s : string) : result Q :=
  match s with
  | String c r =>
      if Ascii.eqb c "-"%char then bind (unsigned_decimal r) (fun q => Ok (- q)%Q)
      else if Ascii.eqb c "+"%char then unsigned_decimal r
      else unsigned_decimal s
  | EmptyString => Raise ValueError
  end.

End Py.

Declare Scope py_scope.
Delimit Scope py_scope with py.
Notation "x <- m ;; k" := (Py.bind m (fun x => k))
  (at level 61, m at next level, right associativity) : py_scope.
Notation "' pat <- m ;; k" := (Py.bind m (fun x => match x with pat => k end))
  (at level 61, pat pattern, m at next level, right associativity) : py_scope.
Open Scope py_scope.
Open Scope string_scope.

Import Py.

(* ================================================================== *)
(** ** [player/mms_parser.py] *)

Module MMSParser.

(** A cell of a row: the CSV text, [None] for an empty cell, or a float
    written back by the compound-gloss split. *)
Inductive cell : Type :=
| CNone
| CStr (s : string)
| CFloat (q : Q).

(** [float(x)] on a cell. *)
Definition float (c : cell) : result Q :=
  match c with
  | CNone => Raise TypeError
  | CStr s => float_of_string s
  | CFloat q => Ok q
  end.

(** Truth value of a cell, as [all((x, y, z))] sees it. *)
Definition truthy (c : cell) : bool :=
  match c with
  | CNone => false
  | CStr s => negb (s =? EmptyString)
  | CFloat q => negb (Qeq_bool q 0%Q)
  end.

(** A [pathlib.Path] of a POSIX host, as its [parts]: the root, ["/"] or
    ["//"], first when the path is absolute, then its components. *)
Definition Path : Type := list string.

(** The root of a segment and what follows it: a segment that begins
    with a slash is absolute, and exactly two leading slashes are kept
    as a root of their own. *)
Definition splitroot (part : string) : string * string :=
  match part with
  | String "/" _ =>
      let stripped := lstrip "/" part in
      if (String.length part - String.length stripped =? 2)%nat
      then ("//", stripped) else ("/", stripped)
  | _ => (EmptyString, part)
  end.

(** The components of a relative segment: its pieces between slashes,
    without the empty ones and the dots. *)
Definition path_names (rel : string) : list string :=
  filter (fun x => negb (x =? EmptyString) && negb (x =? "."))
         (split "/" rel).

(** [p.joinpath(s)]: the components of [s] behind those of [p], unless
    [s] is absolute, which then replaces [p]. *)
Definition joinpath (p : Path) (s : string) : Path :=
  let '(root, rel) := splitroot s in
  if root =? EmptyString then (p ++ path_names rel)%list
  else root :: path_names rel.

(** A Python [dict] with string keys, in insertion order. *)
Definition dict (V : Type) : Type := list (string * V).

Fixpoint dict_set {V} (d : dict V) (k : string) (v : V) : dict V :=
  match d with
  | [] => [(k, v)]
  | (k', v') :: t => if k' =? k then (k', v) :: t else (k', v') :: dict_set t k v
  end.

Fixpoint dict_get {V} (d : dict V) (k : string) : result V :=
  match d with
  | [] => Raise KeyError
  | (k', v) :: t => if k' =? k then Ok v else dict_get t k
  end.

Record MMSLine : Type := mkMMSLine {
  store_index : dict nat;
  line_data : list cell;
  name : string;
  datatype : string;
  output_name : string;
  path : Path;
  original_frame_range : option (Q * Q);
  resampled_frame_range : option (Q * Q)
}.

Definition set_path (l : MMSLine) (p : Path) : MMSLine :=
  mkMMSLine (store_index l) (line_data l) (name l) (datatype l)
            (output_name l) p (original_frame_range l)
            (resampled_frame_range l).

Definition set_datatype (l : MMSLine) (d : string) : MMSLine :=
  mkMMSLine (store_index l) (line_data l) (name l) d
            (output_name l) (path l) (original_frame_range l)
            (resampled_frame_range l).

Definition set_original_frame_range (l : MMSLine) (r : Q * Q) : MMSLine :=
  mkMMSLine (store_index l) (line_data l) (name l) (datatype l)
            (output_name l) (path l) (Some r) (resampled_frame_range l).

Definition set_resampled_frame_range (l : MMSLine) (r : Q * Q) : MMSLine :=
  mkMMSLine (store_index l) (line_data l) (name l) (datatype l)
            (output_name l) (path l) (original_frame_range l) (Some r).

(** [MMSLine.find_datatype] *)
Definition find_datatype (nm : string) : string * string :=
  if negb (contains ":" nm) then (nm, "signs")
  else match split ":" nm with
       | a :: b :: _ => (b, a)
       | _ => (nm, "signs")
       end.

(** [MMSLine.__init__]; [find_datatype] tests [":" not in name], a
    [TypeError] unless the first cell is text. *)
Definition MMSLine_init (idx : dict nat) (line : list cell) (gloss_idx : nat)
  : result MMSLine :=
  c0 <- get line 0 ;;
  match c0 with
  | CStr s =>
      let '(nm, dt) := find_datatype s in
      Ok (mkMMSLine idx line nm dt (str_of_nat gloss_idx ++ "_" ++ nm)
                    ["/"; "none"] None None)
  | _ => Raise TypeError
  end.

(** [MMSLine.__getitem__] *)
Definition getitem (l : MMSLine) (key : string) : result cell :=
  i <- dict_get (store_index l) key ;;
  get (line_data l) i.

(** [MMSLine.handle_none] *)
Definition handle_none (l : MMSLine) (key : string)
  : result (option (Q * Q * Q)) :=
  x <- getitem l (key ++ "x") ;;
  y <- getitem l (key ++ "y") ;;
  z <- getitem l (key ++ "z") ;;
  if negb (truthy x && truthy y && truthy z) then Ok None
  else
    fx <- float x ;;
    fy <- float y ;;
    fz <- float z ;;
    Ok (Some (fx, fy, fz)).

(** [MMSLine.timing] *)
Definition timing (l : MMSLine) : result (Z * Z) :=
  cs <- getitem l "framestart" ;;
  fs <- float cs ;;
  ce <- getitem l "frameend" ;;
  fe <- float ce ;;
  Ok (ceil (fs * 60)%Q, floor (fe * 60)%Q).

(** [MMSLine.transition] *)
Definition transition (l : MMSLine) : result Z :=
  c <- getitem l "transition" ;;
  f <- float c ;;
  Ok (ceil (f * 60)%Q).

(** [MMSLine.duration]; ["%" in duration] needs a string. *)
Definition duration (l : MMSLine) : result (num * bool) :=
  c <- getitem l "duration" ;;
  match c with
  | CStr d =>
      if contains "%" d then
        t <- float_of_string (strip "%" d) ;;
        Ok (PFloat (t / 100)%Q, true)
      else
        f <- float_of_string d ;;
        Ok (PInt (ceil (f * 60)%Q), false)
  | _ => Raise TypeError
  end.

(** The availability map of [MMSParser.parse]. *)
Record availability : Type := mkAvailability {
  av_domhandreloc : bool;
  av_ndomhandreloc : bool;
  av_domhandrot : bool;
  av_ndomhandrot : bool;
  av_torso : bool;
  av_head : bool;
  av_shoulders : bool
}.

Definition mem (s : string) (l : list string) : bool :=
  existsb (String.eqb s) l.

Definition inflections_availability (header : list string) : availability :=
  mkAvailability
    (mem "domhandrelocx" header) (mem "ndomhandrelocx" header)
    (mem "domhandrotx" header) (mem "ndomhandrotx" header)
    (mem "torsorelocax" header && mem "torsorelocx" header)
    (mem "headrotx" header) (mem "domshoulderrelocx" header).

(** [index_for_column]: column name to position, later duplicates win. *)
Definition build_index (header : list string) : dict nat :=
  fold_left (fun d ic => dict_set d (snd ic) (fst ic)) (enumerate header) [].

Definition key : Type := nat * string.

(** The table under construction: entries in insertion order (the key
    is fresh at every insertion, [idx] grows with each entry) and the
    running [idx]. *)
Definition table : Type := list (key * MMSLine).

Definition scale : Q := (3 # 10)%Q.

(** One pass of the inner loop over the pieces of a compound gloss:
    the row [line] written for piece [i]. *)
Definition compound_line (idx : dict nat) (gloss_line : list cell)
    (prefix : string) (start delta : Q) (n i : nat) (gloss : string)
  : result (list cell) :=
  line <- set gloss_line 0 (CStr (prefix ++ ":" ++ gloss)) ;;
  ifs <- dict_get idx "framestart" ;;
  line <- set line ifs (CFloat (start + delta * inject_Z (Z.of_nat i))%Q) ;;
  ife <- dict_get idx "frameend" ;;
  line <- set line ife
    (CFloat (start + delta * inject_Z (Z.of_nat i + 1) - scale * delta)%Q) ;;
  itr <- dict_get idx "transition" ;;
  line <- set line itr (CFloat (scale * delta)%Q) ;;
  if (i =? n - 1)%nat then
    itr' <- dict_get idx "transition" ;;
    v <- get gloss_line itr' ;;
    set line itr' v
  else Ok line.

Definition compound_step (idx : dict nat) (gloss_line : list cell)
    (prefix : string) (start delta : Q) (n base : nat)
    (glosses : table) (ig : nat * string) : result table :=
  let '(i, gloss) := ig in
  line <- compound_line idx gloss_line prefix start delta n i gloss ;;
  gloss_data <- MMSLine_init idx line (base + i) ;;
  Ok (glosses ++ [((base + i, name gloss_data), gloss_data)])%list.

(** The comprehension that turns the empty cells of a row into [None]. *)
Definition none_for_empty (row : list string) : list cell :=
  map (fun x => if x =? EmptyString then CNone else CStr x) row.

(** The body of the loop over the rows of the file. *)
Definition parse_row (idx : dict nat) (st : table * nat) (row : list string)
  : result (table * nat) :=
  let '(glosses, base) := st in
  c0 <- get row 0 ;;
  let '(nm, prefix) := find_datatype c0 in
  let gloss_line := none_for_empty row in
  if negb (prefix =? "signs") && contains "-" nm then
    ifs <- dict_get idx "framestart" ;;
    cs <- get gloss_line ifs ;;
    start <- float cs ;;
    ife <- dict_get idx "frameend" ;;
    ce <- get gloss_line ife ;;
    end_ <- float ce ;;
    let diff := (end_ - start)%Q in
    let names := split "-" nm in
    let n := List.length names in
    let delta := (diff / inject_Z (Z.of_nat n))%Q in
    glosses' <- foldM (compound_step idx gloss_line prefix start delta n base)
                      (enumerate names) glosses ;;
    Ok (glosses', base + n)
  else
    gloss_data <- MMSLine_init idx gloss_line base ;;
    Ok ((glosses ++ [((base, name gloss_data), gloss_data)])%list, S base).

(** [sorted(items, key=...)]: the keys are computed first, then a stable
    sort orders the items by key. *)
Fixpoint insert_by {A} (x : Z * A) (l : list (Z * A)) : list (Z * A) :=
  match l with
  | [] => [x]
  | y :: t => if (fst x <=? fst y)%Z then x :: l else y :: insert_by x t
  end.

Definition sort_by {A} (l : list (Z * A)) : list (Z * A) :=
  fold_right insert_by [] l.

Definition sorted_by_start (items : table) : result table :=
  keyed <- mapM (fun kv => t <- timing (snd kv) ;; Ok (fst t, kv)) items ;;
  Ok (map snd (sort_by keyed)).

Record MMS : Type := mkMMS {
  mms : table;
  generated_root : Path;
  inflections_availability_dict : availability
}.

Definition glosses (m : MMS) : list key := map fst (mms m).

(** [MMSParser.parse] on the rows the CSV reader returned. *)
Definition parse (data : list (list string)) (root : Path) : result MMS :=
  header <- get data 0 ;;
  let idx := build_index header in
  st <- foldM (parse_row idx) (tl data) ([], 0) ;;
  items <- sorted_by_start (fst st) ;;
  Ok (mkMMS items root (inflections_availability header)).

(** *** [MMS.find_mocap_data_files]

    The table is a [dict]: its keys are distinct, so [self[gloss_id]]
    is the entry at the position the loop has reached.  The file system
    is the oracle [path_exists]. *)

(** [re.findall(r'<(.*?)>', name)[0]], when there is a match: the text
    between the first ['<'] that is followed by a ['>'] on the same line
    and that ['>']. *)
Fixpoint until_gt (s : string) : option string :=
  match s with
  | EmptyString => None
  | String c r =>
      if Ascii.eqb c ">"%char then Some EmptyString
      else if Ascii.eqb c (ascii_of_nat 10) then None
      else option_map (String c) (until_gt r)
  end.

Fixpoint first_match (s : string) : option string :=
  match s with
  | EmptyString => None
  | String c r =>
      if Ascii.eqb c "<"%char then
        match until_gt r with
        | Some m => Some m
        | None => first_match r
        end
      else first_match r
  end.

(** [len(matches) > 0 and matches[0] == "HOLD"] *)
Definition is_hold (l : MMSLine) : bool :=
  match first_match (name l) with
  | Some m => m =? "HOLD"
  | None => false
  end.

Definition mocap_path (root : Path) (l : MMSLine) : Path :=
  joinpath (joinpath (joinpath root (datatype l)) "trimmed")
           (name l ++ ".blend").

(** The state of the loop: the entries already visited, in order, and
    the local variable [gloss_path], unbound until a first non-HOLD
    entry has been seen. *)
Definition resolve_state : Type := table * option Path.

Definition resolve_step (path_exists : Path -> bool) (root : Path)
    (all : table) (st : resolve_state) (e : key * MMSLine)
  : result resolve_state :=
  let '(done, gloss_path) := st in
  let '(k, gloss) := e in
  if is_hold gloss then
    (* self.glosses[num - 1]: the entry before, or the last one if num = 0 *)
    let prev := match List.last (map Some done) None with
                | Some p => Some p
                | None => List.last (map Some all) None
                end in
    match prev with
    | None => Raise IndexError
    | Some p =>
        let gloss1 := set_datatype (set_path gloss (path (snd p))) "HOLD" in
        match gloss_path with
        | None => Raise UnboundLocalError
        | Some gp => Ok ((done ++ [(k, set_path gloss1 gp)])%list, Some gp)
        end
    end
  else
    let gp := mocap_path root gloss in
    if negb (path_exists gp) then Raise Exception_
    else Ok ((done ++ [(k, set_path gloss gp)])%list, Some gp).

Definition find_mocap_data_files (path_exists : Path -> bool) (m : MMS)
  : result MMS :=
  st <- foldM (resolve_step path_exists (generated_root m) (mms m))
              (mms m) ([], None) ;;
  Ok (mkMMS (fst st) (generated_root m) (inflections_availability_dict m)).

(** *** Vocabulary of the statements about a row *)

(** The seconds written in the [framestart] and [frameend] columns. *)
Definition seconds_start (l : MMSLine) : result Q :=
  c <- getitem l "framestart" ;; float c.

Definition seconds_end (l : MMSLine) : result Q :=
  c <- getitem l "frameend" ;; float c.

(** The entries the resolution pass leaves for [rest] when [gloss_path]
    holds [gp] on entry: a HOLD entry is tagged and takes [gp], any
    other entry takes its own file, which becomes [gloss_path]. *)
Fixpoint resolved_from (root gp : Path) (rest : table) : table :=
  match rest with
  | [] => []
  | (k, g) :: t =>
      if is_hold g
      then (k, set_path (set_datatype g "HOLD") gp) :: resolved_from root gp t
      else (k, set_path g (mocap_path root g))
             :: resolved_from root (mocap_path root g) t
  end.

(** A segment that begins with a slash. *)
Definition anchored (s : string) : bool :=
  match s with
  | String c _ => Ascii.eqb c "/"
  | EmptyString => false
  end.

(** The file of every entry that is not a HOLD is present. *)
Definition all_exist (path_exists : Path -> bool) (root : Path) (t : table)
  : bool :=
  forallb (fun e => is_hold (snd e) || path_exists (mocap_path root (snd e))) t.

End MMSParser.

(* ================================================================== *)
(** ** The animation host: actions, f-curves, keyframes

    What the player uses of [bpy]: an action is its list of f-curves, an
    f-curve is addressed by [(data_path, array_index)] and carries its
    keyframe points [(co[0], co[1])].  [keyframe_points.insert] keeps the
    points ordered by frame and replaces the point already sitting on the
    frame. *)

Module Bpy.

Record FCurve : Type := mkFCurve {
  data_path : string;
  array_index : nat;
  keyframe_points : list (Q * Q)
}.

Definition Action : Type := list FCurve.

Definition same_channel (p : string) (i : nat) (c : FCurve) : bool :=
  (data_path c =? p) && (array_index c =? i)%nat.

(** [action.fcurves.find(data_path, index=i)]; [None] when absent. *)
Definition find (a : Action) (p : string) (i : nat) : option FCurve :=
  List.find (same_channel p i) a.

(** [action.fcurves.new(data_path, index=i)]; the host refuses a channel
    that exists already. *)
Definition new (a : Action) (p : string) (i : nat) : result Action :=
  match find a p i with
  | Some _ => Raise RuntimeError
  | None => Ok (a ++ [mkFCurve p i []])%list
  end.

(** [keyframe_points.insert(frame, value)] on the points of one curve. *)
Fixpoint kf_insert (f v : Q) (pts : list (Q * Q)) : list (Q * Q) :=
  match pts with
  | [] => [(f, v)]
  | (g, w) :: t =>
      if Qeq_bool g f then (f, v) :: t
      else if Qle_bool f g then (f, v) :: pts
      else (g, w) :: kf_insert f v t
  end.

(** The value of the keyframe sitting on frame [f], if any. *)
Fixpoint kf_lookup (f : Q) (pts : list (Q * Q)) : option Q :=
  match pts with
  | [] => None
  | (g, w) :: t => if Qeq_bool g f then Some w else kf_lookup f t
  end.

(** The mutation of one f-curve of an action, found by [find]. *)
Fixpoint update (a : Action) (p : string) (i : nat)
    (upd : FCurve -> FCurve) : Action :=
  match a with
  | [] => []
  | c :: t => if same_channel p i c then upd c :: t
              else c :: update t p i upd
  end.

Definition with_points (pts : list (Q * Q)) (c : FCurve) : FCurve :=
  mkFCurve (data_path c) (array_index c) pts.

(** [action.fcurves.find(p, index=i).keyframe_points.insert(f, v)]:
    an [AttributeError] on the [None] a failed lookup returns. *)
Definition insert_key (a : Action) (p : string) (i : nat) (f v : Q)
  : result Action :=
  match find a p i with
  | None => Raise AttributeError
  | Some _ =>
      Ok (update a p i (fun c => with_points (kf_insert f v (keyframe_points c)) c))
  end.

(** [bpy.data.actions]: actions by name. *)
Definition Actions : Type := MMSParser.dict Action.

(** The address of an f-curve in its action. *)
Definition channel : Type := (string * nat)%type.

Definition channel_of (c : FCurve) : channel := (data_path c, array_index c).

Definition channel_eqb (a b : channel) : bool :=
  (fst a =? fst b) && (snd a =? snd b)%nat.

Definition find_channel (a : Action) (k : channel) : option FCurve :=
  find a (fst k) (snd k).

End Bpy.

(* ================================================================== *)
(** ** [player/extract.py] and [player/ArmatureUtils.py]: the resampler *)

Module Resampler.
Import MMSParser Bpy.

(** The double quote of the f-curve data paths. *)
Definition dq : string := String (ascii_of_nat 34) EmptyString.

Definition rot_path_name (bone : string) : string :=
  "pose.bones[" ++ dq ++ bone ++ dq ++ "].rotation_euler".

Definition loc_path_name (bone : string) : string :=
  "pose.bones[" ++ dq ++ bone ++ dq ++ "].location".

(** [extract.create_f_curves] *)
Definition create_if_missing (a : Action) (p : string) (i : nat)
  : result Action :=
  match find a p i with
  | Some _ => Ok a
  | None => new a p i
  end.

Definition create_f_curves_bone (a : Action) (bone : string) : result Action :=
  foldM (fun a i =>
           a <- create_if_missing a (rot_path_name bone) i ;;
           create_if_missing a (loc_path_name bone) i)
        [0; 1; 2] a.

Definition create_f_curves (bones : list string) (sampled_action : Action)
  : result Action :=
  foldM create_f_curves_bone bones sampled_action.

(** What [ArmatureOperator.resample] is called with: the window of
    [MMSLine.timing] when [use_rel_time] is false, the pair of
    [MMSLine.duration] when it is true. *)
Inductive timing_arg : Type :=
| Window (start end_ : Z)
| Duration (duration_or_prop : num) (is_proportion : bool).

Section Host.

(** [fcurve.evaluate(frame)] and [action.frame_range], supplied by the
    host. *)
Variable evaluate : FCurve -> Q -> Q.
Variable frame_range : Action -> Q * Q.

(** One channel of [extract.set_rotation_and_location]: both lookups
    answer [None] on a missing curve, and the call on it raises. *)
Definition sample_channel (source_action : Action) (source_frame : Q)
    (target_frame : Q) (path_name : string)
    (target_action : Action) (i : nat) : result Action :=
  match find source_action path_name i with
  | None => Raise AttributeError
  | Some fcurve =>
      let sampled_value := evaluate fcurve source_frame in
      insert_key target_action path_name i target_frame sampled_value
  end.

(** [extract.set_rotation_and_location] *)
Definition set_rotation_and_location (source_action : Action)
    (source_bone_name : string) (source_frame : Q)
    (target_action : Action) (target_frame : Q) : result Action :=
  t <- foldM (sample_channel source_action source_frame target_frame
                (rot_path_name source_bone_name)) [0; 1; 2] target_action ;;
  foldM (sample_channel source_action source_frame target_frame
           (loc_path_name source_bone_name)) [0; 1; 2] t.

(** [target_frame_count], for the loop over [range(target_frame_count)]:
    [range] needs an [int] and raises [TypeError] on a float count, which
    the division by [target_frame_count - 1] before it has already
    refused when the count is 1.0. *)
Definition target_frame_count (action : Action) (timing : timing_arg)
  : result Z :=
  match timing with
  | Window start end_ => Ok (end_ - start + 1)%Z
  | Duration d true =>
      let frame_start := int (fst (frame_range action)) in
      let frame_end := int (snd (frame_range action)) in
      Ok (ceil (to_Q d * inject_Z (frame_end - frame_start) + 1)%Q)
  | Duration (PInt n) false => Ok n
  | Duration (PFloat q) false =>
      Raise (if Qeq_bool q 1 then ZeroDivisionError else TypeError)
  end.

(** [range(n)] *)
Definition range (n : Z) : list Z := map Z.of_nat (seq 0 (Z.to_nat n)).

(** [samples = [frame_start + x * ratio for x in range(T)]] *)
Definition samples (frame_start : Z) (ratio : Q) (T : Z) : list Q :=
  map (fun x => (inject_Z frame_start + inject_Z x * ratio)%Q) (range T).

(** The loop over the samples and the bones. *)
Definition write_sample (action : Action) (bones : list string)
    (sampled_action : Action) (fs : nat * Q) : result Action :=
  let '(frame_number, sample) := fs in
  foldM (fun t bone =>
           set_rotation_and_location action bone sample t
             (inject_Z (Z.of_nat frame_number + 1)))
        bones sampled_action.

(** [ArmatureOperator.resample]: [bones] are the pose bones of the source
    armature, [action] its current action.  Returns the new action, which
    becomes the action of the armature, and the line with its two frame
    ranges recorded. *)
Definition resample (mms_line : MMSLine) (bones : list string)
    (action : Action) (timing : timing_arg) : result (Action * MMSLine) :=
  let mms_line := set_original_frame_range mms_line (frame_range action) in
  let sampled_action : Action := [] in
  T <- target_frame_count action timing ;;
  sampled_action <- create_f_curves bones sampled_action ;;
  let frame_start := int (fst (frame_range action)) in
  let frame_end := int (snd (frame_range action)) in
  if (T - 1 =? 0)%Z then Raise ZeroDivisionError
  else
    let ratio := (inject_Z (frame_end - frame_start) / inject_Z (T - 1))%Q in
    sampled_action <- foldM (write_sample action bones)
                            (enumerate (samples frame_start ratio T))
                            sampled_action ;;
    let mms_line :=
      set_resampled_frame_range mms_line (frame_range sampled_action) in
    Ok (sampled_action, mms_line).

End Host.
(** *** Vocabulary of the statements about the resampler *)

(** The six channels of a bone and the channels of an armature. *)
Definition bone_channels (bone : string) : list channel :=
  (map (fun i => (rot_path_name bone, i)) [0; 1; 2]
   ++ map (fun i => (loc_path_name bone, i)) [0; 1; 2])%list.

Definition armature_channels (bones : list string) : list channel :=
  flat_map bone_channels bones.

(** The position of sample [i]. *)
Definition sample_position (frame_start : Z) (ratio : Q) (i : Z) : Q :=
  (inject_Z frame_start + inject_Z i * ratio)%Q.

(** An action whose curves carry no keyframe yet. *)
Definition no_keyframes (t : Action) : Prop :=
  Forall (fun c => keyframe_points c = []) t.

End Resampler.

(* ================================================================== *)
(** ** [player/targets.py]: the inflection targets *)

Module Targets.
Import MMSParser.

Inductive target_class : Type :=
| LocalRotationTarget
| TrajectoryTarget
| RelativeLocRotTarget
| HeadRotTarget.

Section HostMath.

(** [mathutils]: the carriers and the operations the targets use. *)
Variables Matrix Quaternion Vector Euler : Type.
Variable matrix_identity : Matrix.
Variable quaternion_identity : Quaternion.
Variable mat_mul : Matrix -> Matrix -> Matrix.
Variable mat_vec : Matrix -> Vector -> Vector.
Variable mat_inverted : Matrix -> Matrix.
Variable mat_to_quaternion : Matrix -> Quaternion.
Variable quat_mul : Quaternion -> Quaternion -> Quaternion.
Variable quat_inverted : Quaternion -> Quaternion.
Variable quat_to_euler_zxy : Quaternion -> Euler.
Variable euler_zxy : Q * Q * Q -> Euler.
Variable euler_to_matrix4 : Euler -> Matrix.
Variable euler_to_quaternion : Euler -> Quaternion.
Variable translation_matrix : Q * Q * Q -> Matrix.
Variable scale_matrix : Q * Q * Q -> Matrix.
Variable translation_of : Vector -> Matrix.
Variable vec_add : Vector -> Vector -> Vector.
Variable vec_sub : Vector -> Vector -> Vector.
Variable vec_neg : Vector -> Vector.

(** [a @ b]: no operand may be [None]. *)
Definition matmul {A B C} (op : A -> B -> C) (a : option A) (b : option B)
  : result C :=
  match a, b with
  | Some x, Some y => Ok (op x y)
  | _, _ => Raise TypeError
  end.

(** The [Optional] getters of [MMSLine]. *)
Definition getter {A} (conv : Q * Q * Q -> A) (l : MMSLine) (key : string)
  : result (option A) :=
  values <- handle_none l key ;;
  Ok (option_map conv values).

Definition traj_rotation (l : MMSLine) (dominance : string) :=
  getter (fun v => euler_to_matrix4 (euler_zxy v)) l (dominance ++ "handreloca").
Definition hand_orientation (l : MMSLine) (dominance : string) :=
  getter (fun v => euler_to_quaternion (euler_zxy v)) l (dominance ++ "handrot").
Definition translation (l : MMSLine) (dominance : string) :=
  getter translation_matrix l (dominance ++ "handreloc").
Definition scale (l : MMSLine) (dominance : string) :=
  getter scale_matrix l (dominance ++ "handrelocs").
Definition head_rot (l : MMSLine) :=
  getter (fun v => euler_to_quaternion (euler_zxy v)) l "headrot".
Definition shoulder_shift (l : MMSLine) (dominance : string) :=
  getter translation_matrix l (dominance ++ "shoulderreloc").
Definition torso_shift (l : MMSLine) :=
  getter translation_matrix l "torsoreloc".
Definition torso_rot (l : MMSLine) :=
  getter (fun v => euler_to_quaternion (euler_zxy v)) l "torsoreloca".

(** A target: its class, the configuration the deltas depend on, the
    three deltas and the cached anchor [head]. *)
Record Target : Type := mkTarget {
  cls : target_class;
  dominance : string;
  inflection_type : string;
  delta_r : option Matrix;
  delta_o : option Quaternion;
  delta_t : option Matrix;
  head : option Vector
}.

(** The class attributes of [Target] are the deltas of a new target. *)
Definition new_target (c : target_class) (dom itype : string) : Target :=
  mkTarget c dom itype (Some matrix_identity) (Some quaternion_identity)
           (Some matrix_identity) None.

Definition init_from_mms (t : Target) (mms : MMSLine) : result Target :=
  match cls t with
  | LocalRotationTarget =>
      o <- hand_orientation mms (dominance t) ;;
      Ok (mkTarget (cls t) (dominance t) (inflection_type t)
                   (delta_r t) o (delta_t t) (head t))
  | TrajectoryTarget =>
      h_translation <- translation mms (dominance t) ;;
      h_rotation <- traj_rotation mms (dominance t) ;;
      h_scale <- scale mms (dominance t) ;;
      r <- matmul mat_mul h_rotation h_scale ;;
      Ok (mkTarget (cls t) (dominance t) (inflection_type t)
                   (Some r) (delta_o t) h_translation (head t))
  | RelativeLocRotTarget =>
      if inflection_type t =? "torso" then
        ts <- torso_shift mms ;;
        tr <- torso_rot mms ;;
        Ok (mkTarget (cls t) (dominance t) (inflection_type t)
                     (delta_r t) tr ts (head t))
      else if inflection_type t =? "shoulder" then
        ss <- shoulder_shift mms (dominance t) ;;
        Ok (mkTarget (cls t) (dominance t) (inflection_type t)
                     (delta_r t) (delta_o t) ss (head t))
      else Ok t
  | HeadRotTarget =>
      o <- head_rot mms ;;
      Ok (mkTarget (cls t) (dominance t) (inflection_type t)
                   (delta_r t) o (delta_t t) (head t))
  end.

(** What the host evaluates at the current frame and [inflect] reads. *)
Record Pose : Type := mkPose {
  bone_matrix : Matrix;
  root_matrix : Matrix;
  dict_bone_matrix : Matrix;
  dict_root_matrix : Matrix;
  dict_bone_head : Vector;
  dict_root_head : Vector;
  dict_root_tail : Vector
}.

(** A keyframe written by [keyframe_insert]. *)
Inductive keyed : Type :=
| KeyRotationEuler (frame : Z) (v : Euler)
| KeyLocation (frame : Z) (v : Vector)
| KeyRotationQuaternion (frame : Z) (v : Quaternion).

(** What [inflect] writes: the local rotation of the target bone, the
    controller object and the keyframes inserted so far. *)
Record Rig : Type := mkRig {
  rotation_euler : Euler;
  ctrl_location : Vector;
  ctrl_rotation_quaternion : Quaternion;
  keys : list keyed
}.

(** [LocalRotationTarget.get_rotation_rel_to] on the dictionary bones *)
Definition get_rotation_rel_to (p : Pose) : Quaternion :=
  quat_mul (quat_inverted (mat_to_quaternion (dict_root_matrix p)))
           (mat_to_quaternion (dict_bone_matrix p)).

(** [LocalRotationTarget.compute_rotation_rel_to] *)
Definition compute_rotation_rel_to (r : Rig) (p : Pose) (rotation : Quaternion)
  : Quaternion :=
  let src_theta_c_local := euler_to_quaternion (rotation_euler r) in
  let src_theta_c_arm := mat_to_quaternion (bone_matrix p) in
  let src_theta_r_arm := mat_to_quaternion (root_matrix p) in
  let src_theta_c_r_initial :=
    quat_mul (quat_mul src_theta_c_local (quat_inverted src_theta_c_arm))
             src_theta_r_arm in
  quat_mul src_theta_c_r_initial rotation.

Definition anchor (p : Pose) : Vector :=
  let root_vector := vec_sub (dict_root_head p) (dict_root_tail p) in
  mat_vec (mat_inverted (dict_root_matrix p))
          (vec_add (dict_bone_head p) root_vector).

(** [inflect(frame)] of the four classes. *)
Definition inflect (t : Target) (r : Rig) (p : Pose) (frame : Z)
  : result (Target * Rig) :=
  match cls t with
  | LocalRotationTarget =>
      let r1 :=
        match delta_o t with
        | Some d =>
            let current_rot_rel_to := get_rotation_rel_to p in
            let new_rot_rel_to := quat_mul d current_rot_rel_to in
            let rotation := compute_rotation_rel_to r p new_rot_rel_to in
            mkRig (quat_to_euler_zxy rotation) (ctrl_location r)
                  (ctrl_rotation_quaternion r) (keys r)
        | None => r
        end in
      Ok (t, mkRig (rotation_euler r1) (ctrl_location r1)
                   (ctrl_rotation_quaternion r1)
                   (keys r1 ++ [KeyRotationEuler frame (rotation_euler r1)])%list)
  | TrajectoryTarget =>
      let h := match head t with Some h => h | None => anchor p end in
      let t1 := mkTarget (cls t) (dominance t) (inflection_type t)
                         (delta_r t) (delta_o t) (delta_t t) (Some h) in
      let location := translation_of h in
      let location_inverse := translation_of (vec_neg h) in
      let head' := anchor p in
      m1 <- matmul mat_mul (delta_t t1) (Some location) ;;
      m2 <- matmul mat_mul (Some m1) (delta_r t1) ;;
      m3 <- matmul mat_mul (Some m2) (Some location_inverse) ;;
      loc <- matmul mat_vec (Some m3) (Some head') ;;
      Ok (t1, mkRig (rotation_euler r) loc (ctrl_rotation_quaternion r)
                    (keys r ++ [KeyLocation frame loc])%list)
  | RelativeLocRotTarget =>
      loc <- matmul mat_vec (delta_t t) (Some (ctrl_location r)) ;;
      rq <- matmul quat_mul (Some (ctrl_rotation_quaternion r)) (delta_o t) ;;
      Ok (t, mkRig (rotation_euler r) loc rq
                   (keys r ++ [KeyLocation frame loc;
                               KeyRotationQuaternion frame rq])%list)
  | HeadRotTarget =>
      rq <- matmul quat_mul (Some (ctrl_rotation_quaternion r)) (delta_o t) ;;
      Ok (t, mkRig (rotation_euler r) (ctrl_location r) rq
                   (keys r ++ [KeyRotationQuaternion frame rq])%list)
  end.

End HostMath.
End Targets.

(* ================================================================== *)
(** ** [player/merge.py]: the glue stage *)

Module Merge.
Import MMSParser Bpy.

(** One source curve of [Glue.perform_hold]. *)
Definition hold_curve (start end_ : Q) (target_action : Action)
    (source_fcurve : FCurve) : result Action :=
  let p := data_path source_fcurve in
  let i := array_index source_fcurve in
  let last_keyframe_idx :=
    (Z.of_nat (List.length (keyframe_points source_fcurve)) - 1)%Z in
  last_keyframe_point <- index (keyframe_points source_fcurve) last_keyframe_idx ;;
  t <- insert_key target_action p i start (snd last_keyframe_point) ;;
  insert_key t p i end_ (snd last_keyframe_point).

(** [Glue.perform_hold] *)
Definition perform_hold (actions : Actions) (target_animation : string)
    (source_animation : string) (start end_ : Q) : result (Actions * Q) :=
  source_action <- dict_get actions source_animation ;;
  target_action <- dict_get actions target_animation ;;
  target_action <- foldM (hold_curve start end_) source_action target_action ;;
  Ok (dict_set actions target_animation target_action, end_).

(** One source curve of [Glue.combine_animation]; [target_fcurve.update()]
    closes the copy of its keyframes. *)
Definition combine_curve (start : Q) (target_action : Action)
    (source_fcurve : FCurve) : result Action :=
  let p := data_path source_fcurve in
  let i := array_index source_fcurve in
  t <- foldM (fun t src_kfp =>
                insert_key t p i (fst src_kfp + start - 1)%Q (snd src_kfp))
             (keyframe_points source_fcurve) target_action ;;
  match find t p i with
  | None => Raise AttributeError
  | Some _ => Ok t
  end.

Section Host.

(** [action.frame_range] and [Path.exists], supplied by the host. *)
Variable frame_range : Action -> Q * Q.
Variable path_exists : Path -> bool.

(** [Glue.combine_animation] *)
Definition combine_animation (actions : Actions) (target_animation : string)
    (source_animation : string) (start : Q) : result (Actions * Q) :=
  source_action <- dict_get actions source_animation ;;
  let '(action_start, action_end) := frame_range source_action in
  target_action <- dict_get actions target_animation ;;
  target_action <- foldM (combine_curve start) source_action target_action ;;
  let end_ := (inject_Z (int action_end) + start)%Q in
  Ok (dict_set actions target_animation target_action, end_).

(** [Glue.create_new_fcurves]; [self_action_name] names the action of
    the final armature. *)
Definition create_new_fcurves (actions : Actions) (m : MMS)
    (self_action_name : string) (action_name : option string)
  : result Actions :=
  action_name <- match action_name with
                 | Some n => Ok n
                 | None =>
                     gloss <- index (mms m) 0 ;;
                     Ok ("inflected_" ++ output_name (snd gloss))
                 end ;;
  action <- dict_get actions action_name ;;
  if (List.length action =? 0)%nat then Raise AssertionError
  else
    target <- dict_get actions self_action_name ;;
    target <- foldM (fun t source_fcurve =>
                       new t (data_path source_fcurve)
                             (array_index source_fcurve))
                    action target ;;
    Ok (dict_set actions self_action_name target).

(** The [start] and [end] of a gloss on the final timeline. *)
Definition gloss_times (use_rel_time : bool) (last_gloss_end : Q)
    (line : MMSLine) : result (Q * Q) :=
  if use_rel_time then
    tr <- transition line ;;
    let start := (last_gloss_end + inject_Z tr)%Q in
    '(duration, is_relative) <- duration line ;;
    d <- (if is_relative : bool then
            if negb (Qle_bool 0 (to_Q duration) && Qle_bool (to_Q duration) 1)
            then Raise AssertionError
            else match original_frame_range line with
                 | None => Raise TypeError
                 | Some (fs, fe) =>
                     let dur_orig := (fe - fs)%Q in
                     Ok (dur_orig * to_Q duration)%Q
                 end
          else Ok (to_Q duration)) ;;
    Ok (start, (start + d)%Q)
  else
    '(start, end_) <- timing line ;;
    Ok ((inject_Z start + 1)%Q, (inject_Z end_ + 1)%Q).

(** The action a HOLD entry freezes: [prev_gloss_index = gloss[0] - 1]
    read in [self.mms.glosses]. *)
Definition hold_source (m : MMS) (gloss : key) : result string :=
  let prev_gloss_index := (Z.of_nat (fst gloss) - 1)%Z in
  prev_gloss_id <- index (mms m) prev_gloss_index ;;
  Ok ("inflected_" ++ output_name (snd prev_gloss_id)).

(** The hold or the copy of one gloss; answers the [end_frame]. *)
Definition merge_gloss (m : MMS) (action_name : string) (actions : Actions)
    (e : key * MMSLine) (start end_ : Q) : result (Actions * Q) :=
  if datatype (snd e) =? "HOLD" then
    source <- hold_source m (fst e) ;;
    perform_hold actions action_name source start end_
  else
    combine_animation actions action_name
      ("inflected_" ++ output_name (snd e)) start.

(** [assert end - 1 <= end_frame <= end + 1] *)
Definition compatible (end_ end_frame : Q) : bool :=
  Qle_bool (end_ - 1) end_frame && Qle_bool end_frame (end_ + 1).

(** The body of the loop of [Glue.merge_animation]; the state is
    [bpy.data.actions] and [last_gloss_end]. *)
Definition merge_step (use_rel_time : bool) (m : MMS) (action_name : string)
    (st : Actions * Q) (e : key * MMSLine) : result (Actions * Q) :=
  let '(actions, last_gloss_end) := st in
  if negb (path_exists (path (snd e))) then Ok st
  else
    '(start, end_) <- gloss_times use_rel_time last_gloss_end (snd e) ;;
    '(actions, end_frame) <- merge_gloss m action_name actions e start end_ ;;
    let last_gloss_end := end_ in
    if compatible end_ end_frame then Ok (actions, last_gloss_end)
    else Raise AssertionError.

(** [Glue.merge_animation] *)
Definition merge_animation (use_rel_time : bool) (m : MMS)
    (action_name : string) (actions : Actions) : result (Actions * Q) :=
  foldM (merge_step use_rel_time m action_name) (mms m) (actions, 1%Q).

End Host.
(** *** Vocabulary of the statements about the merge *)

(** The last recorded keyframe of a curve. *)
Definition last_keyframe (c : FCurve) : option (Q * Q) :=
  List.last (map Some (keyframe_points c)) None.

Definition has_keyframes (c : FCurve) : bool :=
  match keyframe_points c with [] => false | _ => true end.

(** A target curve after the hold of the source curve [src]. *)
Definition held (start end_ : Q) (src c : FCurve) : FCurve :=
  match last_keyframe src with
  | Some kp =>
      with_points (kf_insert end_ (snd kp)
                     (kf_insert start (snd kp) (keyframe_points c))) c
  | None => c
  end.

(** A target curve after the copy of the keyframes of [src]. *)
Definition copied (start : Q) (src c : FCurve) : FCurve :=
  fold_left (fun c kfp =>
               with_points (kf_insert (fst kfp + start - 1)%Q (snd kfp)
                                      (keyframe_points c)) c)
            (keyframe_points src) c.

End Merge.

(* ================================================================== *)
(** ** Sample tables *)

Module Samples.
Import MMSParser.

Definition header : list string :=
  ["maingloss"; "framestart"; "frameend"; "duration"; "transition";
   "domhandrelocx"; "domhandrelocy"; "domhandrelocz";
   "domhandrelocax"; "domhandrelocay"; "domhandrelocaz";
   "domhandrelocsx"; "domhandrelocsy"; "domhandrelocsz";
   "domhandrotx"; "domhandroty"; "domhandrotz";
   "torsorelocx"; "torsorelocy"; "torsorelocz";
   "torsorelocax"; "torsorelocay"; "torsorelocaz";
   "headrotx"; "headroty"; "headrotz";
   "domshoulderrelocx"; "domshoulderrelocy"; "domshoulderrelocz"].

(** A row whose inflection cells are all empty. *)
Definition row (gloss framestart frameend duration transition : string)
  : list string :=
  [gloss; framestart; frameend; duration; transition] ++ repeat EmptyString 24.

Definition root : Path := ["generated"].

Definition empty_mms : MMS :=
  mkMMS [] root (inflections_availability header).

Definition parsed (rows : list (list string)) : MMS :=
  match parse (header :: rows) root with
  | Ok m => m
  | Raise _ => empty_mms
  end.

Definition entry (m : MMS) (i : nat) : MMSLine :=
  match nth_error (mms m) i with
  | Some e => snd e
  | None => mkMMSLine [] [] EmptyString EmptyString EmptyString [] None None
  end.

(** Three glosses in time order, the second one a compound. *)
Definition sentence_rows : list (list string) :=
  [row "HELLO" "0.0" "1.0" "50%" "0";
   row "num:1-5" "1.0" "2.0" "0.5" "0.2";
   row "<HOLD>" "2.0" "2.5" "0.5" "0"].
Definition sentence : MMS := Eval vm_compute in parsed sentence_rows.

(** The row of the comment in [MMSLine.timing]: shorter than a frame. *)
Definition short_rows : list (list string) :=
  [row "BLINK" "1.61" "1.616" "150%" "0"].
Definition short : MMS := Eval vm_compute in parsed short_rows.

(** A gloss whose name begins with a slash. *)
Definition rooted_rows : list (list string) :=
  [row "/HELLO" "0.0" "1.0" "50%" "0"].
Definition rooted : MMS := Eval vm_compute in parsed rooted_rows.

(** A compound whose window is empty. *)
Definition flat_rows : list (list string) :=
  [row "num:1-5" "1.0" "1.0" "0.5" "0.2"].
Definition flat : MMS := Eval vm_compute in parsed flat_rows.

(** Rows written out of time order: the HOLD row comes second in the
    file and last in time. *)
Definition shuffled_rows : list (list string) :=
  [row "A" "0.0" "1.0" "100%" "0";
   row "<HOLD>" "2.0" "3.0" "1.0" "0";
   row "B" "1.0" "2.0" "100%" "0"].
Definition shuffled : MMS := Eval vm_compute in parsed shuffled_rows.

(** The tables after the resolution of the asset paths, every file
    being present. *)
Definition resolved (m : MMS) : MMS :=
  match find_mocap_data_files (fun _ => true) m with
  | Ok m' => m'
  | Raise _ => empty_mms
  end.

Definition sentence_resolved : MMS := Eval vm_compute in resolved sentence.
Definition shuffled_resolved : MMS := Eval vm_compute in resolved shuffled.

Definition pair_at (m : MMS) (i : nat) : key * MMSLine :=
  match nth_error (mms m) i with
  | Some e => e
  | None => ((0, EmptyString), entry m i)
  end.

(** A scene: the baked action of the first gloss, 61 frames long, and
    the empty action of the final armature. *)
Definition root_rotation : string := Resampler.rot_path_name "Bone_Root".
Definition root_location : string := Resampler.loc_path_name "Bone_Root".

Definition hello_action : Bpy.Action :=
  [Bpy.mkFCurve root_rotation 0 [(1 # 1, 1 # 10); (61 # 1, 2 # 10)]%Q;
   Bpy.mkFCurve root_location 0 [(1 # 1, 0 # 1); (61 # 1, 1 # 1)]%Q].

Definition scene : Bpy.Actions :=
  [("inflected_0_HELLO", hello_action); ("final_action", [])].

Definition scene_ready : Bpy.Actions :=
  Eval vm_compute in
    match Merge.create_new_fcurves scene sentence_resolved "final_action" None with
    | Ok a => a
    | Raise _ => []
    end.

(** A host [frame_range]: the frames of the first and of the last
    keyframe of the first curve. *)
Definition first_curve_range (a : Bpy.Action) : Q * Q :=
  match a with
  | c :: _ =>
      match Bpy.keyframe_points c with
      | (f, v) :: t => (f, fst (List.last t (f, v)))
      | [] => (0 # 1, 0 # 1)%Q
      end
  | [] => (0 # 1, 0 # 1)%Q
  end.

(** The scene after the copy of the first gloss at frame 1. *)
Definition scene_hello : Bpy.Actions * Q :=
  Eval vm_compute in
    match Merge.merge_gloss first_curve_range sentence_resolved "final_action"
            scene_ready (pair_at sentence_resolved 0) (1 # 1)%Q (61 # 1)%Q with
    | Ok r => r
    | Raise _ => ([], 0 # 1)%Q
    end.

(** A source animation of one bone over the frames 1..30, and a host
    whose curves evaluate to the frame they are asked for. *)
Definition root_action : Bpy.Action :=
  map (fun k => Bpy.mkFCurve (fst k) (snd k) [(1 # 1, 0 # 1); (30 # 1, 1 # 1)]%Q)
      (Resampler.bone_channels "Bone_Root").

Definition ramp (c : Bpy.FCurve) (frame : Q) : Q := frame.

End Samples.


(* ================================================================== *)
(** ** Python numbers in binary64

    A Python [float] is an IEEE 754 binary64 number: the kernel's
    primitive [float], whose [+ - * /] round to nearest, ties to even,
    as Python's do.  [value] is the rational a finite float stands for;
    the conversions to [int] are computed on it, exactly. *)

Module Float64.
Import PrimFloat SpecFloat FloatOps.

Definition float : Type := PrimFloat.float.

(** The rational of a finite float; [None] for the infinities and NaN. *)
Definition sf_value (x : spec_float) : option Q :=
  match x with
  | S754_zero _ => Some (inject_Z 0)
  | S754_finite s m e =>
      let n := if s then Zneg m else Zpos m in
      Some (if (0 <=? e)%Z then inject_Z (n * 2 ^ e)
            else Qmake n (Pos.shiftl 1 (Z.to_N (- e))))
  | S754_infinity _ | S754_nan => None
  end.

Definition value (x : float) : option Q := sf_value (Prim2SF x).

(** What [math.ceil], [math.floor] and [int] raise on a float that is
    no number of its own: [ValueError] on NaN, [OverflowError] on an
    infinity. *)
Definition not_finite (x : float) : exn :=
  if is_nan x then ValueError else OverflowError.

Definition ceil (x : float) : result Z :=
  match value x with
  | Some q => Ok (Qceiling q)
  | None => Raise (not_finite x)
  end.

Definition floor (x : float) : result Z :=
  match value x with
  | Some q => Ok (Qfloor q)
  | None => Raise (not_finite x)
  end.

(** [int(x)]: truncation toward zero. *)
Definition int (x : float) : result Z :=
  match value x with
  | Some q => Ok (Z.quot (Qnum q) (Zpos (Qden q)))
  | None => Raise (not_finite x)
  end.

(** The float nearest to [m * 2^e], ties to even; an infinity past the
    largest float. *)
Definition nearest (m e : Z) : float :=
  SF2Prim (binary_normalize prec emax m e false).

(** [float(z)] on an [int]: the nearest float, [OverflowError] past the
    largest one. *)
Definition of_Z (z : Z) : result float :=
  let x := nearest z 0 in
  if is_infinity x then Raise OverflowError else Ok x.

(** The float nearest to [n / d]: the quotient is taken to [k] binary
    places with a sticky last bit, [k] large enough for every rounding
    boundary of binary64 to be a multiple of [2^-k]. *)
Definition nearest_ratio (negative : bool) (n d : positive) : float :=
  let k := Z.max 1100 (Z.of_nat (Pos.size_nat d) - Z.of_nat (Pos.size_nat n)
                       + 1100) in
  let '(q, r) := Z.div_eucl (Zpos n * 2 ^ k) (Zpos d) in
  let m := (2 * q + (if (r =? 0)%Z then 0 else 1))%Z in
  SF2Prim (binary_normalize prec emax (if negative then - m else m)
                            (- k - 1) negative).

(** *** [float(str)]

    The string is a sequence of code points below 256.  Python turns
    every white-space character into a blank, takes the underscores
    that stand between two digits out (any other underscore is an
    error), strips the blanks at both ends and reads
    [sign? (digits ('.' digits?)? | '.' digits) ((e|E) sign? digits)?]
    or [sign? (inf | infinity | nan)], the letters in either case; the
    number is rounded to the nearest float, past the largest float to
    an infinity. *)

Definition is_space (c : ascii) : bool :=
  let n := nat_of_ascii c in
  ((9 <=? n) && (n <=? 13) || (28 <=? n) && (n <=? 32)
   || (n =? 133) || (n =? 160))%nat.

Definition is_digit (c : ascii) : bool :=
  let n := nat_of_ascii c in ((48 <=? n) && (n <=? 57))%nat.

Definition digit (c : ascii) : Z := Z.of_nat (nat_of_ascii c - 48).

Definition lower (c : ascii) : ascii :=
  let n := nat_of_ascii c in
  if ((65 <=? n) && (n <=? 90))%nat then ascii_of_nat (n + 32) else c.

(** [_Py_string_to_number_with_underscores]: [prev] is the character
    before; [None] is the error. *)
Fixpoint without_underscores (prev : option ascii) (s : string)
  : option string :=
  match s with
  | EmptyString =>
      match prev with
      | Some "_"%char => None
      | _ => Some EmptyString
      end
  | String c r =>
      if Ascii.eqb c "_" then
        match prev with
        | Some p => if is_digit p then without_underscores (Some c) r else None
        | None => None
        end
      else
        match prev with
        | Some "_"%char =>
            if is_digit c
            then option_map (String c) (without_underscores (Some c) r)
            else None
        | _ => option_map (String c) (without_underscores (Some c) r)
        end
  end.

Fixpoint lstrip_spaces (s : string) : string :=
  match s with
  | String c r => if is_space c then lstrip_spaces r else s
  | EmptyString => s
  end.

Fixpoint rstrip_spaces (s : string) : string :=
  match s with
  | EmptyString => EmptyString
  | String c r =>
      match rstrip_spaces r with
      | EmptyString => if is_space c then EmptyString else String c EmptyString
      | r' => String c r'
      end
  end.

(** Reads digits: the number read so far, how many digits were read,
    how many of them from the first non-zero digit on, and the rest. *)
Fixpoint digits (s : string) (acc : Z) (cnt sig : nat)
  : Z * nat * nat * string :=
  match s with
  | String c r =>
      if is_digit c then
        digits r (10 * acc + digit c)%Z (S cnt)
               (if ((acc =? 0)%Z && (digit c =? 0)%Z)%bool then sig else S sig)
      else (acc, cnt, sig, s)
  | EmptyString => (acc, cnt, sig, s)
  end.

(** [p] is a prefix of [s], the letters of [s] in either case. *)
Fixpoint starts_with (p s : string) : option string :=
  match p, s with
  | EmptyString, _ => Some s
  | String a p', String c s' =>
      if Ascii.eqb a (lower c) then starts_with p' s' else None
  | String _ _, EmptyString => None
  end.

Definition signed_zero (negative : bool) : float :=
  if negative then neg_zero else zero.

Definition signed_infinity (negative : bool) : float :=
  if negative then neg_infinity else infinity.

(** The float of [m * 10^e10], where [m] has [sig] decimal digits:
    the number lies in [[10^(e10+sig-1), 10^(e10+sig))], past the
    largest float from [10^309] on and below half the smallest one
    under [10^-324]. *)
Definition decimal (negative : bool) (m : Z) (sig : nat) (e10 : Z) : float :=
  match m with
  | Zpos n =>
      if (309 <=? e10 + Z.of_nat sig - 1)%Z then signed_infinity negative
      else if (e10 + Z.of_nat sig <=? -324)%Z then signed_zero negative
      else if (0 <=? e10)%Z
           then nearest_ratio negative (n * Z.to_pos (10 ^ e10)) 1
           else nearest_ratio negative n (Z.to_pos (10 ^ (- e10)))
  | _ => signed_zero negative
  end.

(** The exponent part, if there is one with a digit: more than nine
    significant digits, or a value above 1100000000, count as
    1100000000. *)
Definition max_abs_exp : Z := 1100000000%Z.
Definition max_digits : Z := 1000000000%Z.

Definition exponent (s : string) : Z * string :=
  match s with
  | String c r =>
      if Ascii.eqb (lower c) "e" then
        let '(negative, r1) :=
          match r with
          | String "-"%char r' => (true, r')
          | String "+"%char r' => (false, r')
          | _ => (false, r)
          end in
        let '(ev, cnt, sig, r2) := digits r1 0%Z 0 0 in
        if (cnt =? 0)%nat then (0%Z, s)
        else
          let a := if ((9 <? sig)%nat || (max_abs_exp <? ev)%Z)%bool
                   then max_abs_exp else ev in
          ((if negative then - a else a)%Z, r2)
      else (0%Z, s)
  | EmptyString => (0%Z, s)
  end.

(** A number without its sign; [None] when [s] is not one. *)
Definition unsigned_number (negative : bool) (s : string) : option float :=
  let '(ip, ni, si, r1) := digits s 0%Z 0 0 in
  let '(m, nf, sig, r2) :=
    match r1 with
    | String "."%char r => digits r ip 0 si
    | _ => (ip, 0, si, r1)
    end in
  if (ni + nf =? 0)%nat then None
  else if ((max_digits <? Z.of_nat sig) || (max_digits <? Z.of_nat nf))%Z%bool
       then None
  else
    let '(e, r3) := exponent r2 in
    match r3 with
    | EmptyString => Some (decimal negative m sig (e - Z.of_nat nf))
    | _ => None
    end.

Definition inf_or_nan (negative : bool) (s : string) : option float :=
  match starts_with "inf" s with
  | Some r =>
      match r with
      | EmptyString => Some (signed_infinity negative)
      | _ => match starts_with "inity" r with
             | Some EmptyString => Some (signed_infinity negative)
             | _ => None
             end
      end
  | None =>
      match starts_with "nan" s with
      | Some EmptyString => Some nan
      | _ => None
      end
  end.

Definition signed (s : string) : bool * string :=
  match s with
  | String "-"%char r => (true, r)
  | String "+"%char r => (false, r)
  | _ => (false, s)
  end.

Definition float_of_string (s : string) : result float :=
  match without_underscores None s with
  | None => Raise ValueError
  | Some s1 =>
      let '(negative, body) := signed (rstrip_spaces (lstrip_spaces s1)) in
      match unsigned_number negative body with
      | Some x => Ok x
      | None =>
          match inf_or_nan negative body with
          | Some x => Ok x
          | None => Raise ValueError
          end
      end
  end.

(** *** Numbers: [int] and [float]

    An operation on two [int]s is exact; as soon as one operand is a
    [float] the other is converted and the operation is the float's. *)

Inductive number : Type :=
| Int (z : Z)
| Float (x : float).

Definition to_float (n : number) : result float :=
  match n with
  | Int z => of_Z z
  | Float x => Ok x
  end.

Definition add (a b : number) : result number :=
  match a, b with
  | Int x, Int y => Ok (Int (x + y))
  | _, _ => x <- to_float a ;; y <- to_float b ;;
            Ok (Float (PrimFloat.add x y))
  end.

Definition sub (a b : number) : result number :=
  match a, b with
  | Int x, Int y => Ok (Int (x - y))
  | _, _ => x <- to_float a ;; y <- to_float b ;;
            Ok (Float (PrimFloat.sub x y))
  end.

Definition mul (a b : number) : result number :=
  match a, b with
  | Int x, Int y => Ok (Int (x * y))
  | _, _ => x <- to_float a ;; y <- to_float b ;;
            Ok (Float (PrimFloat.mul x y))
  end.

(** [x / y] on floats raises on a zero divisor. *)
Definition div (x y : float) : result float :=
  if is_zero y then Raise ZeroDivisionError else Ok (PrimFloat.div x y).

(** [math.ceil] on a number. *)
Definition ceil_number (n : number) : result Z :=
  match n with
  | Int z => Ok z
  | Float x => ceil x
  end.

(** [a <= b]: an [int] and a [float] are compared as the numbers they
    are, without conversion. *)
Definition le (a b : number) : bool :=
  match a, b with
  | Int x, Int y => (x <=? y)%Z
  | Float x, Float y => leb x y
  | Int x, Float y =>
      match value y with
      | Some q => Qle_bool (inject_Z x) q
      | None => ltb zero y
      end
  | Float x, Int y =>
      match value x with
      | Some q => Qle_bool q (inject_Z y)
      | None => ltb x zero
      end
  end.

End Float64.

(* ================================================================== *)
(** ** [player/mms_parser.py] in binary64

    The numbers of a row as Python computes them: the cells read by
    [float], the products by 60, the slices of a compound gloss, the
    ratio of a duration, each operation rounded to binary64.  The
    strings, the column index, the keys and the sort are those of
    [MMSParser]. *)

Module MMSParser64.
Import PrimFloat MMSParser.

(** A cell of a row: the CSV text, [None] for an empty cell, or a float
    written back by the compound-gloss split. *)
Inductive cell : Type :=
| CNone
| CStr (s : string)
| CFloat (x : Float64.float).

(** [float(x)] on a cell. *)
Definition float (c : cell) : result Float64.float :=
  match c with
  | CNone => Raise TypeError
  | CStr s => Float64.float_of_string s
  | CFloat x => Ok x
  end.

(** The float of the length of a list or of a position in one: a list
    has fewer than [2^63] items, so the conversion is exact and cannot
    overflow. *)
Definition of_index (n : nat) : Float64.float :=
  Float64.nearest (Z.of_nat n) 0.

Record MMSLine : Type := mkMMSLine {
  store_index : dict nat;
  line_data : list cell;
  name : string;
  datatype : string;
  output_name : string;
  path : Path;
  original_frame_range : option (Float64.float * Float64.float);
  resampled_frame_range : option (Float64.float * Float64.float)
}.

(** [MMSLine.__init__] *)
Definition MMSLine_init (idx : dict nat) (line : list cell) (gloss_idx : nat)
  : result MMSLine :=
  c0 <- get line 0 ;;
  match c0 with
  | CStr s =>
      let '(nm, dt) := find_datatype s in
      Ok (mkMMSLine idx line nm dt (str_of_nat gloss_idx ++ "_" ++ nm)
                    ["/"; "none"] None None)
  | _ => Raise TypeError
  end.

(** [MMSLine.__getitem__] *)
Definition getitem (l : MMSLine) (key : string) : result cell :=
  i <- dict_get (store_index l) key ;;
  get (line_data l) i.

(** [MMSLine.timing]: the start frame is computed, and may raise,
    before the end cell is read. *)
Definition timing (l : MMSLine) : result (Z * Z) :=
  cs <- getitem l "framestart" ;;
  fs <- float cs ;;
  start <- Float64.ceil (fs * 60)%float ;;
  ce <- getitem l "frameend" ;;
  fe <- float ce ;;
  end_ <- Float64.floor (fe * 60)%float ;;
  Ok (start, end_).

(** [MMSLine.transition] *)
Definition transition (l : MMSLine) : result Z :=
  c <- getitem l "transition" ;;
  f <- float c ;;
  Float64.ceil (f * 60)%float.

(** [MMSLine.duration]; ["%" in duration] needs a string. *)
Definition duration (l : MMSLine) : result (Float64.number * bool) :=
  c <- getitem l "duration" ;;
  match c with
  | CStr d =>
      if contains "%" d then
        t <- Float64.float_of_string (strip "%" d) ;;
        Ok (Float64.Float (t / 100)%float, true)
      else
        f <- Float64.float_of_string d ;;
        n <- Float64.ceil (f * 60)%float ;;
        Ok (Float64.Int n, false)
  | _ => Raise TypeError
  end.

Definition table : Type := list (key * MMSLine).

(** [scale = 0.3]: the literal, as Python reads it. *)
Definition scale : Float64.float := 0x1.3333333333333p-2%float.

(** One pass of the inner loop over the pieces of a compound gloss:
    the row [line] written for piece [i]. *)
Definition compound_line (idx : dict nat) (gloss_line : list cell)
    (prefix : string) (start delta : Float64.float) (n i : nat)
    (gloss : string) : result (list cell) :=
  line <- set gloss_line 0 (CStr (prefix ++ ":" ++ gloss)) ;;
  ifs <- dict_get idx "framestart" ;;
  line <- set line ifs (CFloat (start + delta * of_index i)%float) ;;
  ife <- dict_get idx "frameend" ;;
  line <- set line ife
    (CFloat (start + delta * of_index (i + 1) - scale * delta)%float) ;;
  itr <- dict_get idx "transition" ;;
  line <- set line itr (CFloat (scale * delta)%float) ;;
  if (i =? n - 1)%nat then
    itr' <- dict_get idx "transition" ;;
    v <- get gloss_line itr' ;;
    set line itr' v
  else Ok line.

Definition compound_step (idx : dict nat) (gloss_line : list cell)
    (prefix : string) (start delta : Float64.float) (n base : nat)
    (glosses : table) (ig : nat * string) : result table :=
  let '(i, gloss) := ig in
  line <- compound_line idx gloss_line prefix start delta n i gloss ;;
  gloss_data <- MMSLine_init idx line (base + i) ;;
  Ok (glosses ++ [((base + i, name gloss_data), gloss_data)])%list.

(** The comprehension that turns the empty cells of a row into [None]. *)
Definition none_for_empty (row : list string) : list cell :=
  map (fun x => if x =? EmptyString then CNone else CStr x) row.

(** The body of the loop over the rows of the file.  [len(names)] is
    at least one, [split] answering a piece for any string; a float
    division by zero would raise. *)
Definition parse_row (idx : dict nat) (st : table * nat) (row : list string)
  : result (table * nat) :=
  let '(glosses, base) := st in
  c0 <- get row 0 ;;
  let '(nm, prefix) := find_datatype c0 in
  let gloss_line := none_for_empty row in
  if negb (prefix =? "signs") && contains "-" nm then
    ifs <- dict_get idx "framestart" ;;
    cs <- get gloss_line ifs ;;
    start <- float cs ;;
    ife <- dict_get idx "frameend" ;;
    ce <- get gloss_line ife ;;
    end_ <- float ce ;;
    let diff := (end_ - start)%float in
    let names := split "-" nm in
    let n := List.length names in
    delta <- (if (n =? 0)%nat then Raise ZeroDivisionError
              else Ok (diff / of_index n)%float) ;;
    glosses' <- foldM (compound_step idx gloss_line prefix start delta n base)
                      (enumerate names) glosses ;;
    Ok (glosses', base + n)
  else
    gloss_data <- MMSLine_init idx gloss_line base ;;
    Ok ((glosses ++ [((base, name gloss_data), gloss_data)])%list, S base).

Definition sorted_by_start (items : table) : result table :=
  keyed <- mapM (fun kv => t <- timing (snd kv) ;; Ok (fst t, kv)) items ;;
  Ok (map snd (sort_by keyed)).

Record MMS : Type := mkMMS {
  mms : table;
  generated_root : Path;
  inflections_availability_dict : availability
}.

(** [MMSParser.parse] on the rows the CSV reader returned. *)
Definition parse (data : list (list string)) (root : Path) : result MMS :=
  header <- get data 0 ;;
  let idx := build_index header in
  st <- foldM (parse_row idx) (tl data) ([], 0) ;;
  items <- sorted_by_start (fst st) ;;
  Ok (mkMMS items root (inflections_availability header)).

(** *** Vocabulary of the statements about a row *)

(** The seconds written in the [framestart] and [frameend] columns. *)
Definition seconds_start (l : MMSLine) : result Float64.float :=
  c <- getitem l "framestart" ;; float c.

Definition seconds_end (l : MMSLine) : result Float64.float :=
  c <- getitem l "frameend" ;; float c.



End MMSParser64.

(* ================================================================== *)
(** ** The two places that turn a duration into frames, in binary64 *)

Module Resampler64.
Import PrimFloat.

(** The [timing] argument of [ArmatureOperator.resample]: the pair of
    [MMSLine.timing] when [use_rel_time] is false, the pair of
    [MMSLine.duration] when it is true. *)
Inductive timing_arg : Type :=
| Window (start end_ : Z)
| Duration (duration_or_prop : Float64.number) (is_proportion : bool).

(** [target_frame_count] of [ArmatureOperator.resample]; [frame_range]
    is [action.frame_range] of the source action. *)
Definition target_frame_count (frame_range : Float64.float * Float64.float)
    (timing : timing_arg) : result Float64.number :=
  match timing with
  | Window start end_ => Ok (Float64.Int (end_ - start + 1))
  | Duration duration_or_prop true =>
      frame_start <- Float64.int (fst frame_range) ;;
      frame_end <- Float64.int (snd frame_range) ;;
      x <- Float64.mul duration_or_prop
                       (Float64.Int (frame_end - frame_start)) ;;
      y <- Float64.add x (Float64.Int 1) ;;
      n <- Float64.ceil_number y ;;
      Ok (Float64.Int n)
  | Duration duration_or_prop false => Ok duration_or_prop
  end.

End Resampler64.

Module Merge64.
Import PrimFloat MMSParser64.

(** The start and the end of a gloss in [Glue.merge_animation];
    [last_gloss_end] is the [int] 1 before the first gloss and the [end]
    of the gloss before afterwards. *)
Definition gloss_times (use_rel_time : bool) (last_gloss_end : Float64.number)
    (line : MMSLine) : result (Float64.number * Float64.number) :=
  if use_rel_time then
    tr <- transition line ;;
    start <- Float64.add last_gloss_end (Float64.Int tr) ;;
    '(duration, is_relative) <- duration line ;;
    d <- (if is_relative : bool then
            if negb (Float64.le (Float64.Int 0) duration
                     && Float64.le duration (Float64.Int 1))
            then Raise AssertionError
            else match original_frame_range line with
                 | None => Raise TypeError
                 | Some (fs, fe) =>
                     let dur_orig := (fe - fs)%float in
                     Float64.mul (Float64.Float dur_orig) duration
                 end
          else Ok duration) ;;
    end_ <- Float64.add start d ;;
    Ok (start, end_)
  else
    '(start, end_) <- timing line ;;
    Ok (Float64.Int (start + 1), Float64.Int (end_ + 1)).

End Merge64.

(** ** Sample tables in binary64 *)

Module Samples64.
Import MMSParser MMSParser64.

Definition empty_mms : MMS :=
  mkMMS [] Samples.root (inflections_availability Samples.header).

Definition parsed (rows : list (list string)) : MMS :=
  match parse (Samples.header :: rows) Samples.root with
  | Ok m => m
  | Raise _ => empty_mms
  end.

Definition entry (m : MMS) (i : nat) : MMSLine :=
  match nth_error (mms m) i with
  | Some e => snd e
  | None => mkMMSLine [] [] EmptyString EmptyString EmptyString [] None None
  end.

Definition sentence : MMS := Eval vm_compute in parsed Samples.sentence_rows.
Definition short : MMS := Eval vm_compute in parsed Samples.short_rows.
Definition flat : MMS := Eval vm_compute in parsed Samples.flat_rows.


End Samples64.
(* ================================================================== *)
(** ** Further vocabulary and samples *)

Module Vocabulary.
Import MMSParser Bpy.

(** The position of the last occurrence of [k] in [l]. *)
Fixpoint last_index (k : string) (l : list string) : option nat :=
  match l with
  | [] => None
  | x :: t =>
      match last_index k t with
      | Some j => Some (S j)
      | None => if x =? k then Some 0 else None
      end
  end.

(** The entry starts at frame [s]. *)
Definition starts_at (s : Z) (e : key * MMSLine) : bool :=
  match timing (snd e) with
  | Ok (s', _) => (s' =? s)%Z
  | Raise _ => false
  end.

(** The sequence index of an entry. *)
Definition sequence_index (e : key * MMSLine) : nat := fst (fst e).

(** The line feed. *)
Definition newline : ascii := ascii_of_nat 10.

End Vocabulary.

Module MoreSamples.
Import MMSParser Samples.

(** A table that opens with a HOLD. *)
Definition hold_first_rows : list (list string) :=
  [row "<HOLD>" "0.0" "1.0" "1.0" "0";
   row "A" "1.0" "2.0" "100%" "0"].
Definition hold_first : MMS := Eval vm_compute in parsed hold_first_rows.

(** Two glosses that start on the same frame, and one before them
    written last. *)
Definition tie_rows : list (list string) :=
  [row "A" "1.0" "2.0" "100%" "0";
   row "B" "1.0" "3.0" "100%" "0";
   row "C" "0.0" "1.0" "100%" "0"].

(** A row whose head rotation has no [y] cell. *)
Definition head_header : list string :=
  ["maingloss"; "headrotx"; "headroty"; "headrotz"].
Definition partial_row : list string := ["A"; "0.1"; EmptyString; "0.3"].
Definition partial_line : MMSLine :=
  mkMMSLine (build_index head_header) (none_for_empty partial_row)
            "A" "signs" "0_A" ["/"; "none"] None None.

Definition tie_items : table :=
  Eval vm_compute in
    match foldM (parse_row (build_index header)) tie_rows ([], 0) with
    | Ok st => fst st
    | Raise _ => []
    end.

Definition tie_sorted : table :=
  Eval vm_compute in
    match sorted_by_start tie_items with
    | Ok t => t
    | Raise _ => []
    end.

(** A gloss and the hold that follows it, with the scene of their
    merge. *)
Definition held_rows : list (list string) :=
  [row "HELLO" "0.0" "1.0" "50%" "0";
   row "<HOLD>" "1.0" "1.5" "0.5" "0"].
Definition held_table : MMS := Eval vm_compute in resolved (parsed held_rows).

Definition held_ready : Bpy.Actions :=
  Eval vm_compute in
    match Merge.create_new_fcurves scene held_table "final_action" None with
    | Ok a => a
    | Raise _ => []
    end.

Definition held_hello : Bpy.Actions * Q :=
  Eval vm_compute in
    match Merge.merge_step first_curve_range (fun _ => true) false held_table
            "final_action" (held_ready, 1%Q) (pair_at held_table 0) with
    | Ok r => r
    | Raise _ => ([], 0 # 1)%Q
    end.

Definition held_merged : Bpy.Actions * Q :=
  Eval vm_compute in
    match Merge.merge_animation first_curve_range (fun _ => true) false
            held_table
            "final_action" held_ready with
    | Ok r => r
    | Raise _ => ([], 0 # 1)%Q
    end.

Definition held_parsed : MMS := Eval vm_compute in parsed held_rows.

(** A table with the [x] column of the head rotation alone. *)
Definition lone_header : list string := ["maingloss"; "headrotx"].
Definition lone_line : MMSLine :=
  mkMMSLine (build_index lone_header) (none_for_empty ["A"; "0.1"])
            "A" "signs" "0_A" ["/"; "none"] None None.

(** A rig on a line: matrices are translations of [Z], composed by
    addition; there is one rotation. *)
Definition line_pose (bone_head : Z) : Targets.Pose Z Z :=
  Targets.mkPose 0%Z 0%Z 0%Z 0%Z bone_head 0%Z 0%Z.
Definition line_target : Targets.Target Z unit Z :=
  Targets.mkTarget Targets.TrajectoryTarget "dom" "hand"
                   (Some 0%Z) (Some tt) (Some 5%Z) None.
Definition line_rig : Targets.Rig unit Z unit := Targets.mkRig tt 0%Z tt [].

End MoreSamples.

(* ================================================================== *)
(** ** [Controller.execute], as one trajectory target sees it

    The loop sets the frame, lets the host evaluate the scene and calls
    [inflect(frame)] on every target.  A trajectory target reads the
    pose of the dictionary armature at the frame and its own cached
    [head], and writes the location of its controller: its calls are
    [inflect] at each frame in turn, on the pose the host evaluated
    there. *)

Module Controllers.
Import Py Targets.

Section HostMath.

Variables Matrix Quaternion Vector Euler : Type.
Variable mat_mul : Matrix -> Matrix -> Matrix.
Variable mat_vec : Matrix -> Vector -> Vector.
Variable mat_inverted : Matrix -> Matrix.
Variable mat_to_quaternion : Matrix -> Quaternion.
Variable quat_mul : Quaternion -> Quaternion -> Quaternion.
Variable quat_inverted : Quaternion -> Quaternion.
Variable quat_to_euler_zxy : Quaternion -> Euler.
Variable euler_to_quaternion : Euler -> Quaternion.
Variable translation_of : Vector -> Matrix.
Variable vec_add : Vector -> Vector -> Vector.
Variable vec_sub : Vector -> Vector -> Vector.
Variable vec_neg : Vector -> Vector.

Definition execute_target (t : Target Matrix Quaternion Vector)
    (r : Rig Quaternion Vector Euler) (frames : list (Z * Pose Matrix Vector))
  : result (Target Matrix Quaternion Vector * Rig Quaternion Vector Euler) :=
  foldM (fun st fp =>
           inflect mat_mul mat_vec mat_inverted mat_to_quaternion quat_mul
                   quat_inverted quat_to_euler_zxy euler_to_quaternion
                   translation_of vec_add vec_sub vec_neg
                   (fst st) (snd st) (snd fp) (fst fp))
        frames (t, r).

(** Where a trajectory target with pivot [h] puts its controller, the
    bone being at [v]. *)
Definition inflected_location (delta_t delta_r : Matrix) (h v : Vector)
  : Vector :=
  mat_vec (mat_mul (mat_mul (mat_mul delta_t (translation_of h)) delta_r)
                   (translation_of (vec_neg h))) v.

End HostMath.
End Controllers.
(* ================================================================== *)
(** * Properties *)

Unset Implicit Arguments.

(** ** The runtime *)

Module PyFacts.

Lemma bind_ok {A B} (m : result A) (k : A -> result B) (b : B) :
  Py.bind m k = Ok b -> exists a, m = Ok a /\ k a = Ok b.
Proof.
  destruct m as [a|e]; simpl; intros H; [exists a; auto | discriminate].
Qed.

Lemma foldM_app {A S} (f : S -> A -> result S) (l1 l2 : list A) (st : S) :
  foldM f (l1 ++ l2)%list st = Py.bind (foldM f l1 st) (foldM f l2).
Proof.
  revert st; induction l1 as [|x l1 IH]; intros st; simpl; [reflexivity|].
  destruct (f st x) as [s|e]; simpl; auto.
Qed.

(** An exception raised in the middle of a loop is the outcome of the
    whole loop. *)
Lemma foldM_raise {A S} (f : S -> A -> result S) (l1 l2 : list A) (x : A)
    (st st1 : S) (e : exn) :
  foldM f l1 st = Ok st1 -> f st1 x = Raise e ->
  foldM f (l1 ++ x :: l2)%list st = Raise e.
Proof.
  intros H1 H2. rewrite foldM_app, H1. simpl. rewrite H2. reflexivity.
Qed.

Lemma foldM_snoc {A S} (f : S -> A -> result S) (l : list A) (x : A)
    (st : S) :
  foldM f (l ++ [x])%list st = Py.bind (foldM f l st) (fun s => f s x).
Proof.
  rewrite foldM_app. destruct (foldM f l st) as [s|e]; simpl; auto.
  destruct (f s x); reflexivity.
Qed.

Lemma mapM_ok {A B} (f : A -> result B) (l : list A) (ys : list B) :
  mapM f l = Ok ys -> Forall2 (fun x y => f x = Ok y) l ys.
Proof.
  revert ys; induction l as [|x l IH]; simpl; intros ys H.
  - inversion H; constructor.
  - apply bind_ok in H. destruct H as [y [Hy H]].
    apply bind_ok in H. destruct H as [ys' [Hys H]].
    inversion H; subst. constructor; auto.
Qed.







End PyFacts.

(* ================================================================== *)
(** ** The timing table *)

Module ParserProps.
Import PyFacts MMSParser.

(** *** The final sort *)

Definition key_le {A} (x y : Z * A) : Prop := (fst x <= fst y)%Z.

Lemma insert_by_perm {A} (x : Z * A) (l : list (Z * A)) :
  Permutation (insert_by x l) (x :: l).
Proof.
  induction l as [|y t IH]; simpl; [reflexivity|].
  destruct (fst x <=? fst y)%Z; [reflexivity|].
  rewrite IH. apply perm_swap.
Qed.

Lemma sort_by_perm {A} (l : list (Z * A)) : Permutation (sort_by l) l.
Proof.
  induction l as [|x t IH]; simpl; [reflexivity|].
  rewrite insert_by_perm. constructor. exact IH.
Qed.

Lemma insert_by_hd {A} (x a : Z * A) (l : list (Z * A)) :
  HdRel key_le a l -> key_le a x -> HdRel key_le a (insert_by x l).
Proof.
  intros Hl Hx. destruct l as [|y t]; simpl.
  - constructor; exact Hx.
  - destruct (fst x <=? fst y)%Z; constructor; [exact Hx|].
    inversion Hl; assumption.
Qed.

Lemma insert_by_sorted {A} (x : Z * A) (l : list (Z * A)) :
  Sorted key_le l -> Sorted key_le (insert_by x l).
Proof.
  induction 1 as [|y t Ht IH Hhd]; simpl.
  - repeat constructor.
  - destruct (fst x <=? fst y)%Z eqn:E.
    + constructor; [constructor; assumption|].
      constructor. apply Z.leb_le in E. exact E.
    + constructor; [exact IH|].
      apply insert_by_hd; [exact Hhd|].
      unfold key_le. apply Z.leb_gt in E. lia.
Qed.

Lemma sort_by_sorted {A} (l : list (Z * A)) : Sorted key_le (sort_by l).
Proof.
  induction l as [|x t IH]; simpl; [constructor | apply insert_by_sorted, IH].
Qed.

Lemma Sorted_consecutive {A} (R : A -> A -> Prop) (l : list A) (i : nat)
    (a b : A) :
  Sorted R l -> nth_error l i = Some a -> nth_error l (S i) = Some b -> R a b.
Proof.
  intros Hs; revert i; induction Hs as [|x t Ht IH Hhd]; intros i Ha Hb.
  - destruct i; discriminate.
  - destruct i as [|j]; simpl in Ha, Hb.
    + inversion Ha; subst. destruct t as [|y t']; [discriminate|].
      simpl in Hb. inversion Hb; subst. inversion Hhd; assumption.
    + eapply IH; eauto.
Qed.

(** *** Strings of gloss names *)

Lemma contains_app_sep (c : ascii) (a b : string) :
  contains c (a ++ String c b) = true.
Proof.
  induction a as [|d a IH]; simpl.
  - rewrite Ascii.eqb_refl. reflexivity.
  - destruct (Ascii.eqb c d); auto.
Qed.

Lemma split_no_sep (c : ascii) (s : string) :
  contains c s = false -> split c s = [s].
Proof.
  induction s as [|d s IH]; simpl; [reflexivity|].
  destruct (Ascii.eqb c d); [discriminate|].
  intros H. rewrite (IH H). reflexivity.
Qed.

Lemma split_app_sep (c : ascii) (a b : string) :
  contains c a = false -> split c (a ++ String c b) = a :: split c b.
Proof.
  induction a as [|d a IH]; simpl.
  - rewrite Ascii.eqb_refl. reflexivity.
  - destruct (Ascii.eqb c d); [discriminate|].
    intros H. rewrite (IH H). reflexivity.
Qed.




(** *** Resolution of the asset paths *)

Lemma is_hold_set_path (g : MMSLine) (p : Path) :
  is_hold (set_path g p) = is_hold g.
Proof. reflexivity. Qed.

Lemma is_hold_set_datatype (g : MMSLine) (d : string) :
  is_hold (set_datatype g d) = is_hold g.
Proof. reflexivity. Qed.

Lemma last_some_app {A} (l : list A) (x : A) :
  List.last (map Some (l ++ [x])) None = Some x.
Proof.
  rewrite map_app. simpl. apply last_last.
Qed.

(** Once [gloss_path] is bound, the loop either reaches its end with the
    entries of [resolved_from], or stops on the first missing file. *)
Lemma resolve_fold (pe : Path -> bool) (root : Path) (all : table) :
  all <> [] ->
  forall (rest done : table) (p : Path),
    (all_exist pe root rest = true ->
     exists gp',
       foldM (resolve_step pe root all) rest (done, Some p)
         = Ok ((done ++ resolved_from root p rest)%list, gp')) /\
    (all_exist pe root rest = false ->
     foldM (resolve_step pe root all) rest (done, Some p) = Raise Exception_).
Proof.
  intros Hall. induction rest as [|[k g] t IH]; intros done p.
  - simpl. split; [|discriminate]. intros _. exists (Some p).
    rewrite app_nil_r. reflexivity.
  - cbn [all_exist forallb resolved_from foldM resolve_step snd].
    fold (all_exist pe root t).
    assert (Hprev : exists q,
      match List.last (map Some done) None with
      | Some p0 => Some p0
      | None => List.last (map Some all) None
      end = Some q).
    { destruct (List.last (map Some done) None) as [q|]; [exists q; reflexivity|].
      destruct (exists_last Hall) as [l' [x ->]]. exists x.
      apply last_some_app. }
    destruct Hprev as [q Hq].
    destruct (is_hold g) eqn:Eh; cbn [orb].
    + rewrite Hq.
      destruct (IH (done ++ [(k, set_path (set_datatype g "HOLD") p)])%list p)
        as [IH1 IH2].
      split; intros Hex.
      * destruct (IH1 Hex) as [gp' E]. exists gp'.
        cbn [Py.bind]. rewrite <- app_assoc in E. exact E.
      * cbn [Py.bind]. apply IH2. exact Hex.
    + destruct (pe (mocap_path root g)) eqn:Epe; cbn [negb andb].
      * destruct (IH (done ++ [(k, set_path g (mocap_path root g))])%list
                     (mocap_path root g)) as [IH1 IH2].
        split; intros Hex.
        -- destruct (IH1 Hex) as [gp' E]. exists gp'.
           cbn [Py.bind]. rewrite <- app_assoc in E. exact E.
        -- cbn [Py.bind]. apply IH2. exact Hex.
      * split; [discriminate | reflexivity].
Qed.

(** What [resolved_from] leaves at each position. *)
Lemma resolved_from_nth (root : Path) (rest : table) :
  forall (p : Path) (i : nat) (k : key) (l : MMSLine),
    nth_error rest i = Some (k, l) ->
    exists l',
      nth_error (resolved_from root p rest) i = Some (k, l') /\
      name l' = name l /\
      (is_hold l = false -> l' = set_path l (mocap_path root l)) /\
      (is_hold l = true ->
       datatype l' = "HOLD" /\
       ((exists j kj lj,
            j < i /\
            nth_error (resolved_from root p rest) j = Some (kj, lj) /\
            is_hold lj = false /\
            (forall j' e, j < j' -> j' < i ->
               nth_error (resolved_from root p rest) j' = Some e ->
               is_hold (snd e) = true) /\
            path l' = path lj) \/
        ((forall j e, j < i ->
            nth_error (resolved_from root p rest) j = Some e ->
            is_hold (snd e) = true) /\
         path l' = p))).
Proof.
  induction rest as [|[k0 g0] t IH]; intros p i k l Hi.
  - destruct i; discriminate.
  - destruct i as [|i]; simpl in Hi.
    + inversion Hi; subst. cbn [resolved_from].
      destruct (is_hold l) eqn:Eh.
      * eexists. split; [reflexivity|]. split; [reflexivity|].
        split; [discriminate|]. intros _. split; [reflexivity|].
        right. split; [intros j e Hj; lia | reflexivity].
      * eexists. split; [reflexivity|]. split; [reflexivity|].
        split; [reflexivity | discriminate].
    + cbn [resolved_from]. destruct (is_hold g0) eqn:Eh0.
      * destruct (IH p i k l Hi) as [l' [Hn [Hname [Hnon Hhold]]]].
        exists l'. split; [exact Hn|]. split; [exact Hname|].
        split; [exact Hnon|]. intros Hl.
        destruct (Hhold Hl) as [Hdt [[j [kj [lj [Hj [Hnj [Hlj [Hbet Hp]]]]]]]|[Hbef Hp]]];
          (split; [exact Hdt|]).
        -- left. exists (S j), kj, lj. split; [lia|]. split; [exact Hnj|].
           split; [exact Hlj|]. split; [|exact Hp].
           intros j' e Hj1 Hj2 He. destruct j' as [|j']; [lia|].
           apply (Hbet j' e); [lia | lia | exact He].
        -- right. split; [|exact Hp].
           intros j e Hj He. destruct j as [|j]; simpl in He.
           ++ inversion He; subst. exact Eh0.
           ++ apply (Hbef j e); [lia | exact He].
      * destruct (IH (mocap_path root g0) i k l Hi)
          as [l' [Hn [Hname [Hnon Hhold]]]].
        exists l'. split; [exact Hn|]. split; [exact Hname|].
        split; [exact Hnon|]. intros Hl.
        destruct (Hhold Hl) as [Hdt [[j [kj [lj [Hj [Hnj [Hlj [Hbet Hp]]]]]]]|[Hbef Hp]]];
          (split; [exact Hdt|]); left.
        -- exists (S j), kj, lj. split; [lia|]. split; [exact Hnj|].
           split; [exact Hlj|]. split; [|exact Hp].
           intros j' e Hj1 Hj2 He. destruct j' as [|j']; [lia|].
           apply (Hbet j' e); [lia | lia | exact He].
        -- exists 0, k0, (set_path g0 (mocap_path root g0)).
           split; [lia|]. split; [reflexivity|]. split; [exact Eh0|].
           split; [|exact Hp].
           intros j' e Hj1 Hj2 He. destruct j' as [|j']; [lia|].
           apply (Hbef j' e); [lia | exact He].
Qed.

Lemma resolved_from_length (root : Path) (rest : table) (p : Path) :
  List.length (resolved_from root p rest) = List.length rest.
Proof.
  revert p; induction rest as [|[k g] t IH]; intros p; simpl; [reflexivity|].
  destruct (is_hold g); simpl; rewrite IH; reflexivity.
Qed.

(** *** Paths *)

Lemma splitroot_relative (s : string) :
  anchored s = false -> splitroot s = (EmptyString, s).
Proof.
  destruct s as [|c r]; [reflexivity|]. unfold anchored, splitroot.
  intros H.
  destruct c as [b0 b1 b2 b3 b4 b5 b6 b7].
  destruct b0, b1, b2, b3, b4, b5, b6, b7; try reflexivity; discriminate.
Qed.

(** A relative segment adds its components. *)
Lemma joinpath_relative (p : Path) (s : string) :
  anchored s = false -> joinpath p s = (p ++ path_names s)%list.
Proof.
  intros H. unfold joinpath. rewrite (splitroot_relative s H). reflexivity.
Qed.

(** A segment without a slash, not empty and not a dot, is one
    component. *)
Lemma path_names_plain (s : string) :
  contains "/" s = false -> s <> EmptyString -> s <> "." ->
  path_names s = [s].
Proof.
  intros Hc He Hd. unfold path_names. rewrite (split_no_sep _ _ Hc).
  cbn [filter].
  destruct (s =? EmptyString) eqn:E1; [apply String.eqb_eq in E1; contradiction|].
  destruct (s =? ".") eqn:E2; [apply String.eqb_eq in E2; contradiction|].
  reflexivity.
Qed.

Lemma contains_app (c : ascii) (a b : string) :
  contains c (a ++ b) = contains c a || contains c b.
Proof.
  induction a as [|d a IH]; [reflexivity|]. simpl.
  destruct (Ascii.eqb c d); [reflexivity | exact IH].
Qed.

Lemma anchored_app (a b : string) :
  a <> EmptyString -> anchored (a ++ b) = anchored a.
Proof. destruct a; [contradiction | reflexivity]. Qed.

Lemma contains_anchored (s : string) :
  contains "/" s = false -> anchored s = false.
Proof.
  destruct s as [|c r]; [reflexivity|]. unfold anchored. cbn [contains].
  rewrite (Ascii.eqb_sym c "/"). destruct (Ascii.eqb "/" c); [discriminate|].
  reflexivity.
Qed.

(** The file of a gloss under the root, for a category and a name that
    do not begin with a slash. *)
Lemma mocap_path_relative (root : Path) (l : MMSLine) :
  anchored (datatype l) = false -> anchored (name l) = false ->
  mocap_path root l
  = (root ++ path_names (datatype l) ++ ["trimmed"]
          ++ path_names (name l ++ ".blend")%string)%list.
Proof.
  intros Hd Hn. unfold mocap_path.
  rewrite (joinpath_relative root _ Hd).
  rewrite (joinpath_relative _ "trimmed" eq_refl).
  rewrite joinpath_relative.
  - change (path_names "trimmed") with ["trimmed"].
    rewrite <- !app_assoc. reflexivity.
  - destruct (name l); [reflexivity | exact Hn].
Qed.

Lemma mocap_path_plain (root : Path) (l : MMSLine) :
  contains "/" (datatype l) = false ->
  datatype l <> EmptyString -> datatype l <> "." ->
  contains "/" (name l) = false ->
  mocap_path root l
  = (root ++ [datatype l; "trimmed"; (name l ++ ".blend")%string])%list.
Proof.
  intros Hd He Hdot Hn.
  rewrite mocap_path_relative by (apply contains_anchored; assumption).
  rewrite (path_names_plain _ Hd He Hdot).
  rewrite path_names_plain; [reflexivity| | |].
  - rewrite contains_app, Hn. reflexivity.
  - destruct (name l); discriminate.
  - destruct (name l) as [|c [|d r]]; discriminate.
Qed.

(** C9, amended.  Over a table whose first entry is not a HOLD,
    [find_mocap_data_files] succeeds when the file of every non-HOLD
    entry exists and then leaves, at every position, the same key and
    name.  A non-HOLD entry gets the path
    [Path(generated_root).joinpath(category).joinpath("trimmed")
    .joinpath(name + ".blend")], which exists; when neither the category
    nor the name begins with a slash this is the root followed by the
    components of the category, [trimmed] and the components of
    [name.blend], and for a category and a name that are single
    components it is [generated_root/category/trimmed/name.blend].  A
    HOLD entry gets the category [HOLD] and the path of the nearest
    non-HOLD entry before it.  When the file of some non-HOLD entry is
    missing the pass raises. *)
Theorem hold_inherits_previous_path (pe : Path -> bool) (m : MMS) :
  (forall e, nth_error (mms m) 0 = Some e -> is_hold (snd e) = false) ->
  (all_exist pe (generated_root m) (mms m) = true ->
   exists m',
     find_mocap_data_files pe m = Ok m' /\
     List.length (mms m') = List.length (mms m) /\
     forall i k l,
       nth_error (mms m) i = Some (k, l) ->
       exists l',
         nth_error (mms m') i = Some (k, l') /\ name l' = name l /\
         (is_hold l = false ->
          let file :=
            joinpath (joinpath (joinpath (generated_root m) (datatype l))
                               "trimmed")
                     (name l ++ ".blend") in
          l' = set_path l file /\ pe file = true /\
          (anchored (datatype l) = false -> anchored (name l) = false ->
           file = (generated_root m ++ path_names (datatype l) ++ ["trimmed"]
                     ++ path_names (name l ++ ".blend")%string)%list) /\
          (contains "/" (datatype l) = false ->
           datatype l <> EmptyString -> datatype l <> "." ->
           contains "/" (name l) = false ->
           file = (generated_root m
                     ++ [datatype l; "trimmed"; (name l ++ ".blend")%string])%list)) /\
         (is_hold l = true ->
          datatype l' = "HOLD" /\
          exists j kj lj,
            j < i /\ nth_error (mms m') j = Some (kj, lj) /\
            is_hold lj = false /\
            (forall j' e, j < j' -> j' < i ->
               nth_error (mms m') j' = Some e -> is_hold (snd e) = true) /\
            path l' = path lj)) /\
  (all_exist pe (generated_root m) (mms m) = false ->
   find_mocap_data_files pe m = Raise Exception_).
Proof.
  intros Hfirst. unfold find_mocap_data_files.
  destruct (mms m) as [|[k0 g0] t] eqn:Em.
  - split; [|discriminate]. intros _. eexists. split; [reflexivity|].
    split; [reflexivity|]. intros i k l Hi. destruct i; discriminate.
  - assert (H0 : is_hold g0 = false) by (apply (Hfirst (k0, g0)); reflexivity).
    assert (Hne : (k0, g0) :: t <> []) by discriminate.
    (* the first entry binds gloss_path; resolved_from does not read the
       path it is given before a non-HOLD entry *)
    assert (Hinit : forall p,
      resolved_from (generated_root m) p ((k0, g0) :: t)
      = (k0, set_path g0 (mocap_path (generated_root m) g0))
          :: resolved_from (generated_root m)
                           (mocap_path (generated_root m) g0) t).
    { intros p. cbn [resolved_from]. rewrite H0. reflexivity. }
    cbn [foldM resolve_step all_exist forallb snd]. rewrite H0. cbn [orb].
    fold (all_exist pe (generated_root m) t).
    destruct (pe (mocap_path (generated_root m) g0)) eqn:Epe;
      cbn [negb andb Py.bind].
    + destruct (resolve_fold pe (generated_root m) ((k0, g0) :: t) Hne t
                  ([] ++ [(k0, set_path g0 (mocap_path (generated_root m) g0))])%list
                  (mocap_path (generated_root m) g0)) as [F1 F2].
      split; intros Hex.
      * destruct (F1 Hex) as [gp' E].
        match goal with
        | |- context [Py.bind ?x _] =>
            match type of E with _ = ?r => assert (E' : x = r) by exact E end;
            rewrite E'
        end.
        cbn [Py.bind fst].
        eexists. split; [reflexivity|]. cbn [mms app].
        rewrite <- (Hinit []).
        split; [apply resolved_from_length|].
        intros i k l Hi.
        destruct (resolved_from_nth (generated_root m) ((k0, g0) :: t) [] i k l Hi)
          as [l' [Hn [Hname [Hnon Hhold]]]].
        exists l'. split; [exact Hn|]. split; [exact Hname|]. split.
        -- intros Hl.
           change (let file := mocap_path (generated_root m) l in
                   l' = set_path l file /\ pe file = true /\
                   (anchored (datatype l) = false -> anchored (name l) = false ->
                    file = (generated_root m ++ path_names (datatype l)
                              ++ ["trimmed"]
                              ++ path_names (name l ++ ".blend")%string)%list) /\
                   (contains "/" (datatype l) = false ->
                    datatype l <> EmptyString -> datatype l <> "." ->
                    contains "/" (name l) = false ->
                    file = (generated_root m
                              ++ [datatype l; "trimmed"; (name l ++ ".blend")%string])%list)).
           cbv zeta. split; [apply Hnon; exact Hl|]. split.
           ++ assert (Hin : In (k, l) ((k0, g0) :: t))
                by (eapply nth_error_In; exact Hi).
              destruct Hin as [Heq|Hin].
              ** inversion Heq; subst. exact Epe.
              ** unfold all_exist in Hex. rewrite forallb_forall in Hex.
                 specialize (Hex _ Hin). cbn [snd] in Hex.
                 rewrite Hl in Hex. exact Hex.
           ++ split; [apply mocap_path_relative | apply mocap_path_plain].
        -- intros Hl. destruct (Hhold Hl) as [Hdt [Hleft|[Hbef _]]];
             (split; [exact Hdt|]); [exact Hleft|].
           exfalso. destruct i as [|i].
           ++ simpl in Hi. inversion Hi; subst. congruence.
           ++ specialize (Hbef 0 (k0, set_path g0 (mocap_path (generated_root m) g0))).
              rewrite Hinit in Hbef. cbn [nth_error snd] in Hbef.
              rewrite is_hold_set_path in Hbef.
              assert (is_hold g0 = true) by (apply Hbef; [lia | reflexivity]).
              congruence.
      * specialize (F2 Hex).
        match goal with
        | |- context [Py.bind ?x _] =>
            assert (E' : x = Raise Exception_) by exact F2; rewrite E'
        end.
        reflexivity.
    + split; [discriminate | reflexivity].
Qed.

Lemma hold_inherits_previous_path_witness :
  (forall e, nth_error (mms Samples.sentence) 0 = Some e -> is_hold (snd e) = false) /\
  exists m',
    find_mocap_data_files (fun _ => true) Samples.sentence = Ok m' /\
    List.length (mms m') = List.length (mms Samples.sentence).
Proof.
  assert (H : forall e, nth_error (mms Samples.sentence) 0 = Some e ->
                        is_hold (snd e) = false).
  { intros e He. vm_compute in He. inversion He; subst. reflexivity. }
  split; [exact H|].
  destruct (hold_inherits_previous_path (fun _ => true) Samples.sentence H)
    as [Hok _].
  destruct Hok as [m' [E [L _]]]; [reflexivity|].
  exists m'. split; [exact E | exact L].
Defined.

(** C9 as stated fails for a gloss whose name begins with a slash: the
    row [/HELLO] parses to the name [/HELLO] in the category [signs],
    [Path.joinpath] takes [/HELLO.blend] as an absolute path, and the
    entry gets the path [/HELLO.blend], which is not under the root
    [generated]. *)
Lemma rooted_name_counterexample :
  parse (Samples.header :: Samples.rooted_rows) Samples.root
    = Ok Samples.rooted /\
  name (Samples.entry Samples.rooted 0) = "/HELLO" /\
  datatype (Samples.entry Samples.rooted 0) = "signs" /\
  is_hold (Samples.entry Samples.rooted 0) = false /\
  exists m',
    find_mocap_data_files (fun _ => true) Samples.rooted = Ok m' /\
    path (Samples.entry m' 0) = ["/"; "HELLO.blend"] /\
    forall rest, path (Samples.entry m' 0) <> (Samples.root ++ rest)%list.
Proof.
  split; [vm_compute; reflexivity|].
  split; [reflexivity|]. split; [reflexivity|]. split; [reflexivity|].
  eexists. split; [vm_compute; reflexivity|].
  split; [reflexivity|].
  intros rest H. vm_compute in H. discriminate.
Qed.

End ParserProps.
(* ================================================================== *)
(** ** The animation host *)

Module HostProps.
Import PyFacts Bpy.

(** *** Keyframes of one curve *)

Lemma Qeq_bool_refl' (q : Q) : Qeq_bool q q = true.
Proof. apply Qeq_bool_iff. reflexivity. Qed.

Lemma Qeq_bool_trans_false (f g h : Q) :
  Qeq_bool h f = true -> Qeq_bool f g = false -> Qeq_bool h g = false.
Proof.
  intros H1 H2. destruct (Qeq_bool h g) eqn:E; [|reflexivity].
  apply Qeq_bool_iff in H1. apply Qeq_bool_iff in E.
  assert (H : Qeq_bool f g = true).
  { apply Qeq_bool_iff. rewrite <- H1. exact E. }
  congruence.
Qed.

(** The key just inserted is found again, with its value. *)
Lemma kf_lookup_insert_same (f v : Q) (pts : list (Q * Q)) :
  kf_lookup f (kf_insert f v pts) = Some v.
Proof.
  induction pts as [|[g w] t IH]; simpl.
  - rewrite Qeq_bool_refl'. reflexivity.
  - destruct (Qeq_bool g f) eqn:E.
    + simpl. rewrite Qeq_bool_refl'. reflexivity.
    + destruct (Qle_bool f g); simpl.
      * rewrite Qeq_bool_refl'. reflexivity.
      * rewrite E. exact IH.
Qed.

(** So is it under any frame equal to the one inserted. *)
Lemma kf_lookup_insert_eq (f g v : Q) (pts : list (Q * Q)) :
  Qeq_bool f g = true -> kf_lookup g (kf_insert f v pts) = Some v.
Proof.
  intros Hfg. induction pts as [|[h w] t IH]; simpl.
  - rewrite Hfg. reflexivity.
  - destruct (Qeq_bool h f) eqn:E.
    + simpl. rewrite Hfg. reflexivity.
    + destruct (Qle_bool f h); simpl.
      * rewrite Hfg. reflexivity.
      * assert (Hhg : Qeq_bool h g = false).
        { destruct (Qeq_bool h g) eqn:Hhg; [|reflexivity].
          apply Qeq_bool_iff in Hhg. apply Qeq_bool_iff in Hfg.
          assert (Hhf : Qeq_bool h f = true).
          { apply Qeq_bool_iff. rewrite Hhg, Hfg. reflexivity. }
          congruence. }
        rewrite Hhg. exact IH.
Qed.

(** The keys on other frames are left alone. *)
Lemma kf_lookup_insert_other (f g v : Q) (pts : list (Q * Q)) :
  Qeq_bool f g = false ->
  kf_lookup g (kf_insert f v pts) = kf_lookup g pts.
Proof.
  intros Hfg. induction pts as [|[h w] t IH]; simpl.
  - rewrite Hfg. reflexivity.
  - destruct (Qeq_bool h f) eqn:E.
    + simpl. rewrite Hfg. rewrite (Qeq_bool_trans_false f g h E Hfg).
      reflexivity.
    + destruct (Qle_bool f h); simpl.
      * rewrite Hfg. reflexivity.
      * rewrite IH. reflexivity.
Qed.


(** An insertion adds at most one point. *)
Lemma kf_insert_length (f v : Q) (pts : list (Q * Q)) :
  List.length pts <= List.length (kf_insert f v pts) <= S (List.length pts).
Proof.
  induction pts as [|[g w] t IH]; simpl; [lia|].
  destruct (Qeq_bool g f); simpl; [lia|].
  destruct (Qle_bool f g); simpl; lia.
Qed.


(** *** Curves of one action *)

Lemma channel_eqb_eq (a b : channel) : channel_eqb a b = true <-> a = b.
Proof.
  destruct a as [p i], b as [q j]. unfold channel_eqb; simpl.
  rewrite andb_true_iff, String.eqb_eq, Nat.eqb_eq.
  split; [intros [-> ->]; reflexivity | intros H; inversion H; auto].
Qed.

Lemma channel_eqb_refl (a : channel) : channel_eqb a a = true.
Proof. apply channel_eqb_eq. reflexivity. Qed.

Lemma same_channel_eqb (p : string) (i : nat) (c : FCurve) :
  same_channel p i c = channel_eqb (channel_of c) (p, i).
Proof. reflexivity. Qed.

Lemma find_channel_some (a : Action) (k : channel) (c : FCurve) :
  find_channel a k = Some c -> channel_of c = k /\ In c a.
Proof.
  unfold find_channel, find. intros H. apply find_some in H.
  destruct H as [Hin Hs]. rewrite same_channel_eqb in Hs.
  apply channel_eqb_eq in Hs. destruct k; auto.
Qed.

Lemma find_channel_none (a : Action) (k : channel) :
  find_channel a k = None <-> ~ In k (map channel_of a).
Proof.
  unfold find_channel, find. split.
  - intros H Hin. apply in_map_iff in Hin. destruct Hin as [c [Hc Hin]].
    pose proof (find_none _ _ H c Hin) as Hs.
    rewrite same_channel_eqb, Hc in Hs. destruct k.
    simpl in Hs. rewrite channel_eqb_refl in Hs. discriminate.
  - intros H. destruct (List.find _ a) as [c|] eqn:E; [|reflexivity].
    exfalso. apply H. apply find_some in E. destruct E as [Hin Hs].
    rewrite same_channel_eqb in Hs. apply channel_eqb_eq in Hs.
    apply in_map_iff. exists c. destruct k; auto.
Qed.

(** The curve mutated by [update] is the one [find] answers; the other
    channels keep their curve. *)
Lemma find_update (a : Action) (k k' : channel) (upd : FCurve -> FCurve) :
  (forall c, channel_of (upd c) = channel_of c) ->
  find_channel (update a (fst k) (snd k) upd) k'
  = option_map (fun c => if channel_eqb k k' then upd c else c)
               (find_channel a k').
Proof.
  intros Hupd. destruct k as [p i], k' as [p' i'].
  unfold find_channel, find. cbn [fst snd].
  induction a as [|c t IH]; [reflexivity|].
  cbn [update List.find].
  rewrite !same_channel_eqb.
  destruct (channel_eqb (channel_of c) (p, i)) eqn:E1.
  - cbn [List.find]. rewrite same_channel_eqb, Hupd.
    apply channel_eqb_eq in E1.
    destruct (channel_eqb (channel_of c) (p', i')) eqn:E2.
    + apply channel_eqb_eq in E2.
      assert (E : channel_eqb (p, i) (p', i') = true)
        by (apply channel_eqb_eq; congruence).
      rewrite E. reflexivity.
    + assert (E : channel_eqb (p, i) (p', i') = false).
      { destruct (channel_eqb (p, i) (p', i')) eqn:E; [|reflexivity].
        apply channel_eqb_eq in E. rewrite <- E, <- E1, channel_eqb_refl in E2.
        discriminate. }
      rewrite E. destruct (List.find _ t); reflexivity.
  - cbn [List.find]. rewrite same_channel_eqb.
    destruct (channel_eqb (channel_of c) (p', i')) eqn:E2.
    + assert (E : channel_eqb (p, i) (p', i') = false).
      { destruct (channel_eqb (p, i) (p', i')) eqn:E; [|reflexivity].
        apply channel_eqb_eq in E. apply channel_eqb_eq in E2.
        rewrite E, <- E2, channel_eqb_refl in E1. discriminate. }
      simpl. rewrite E. reflexivity.
    + exact IH.
Qed.

Lemma update_channels (a : Action) (p : string) (i : nat)
    (upd : FCurve -> FCurve) :
  (forall c, channel_of (upd c) = channel_of c) ->
  map channel_of (update a p i upd) = map channel_of a.
Proof.
  intros Hupd. induction a as [|c t IH]; [reflexivity|].
  simpl. destruct (same_channel p i c); simpl; [rewrite Hupd|rewrite IH];
    reflexivity.
Qed.

(** [insert_key] on a channel of the action. *)
Lemma insert_key_spec (a : Action) (k : channel) (f v : Q) (c0 : FCurve) :
  find_channel a k = Some c0 ->
  exists a',
    insert_key a (fst k) (snd k) f v = Ok a' /\
    map channel_of a' = map channel_of a /\
    forall k',
      find_channel a' k'
      = option_map
          (fun c => if channel_eqb k k'
                    then with_points (kf_insert f v (keyframe_points c)) c
                    else c)
          (find_channel a k').
Proof.
  intros H. unfold insert_key. unfold find_channel in H. rewrite H.
  eexists. split; [reflexivity|]. split.
  - apply update_channels. intros c. reflexivity.
  - intros k'. apply find_update. intros c. reflexivity.
Qed.

Lemma insert_key_missing (a : Action) (k : channel) (f v : Q) :
  find_channel a k = None ->
  insert_key a (fst k) (snd k) f v = Raise AttributeError.
Proof.
  intros H. unfold insert_key. unfold find_channel in H. rewrite H.
  reflexivity.
Qed.


(** *** Loops that write into the channels of an action

    A loop over [l] whose body mutates, for its element [x], the curve
    of channel [key x] by [G x], and raises when that curve is missing
    or [x] is not [good]. *)

Section Loop.

Variables (X : Type) (key : X -> channel) (good : X -> bool).
Variable G : X -> FCurve -> FCurve.
Variable step : Action -> X -> result Action.
Variable E : exn -> Prop.

Hypothesis step_ok : forall t x c0,
  good x = true -> find_channel t (key x) = Some c0 ->
  exists t',
    step t x = Ok t' /\
    map channel_of t' = map channel_of t /\
    forall k',
      find_channel t' k'
      = option_map (fun c => if channel_eqb (key x) k' then G x c else c)
                   (find_channel t k').

Hypothesis step_fail : forall t x,
  good x = false \/ find_channel t (key x) = None ->
  exists e, step t x = Raise e /\ E e.

Lemma loop_ok (l : list X) :
  forall t,
    (forall x, In x l -> good x = true /\ find_channel t (key x) <> None) ->
    exists t',
      foldM step l t = Ok t' /\
      map channel_of t' = map channel_of t /\
      forall k',
        find_channel t' k'
        = option_map
            (fun c0 => fold_left
               (fun c x => if channel_eqb (key x) k' then G x c else c) l c0)
            (find_channel t k').
Proof.
  induction l as [|x l IH]; intros t Hl.
  - exists t. split; [reflexivity|]. split; [reflexivity|].
    intros k'. simpl. destruct (find_channel t k'); reflexivity.
  - destruct (Hl x (or_introl eq_refl)) as [Hg Hf].
    destruct (find_channel t (key x)) as [c0|] eqn:Ec; [|congruence].
    destruct (step_ok t x c0 Hg Ec) as [t1 [E1 [C1 F1]]].
    destruct (IH t1) as [t' [E' [C' F']]].
    { intros y Hy. destruct (Hl y (or_intror Hy)) as [Hgy Hfy].
      split; [exact Hgy|]. rewrite F1.
      destruct (find_channel t (key y)); [discriminate | congruence]. }
    exists t'. split; [simpl; rewrite E1; exact E'|].
    split; [congruence|].
    intros k'. rewrite F', F1. simpl.
    destruct (find_channel t k'); reflexivity.
Qed.

Lemma loop_fail (l : list X) :
  forall t,
    (exists x, In x l /\ (good x = false \/ find_channel t (key x) = None)) ->
    exists e, foldM step l t = Raise e /\ E e.
Proof.
  induction l as [|x l IH]; intros t [y [Hy Hbad]]; [destruct Hy|].
  destruct (good x) eqn:Hg.
  - destruct (find_channel t (key x)) as [c0|] eqn:Ec.
    + destruct (step_ok t x c0 Hg Ec) as [t1 [E1 [C1 F1]]].
      simpl. rewrite E1. simpl. apply IH.
      destruct Hy as [<-|Hy].
      * destruct Hbad as [Hb|Hb]; congruence.
      * exists y. split; [exact Hy|].
        destruct Hbad as [Hb|Hb]; [left; exact Hb|].
        right. rewrite F1, Hb. reflexivity.
    + destruct (step_fail t x (or_intror Ec)) as [e [He HE]].
      exists e. simpl. rewrite He. auto.
  - destruct (step_fail t x (or_introl Hg)) as [e [He HE]].
    exists e. simpl. rewrite He. auto.
Qed.

(** With distinct channels, each element alone shapes its curve. *)
Lemma fold_left_single (l : list X) (x : X) (c0 : FCurve) :
  NoDup (map key l) -> In x l ->
  fold_left (fun c y => if channel_eqb (key y) (key x) then G y c else c) l c0
  = G x c0.
Proof.
  revert c0; induction l as [|y l IH]; intros c0 Hnd Hin; [destruct Hin|].
  simpl in Hnd. inversion Hnd as [|? ? Hny Hnd']; subst.
  simpl. destruct Hin as [->|Hin].
  - rewrite channel_eqb_refl.
    assert (Hrest : forall c, fold_left
      (fun c y => if channel_eqb (key y) (key x) then G y c else c) l c = c).
    { clear IH Hnd Hnd'. induction l as [|z l IHl]; intros c; [reflexivity|].
      simpl. destruct (channel_eqb (key z) (key x)) eqn:Ez.
      - apply channel_eqb_eq in Ez. exfalso. apply Hny. left. exact Ez.
      - apply IHl. intros H. apply Hny. right. exact H. }
    apply Hrest.
  - destruct (channel_eqb (key y) (key x)) eqn:Ey.
    + apply channel_eqb_eq in Ey. exfalso. apply Hny. rewrite Ey.
      apply in_map. exact Hin.
    + apply IH; assumption.
Qed.

Lemma fold_left_untouched (l : list X) (k : channel) (c0 : FCurve) :
  ~ In k (map key l) ->
  fold_left (fun c y => if channel_eqb (key y) k then G y c else c) l c0 = c0.
Proof.
  revert c0; induction l as [|y l IH]; intros c0 Hn; [reflexivity|].
  simpl. destruct (channel_eqb (key y) k) eqn:Ey.
  - apply channel_eqb_eq in Ey. exfalso. apply Hn. left. exact Ey.
  - apply IH. intros H. apply Hn. right. exact H.
Qed.

End Loop.

End HostProps.
(* ================================================================== *)
(** ** The glue stage *)

Module MergeProps.
Import PyFacts MMSParser Bpy HostProps Merge.

(** *** [bpy.data.actions] *)

Lemma dict_get_set_same {V} (d : dict V) (k : string) (v : V) :
  dict_get (dict_set d k v) k = Ok v.
Proof.
  induction d as [|[k' v'] t IH]; simpl.
  - rewrite String.eqb_refl. reflexivity.
  - destruct (k' =? k) eqn:E; simpl; rewrite E; [reflexivity | exact IH].
Qed.

Lemma dict_get_set_other {V} (d : dict V) (k k' : string) (v : V) :
  k <> k' -> dict_get (dict_set d k v) k' = dict_get d k'.
Proof.
  intros Hk. induction d as [|[k0 v0] t IH]; simpl.
  - apply String.eqb_neq in Hk. rewrite Hk. reflexivity.
  - destruct (k0 =? k) eqn:E; simpl.
    + apply String.eqb_eq in E. subst k0.
      apply String.eqb_neq in Hk. rewrite Hk. reflexivity.
    + destruct (k0 =? k'); [reflexivity | exact IH].
Qed.

(** *** The last keyframe *)

Lemma index_last_keyframe (c : FCurve) :
  index (keyframe_points c)
        (Z.of_nat (List.length (keyframe_points c)) - 1)
  = match last_keyframe c with
    | Some kp => Ok kp
    | None => Raise IndexError
    end.
Proof.
  unfold last_keyframe.
  destruct (keyframe_points c) as [|x l] eqn:Ep; [reflexivity|].
  assert (Hne : x :: l <> []) by discriminate.
  destruct (exists_last Hne) as [l' [y Hy]]. rewrite Hy.
  rewrite map_app. simpl map. rewrite last_last.
  unfold index. rewrite length_app. simpl List.length.
  replace (Z.of_nat (List.length l' + 1) - 1)%Z
    with (Z.of_nat (List.length l')) by lia.
  assert (H1 : (Z.of_nat (List.length l') <? 0)%Z = false)
    by (apply Z.ltb_ge; lia).
  assert (H2 : (0 <=? Z.of_nat (List.length l'))%Z = true)
    by (apply Z.leb_le; lia).
  assert (H3 : (Z.of_nat (List.length l') <? Z.of_nat (List.length l' + 1))%Z = true)
    by (apply Z.ltb_lt; lia).
  rewrite H1, H2, H3. simpl andb. cbv iota.
  rewrite Nat2Z.id, nth_error_app2 by lia.
  rewrite Nat.sub_diag. reflexivity.
Qed.

Lemma last_keyframe_some (c : FCurve) :
  has_keyframes c = true -> exists kp, last_keyframe c = Some kp.
Proof.
  unfold has_keyframes, last_keyframe.
  destruct (keyframe_points c) as [|x l] eqn:Ep; [discriminate|]. intros _.
  assert (Hne : x :: l <> []) by discriminate.
  destruct (exists_last Hne) as [l' [y Hy]]. rewrite Hy.
  exists y. rewrite map_app. simpl. apply last_last.
Qed.

Lemma last_keyframe_none (c : FCurve) :
  has_keyframes c = false -> last_keyframe c = None.
Proof.
  unfold has_keyframes, last_keyframe.
  destruct (keyframe_points c); [reflexivity | discriminate].
Qed.

(** *** One curve of a hold, one curve of a copy *)

Lemma hold_curve_ok (start end_ : Q) (t : Action) (src c0 : FCurve) :
  has_keyframes src = true ->
  find_channel t (channel_of src) = Some c0 ->
  exists t',
    hold_curve start end_ t src = Ok t' /\
    map channel_of t' = map channel_of t /\
    forall k',
      find_channel t' k'
      = option_map (fun c => if channel_eqb (channel_of src) k'
                             then held start end_ src c else c)
                   (find_channel t k').
Proof.
  intros Hk Hf. destruct (last_keyframe_some src Hk) as [kp Hkp].
  unfold hold_curve. rewrite index_last_keyframe, Hkp. cbn [Py.bind].
  destruct (insert_key_spec t (channel_of src) start (snd kp) c0 Hf)
    as [t1 [E1 [C1 F1]]].
  cbn [channel_of fst snd] in E1. rewrite E1. cbn [Py.bind].
  assert (Hf1 : find_channel t1 (channel_of src)
                = Some (with_points (kf_insert start (snd kp) (keyframe_points c0)) c0)).
  { rewrite F1, Hf. simpl. rewrite channel_eqb_refl. reflexivity. }
  destruct (insert_key_spec t1 (channel_of src) end_ (snd kp) _ Hf1)
    as [t2 [E2 [C2 F2]]].
  cbn [channel_of fst snd] in E2. rewrite E2.
  exists t2. split; [reflexivity|]. split; [congruence|].
  intros k'. rewrite F2, F1. unfold held. rewrite Hkp.
  destruct (find_channel t k') as [c|]; [|reflexivity]. cbn [option_map].
  destruct (channel_eqb (channel_of src) k'); reflexivity.
Qed.

Lemma hold_curve_fail (start end_ : Q) (t : Action) (src : FCurve) :
  has_keyframes src = false \/ find_channel t (channel_of src) = None ->
  exists e, hold_curve start end_ t src = Raise e /\
            (e = AttributeError \/ e = IndexError).
Proof.
  intros H. unfold hold_curve. rewrite index_last_keyframe.
  destruct (has_keyframes src) eqn:Hk.
  - destruct H as [H|H]; [discriminate|].
    destruct (last_keyframe_some src Hk) as [kp ->]. cbn [Py.bind].
    exists AttributeError. split; [|left; reflexivity].
    pose proof (insert_key_missing t (channel_of src) start (snd kp) H) as Hm.
    cbn [channel_of fst snd] in Hm. rewrite Hm. reflexivity.
  - rewrite (last_keyframe_none src Hk). exists IndexError.
    split; [reflexivity | right; reflexivity].
Qed.

Lemma combine_curve_ok (start : Q) (t : Action) (src c0 : FCurve) :
  true = true ->
  find_channel t (channel_of src) = Some c0 ->
  exists t',
    combine_curve start t src = Ok t' /\
    map channel_of t' = map channel_of t /\
    forall k',
      find_channel t' k'
      = option_map (fun c => if channel_eqb (channel_of src) k'
                             then copied start src c else c)
                   (find_channel t k').
Proof.
  intros _ Hf. unfold combine_curve.
  destruct (loop_ok (Q * Q) (fun _ => channel_of src) (fun _ => true)
              (fun kfp c => with_points
                 (kf_insert (fst kfp + start - 1)%Q (snd kfp) (keyframe_points c)) c)
              (fun t kfp => insert_key t (data_path src) (array_index src)
                              (fst kfp + start - 1)%Q (snd kfp)))
    with (l := keyframe_points src) (t := t) as [t' [E' [C' F']]].
  - intros t0 x c Hg Hc.
    apply (insert_key_spec t0 (channel_of src) _ _ c Hc).
  - intros x _. split; [reflexivity | congruence].
  - rewrite E'. cbn [Py.bind].
    pose proof (F' (channel_of src)) as Fs. rewrite Hf in Fs.
    unfold find_channel in Fs. cbn [channel_of fst snd] in Fs.
    rewrite Fs. simpl option_map. cbv iota.
    exists t'. split; [reflexivity|]. split; [exact C'|].
    intros k'. rewrite F'. unfold copied.
    destruct (find_channel t k') as [c|]; [|reflexivity]. cbn [option_map].
    destruct (channel_eqb (channel_of src) k') eqn:Ek.
    + reflexivity.
    + f_equal. clear. induction (keyframe_points src) as [|x l IH];
        [reflexivity | exact IH].
Qed.

Lemma combine_curve_fail (start : Q) (t : Action) (src : FCurve) :
  true = false \/ find_channel t (channel_of src) = None ->
  exists e, combine_curve start t src = Raise e /\ e = AttributeError.
Proof.
  intros [H|H]; [discriminate|]. exists AttributeError.
  split; [|reflexivity]. unfold combine_curve.
  unfold find_channel in H. cbn [channel_of fst snd] in H.
  destruct (keyframe_points src) as [|x l].
  - simpl. rewrite H. reflexivity.
  - simpl. unfold insert_key at 1. rewrite H. reflexivity.
Qed.


(** *** The hold *)

(** C6.  [perform_hold] inserts, into the target curve of every channel
    of the source action, two keyframes, one at [start] and one at
    [end], both with the value of the last keyframe of the source curve:
    the target curve is the former one after these two insertions, its
    value at [start] and at [end] is that last value, every other frame
    keeps its key, and no channel outside the source is touched.  The
    source curves have distinct channels, at least one keyframe each and
    a curve of the same channel in the target. *)
Theorem hold_freezes_value (actions : Actions) (target source : string)
    (start end_ : Q) (source_action target_action : Action) :
  dict_get actions source = Ok source_action ->
  dict_get actions target = Ok target_action ->
  NoDup (map channel_of source_action) ->
  (forall c, In c source_action ->
     has_keyframes c = true /\
     find_channel target_action (channel_of c) <> None) ->
  exists actions' target',
    perform_hold actions target source start end_ = Ok (actions', end_) /\
    dict_get actions' target = Ok target' /\
    (forall c, In c source_action ->
       exists c0 c' kp,
         find_channel target_action (channel_of c) = Some c0 /\
         find_channel target' (channel_of c) = Some c' /\
         last_keyframe c = Some kp /\
         keyframe_points c'
           = kf_insert end_ (snd kp)
                       (kf_insert start (snd kp) (keyframe_points c0)) /\
         kf_lookup start (keyframe_points c') = Some (snd kp) /\
         kf_lookup end_ (keyframe_points c') = Some (snd kp) /\
         (forall f, Qeq_bool start f = false -> Qeq_bool end_ f = false ->
            kf_lookup f (keyframe_points c') = kf_lookup f (keyframe_points c0)) /\
         List.length (keyframe_points c0) <= List.length (keyframe_points c')
           <= List.length (keyframe_points c0) + 2) /\
    (forall k, ~ In k (map channel_of source_action) ->
       find_channel target' k = find_channel target_action k).
Proof.
  intros Hs Ht Hnd Hpre.
  destruct (loop_ok FCurve channel_of has_keyframes (held start end_)
              (hold_curve start end_)
              (hold_curve_ok start end_) source_action target_action Hpre)
    as [t' [E' [C' F']]].
  exists (dict_set actions target t'), t'.
  split; [unfold perform_hold; rewrite Hs, Ht; cbn [Py.bind]; rewrite E';
          reflexivity|].
  split; [apply dict_get_set_same|]. split.
  - intros c Hc. destruct (Hpre c Hc) as [Hk Hf].
    destruct (find_channel target_action (channel_of c)) as [c0|] eqn:E0;
      [|congruence].
    destruct (last_keyframe_some c Hk) as [kp Hkp].
    exists c0, (held start end_ c c0), kp.
    split; [reflexivity|]. split.
    { rewrite F', E0. cbn [option_map].
      rewrite (fold_left_single FCurve channel_of (held start end_)
                 source_action c c0 Hnd Hc). reflexivity. }
    split; [exact Hkp|]. unfold held. rewrite Hkp. cbn [with_points keyframe_points].
    split; [reflexivity|]. split; [|split; [|split]].
    + destruct (Qeq_bool end_ start) eqn:Ees.
      * apply kf_lookup_insert_eq. exact Ees.
      * rewrite kf_lookup_insert_other by exact Ees.
        apply kf_lookup_insert_same.
    + apply kf_lookup_insert_same.
    + intros f Hsf Hef.
      rewrite kf_lookup_insert_other by exact Hef.
      apply kf_lookup_insert_other. exact Hsf.
    + pose proof (kf_insert_length start (snd kp) (keyframe_points c0)).
      pose proof (kf_insert_length end_ (snd kp)
                    (kf_insert start (snd kp) (keyframe_points c0))).
      lia.
  - intros k Hk. rewrite F'.
    destruct (find_channel target_action k) as [c0|]; [|reflexivity].
    cbn [option_map]. f_equal.
    apply (fold_left_untouched FCurve channel_of (held start end_)). exact Hk.
Qed.


(** *** The precondition of the merge *)

Lemma perform_hold_missing (actions : Actions) (target source : string)
    (start end_ : Q) (sa ta : Action) :
  dict_get actions source = Ok sa -> dict_get actions target = Ok ta ->
  (exists c, In c sa /\ find_channel ta (channel_of c) = None) ->
  exists e, perform_hold actions target source start end_ = Raise e /\
            (e = AttributeError \/ e = IndexError).
Proof.
  intros Hs Ht [c [Hc Hnone]].
  destruct (loop_fail FCurve channel_of has_keyframes (held start end_)
              (hold_curve start end_)
              (fun e => e = AttributeError \/ e = IndexError)
              (hold_curve_ok start end_) (hold_curve_fail start end_)
              sa ta) as [e [He HE]].
  { exists c. split; [exact Hc | right; exact Hnone]. }
  exists e. split; [|exact HE].
  unfold perform_hold. rewrite Hs, Ht. cbn [Py.bind]. rewrite He. reflexivity.
Qed.

Section CombineHost.

Variable frame_range : Action -> Q * Q.

Lemma combine_animation_ok (actions : Actions) (target source : string)
    (start : Q) (sa ta : Action) :
  dict_get actions source = Ok sa -> dict_get actions target = Ok ta ->
  (forall c, In c sa -> find_channel ta (channel_of c) <> None) ->
  exists ta',
    combine_animation frame_range actions target source start
      = Ok (dict_set actions target ta',
            (inject_Z (int (snd (frame_range sa))) + start)%Q) /\
    map channel_of ta' = map channel_of ta /\
    forall k',
      find_channel ta' k'
      = option_map
          (fun c0 => fold_left
             (fun c x => if channel_eqb (channel_of x) k'
                         then copied start x c else c) sa c0)
          (find_channel ta k').
Proof.
  intros Hs Ht Hpre.
  destruct (loop_ok FCurve channel_of (fun _ => true) (copied start)
              (combine_curve start) (combine_curve_ok start) sa ta)
    as [t' [E' [C' F']]].
  { intros c Hc. split; [reflexivity | apply Hpre; exact Hc]. }
  exists t'. split; [|split; assumption].
  unfold combine_animation. rewrite Hs. cbn [Py.bind].
  destruct (frame_range sa) as [a_start a_end]. rewrite Ht. cbn [Py.bind].
  rewrite E'. reflexivity.
Qed.

Lemma combine_animation_missing (actions : Actions) (target source : string)
    (start : Q) (sa ta : Action) :
  dict_get actions source = Ok sa -> dict_get actions target = Ok ta ->
  (exists c, In c sa /\ find_channel ta (channel_of c) = None) ->
  combine_animation frame_range actions target source start
    = Raise AttributeError.
Proof.
  intros Hs Ht [c [Hc Hnone]].
  destruct (loop_fail FCurve channel_of (fun _ => true) (copied start)
              (combine_curve start) (fun e => e = AttributeError)
              (combine_curve_ok start) (combine_curve_fail start) sa ta)
    as [e [He HE]].
  { exists c. split; [exact Hc | right; exact Hnone]. }
  subst e. unfold combine_animation. rewrite Hs. cbn [Py.bind].
  destruct (frame_range sa) as [a_start a_end]. rewrite Ht. cbn [Py.bind].
  rewrite He. reflexivity.
Qed.

End CombineHost.

(** [create_new_fcurves] appends one empty curve per source curve. *)
Lemma new_fold (l : list FCurve) :
  forall t,
    NoDup (map channel_of t ++ map channel_of l) ->
    foldM (fun t c => new t (data_path c) (array_index c)) l t
    = Ok (t ++ map (fun c => mkFCurve (data_path c) (array_index c) []) l)%list.
Proof.
  induction l as [|c l IH]; intros t Hnd.
  - simpl. rewrite app_nil_r. reflexivity.
  - simpl. unfold new at 1.
    assert (Hf : find t (data_path c) (array_index c) = None).
    { apply (find_channel_none t (channel_of c)).
      simpl in Hnd. apply NoDup_remove_2 in Hnd.
      intros H. apply Hnd. apply in_or_app. left. exact H. }
    rewrite Hf. cbn [Py.bind]. rewrite IH.
    + rewrite <- app_assoc. reflexivity.
    + rewrite map_app. simpl. rewrite <- app_assoc. simpl.
      simpl in Hnd. exact Hnd.
Qed.


(** C10.  The target action of the merge is the empty action of the
    final armature, filled by [create_new_fcurves] with one empty curve
    per curve of the action of the first inflected gloss.  From there
    on, the copy of a source action succeeds when every channel of the
    source is a channel of that first action, and a source with a
    channel outside it makes the unchecked lookup answer [None]:
    [combine_animation] raises [AttributeError] and [perform_hold]
    raises as well. *)
Theorem merge_requires_target_channels (frame_range : Action -> Q * Q)
    (actions : Actions) (m : MMS) (self_action_name : string)
    (first : key * MMSLine) (first_action : Action) :
  index (mms m) 0 = Ok first ->
  dict_get actions ("inflected_" ++ output_name (snd first)) = Ok first_action ->
  first_action <> [] ->
  NoDup (map channel_of first_action) ->
  dict_get actions self_action_name = Ok [] ->
  exists actions' target,
    create_new_fcurves actions m self_action_name None = Ok actions' /\
    dict_get actions' self_action_name = Ok target /\
    map channel_of target = map channel_of first_action /\
    forall source sa start,
      source <> self_action_name ->
      dict_get actions source = Ok sa ->
      ((forall c, In c sa -> In (channel_of c) (map channel_of first_action)) ->
       exists r, combine_animation frame_range actions' self_action_name
                   source start = Ok r) /\
      ((exists c, In c sa /\ ~ In (channel_of c) (map channel_of first_action)) ->
       combine_animation frame_range actions' self_action_name source start
         = Raise AttributeError /\
       forall end_, exists e,
         perform_hold actions' self_action_name source start end_ = Raise e /\
         (e = AttributeError \/ e = IndexError)).
Proof.
  intros Hfirst Hfa Hne Hnd Hself.
  set (target := map (fun c => mkFCurve (data_path c) (array_index c) [])
                     first_action).
  assert (Hch : map channel_of target = map channel_of first_action).
  { unfold target. rewrite map_map. reflexivity. }
  exists (dict_set actions self_action_name target), target.
  split; [|split; [apply dict_get_set_same | split; [exact Hch|]]].
  - unfold create_new_fcurves. rewrite Hfirst. cbn [Py.bind]. rewrite Hfa.
    cbn [Py.bind].
    destruct first_action as [|c0 l0]; [congruence|].
    cbn [List.length Nat.eqb]. rewrite Hself. cbn [Py.bind].
    rewrite (new_fold (c0 :: l0) []); [reflexivity | exact Hnd].
  - intros source sa start Hsrc Hsa.
    assert (Hsa' : dict_get (dict_set actions self_action_name target) source
                   = Ok sa).
    { rewrite dict_get_set_other by congruence. exact Hsa. }
    pose proof (dict_get_set_same actions self_action_name target) as Ht'.
    split.
    + intros Hin.
      destruct (combine_animation_ok frame_range _ self_action_name source
                  start sa target Hsa' Ht') as [ta' [E _]].
      { intros c Hc Hnone. apply find_channel_none in Hnone.
        apply Hnone. rewrite Hch. apply Hin. exact Hc. }
      eexists. exact E.
    + intros [c [Hc Hout]].
      assert (Hmiss : exists c, In c sa /\
                        find_channel target (channel_of c) = None).
      { exists c. split; [exact Hc|]. apply find_channel_none.
        rewrite Hch. exact Hout. }
      split.
      * apply (combine_animation_missing frame_range _ self_action_name
                 source start sa target Hsa' Ht' Hmiss).
      * intros end_.
        apply (perform_hold_missing _ self_action_name source start end_
                 sa target Hsa' Ht' Hmiss).
Qed.

(** *** The check after each step *)

Lemma compatible_iff (end_ end_frame : Q) :
  compatible end_ end_frame = true
  <-> (end_ - 1 <= end_frame)%Q /\ (end_frame <= end_ + 1)%Q.
Proof.
  unfold compatible. rewrite andb_true_iff, !Qle_bool_iff. reflexivity.
Qed.

(** C7.  Take a step of [merge_animation] that merges a gloss: the
    glosses before it are merged, its file exists, its window is
    [start..end] and its hold or copy answers [end_frame].  When
    [end - 1 <= end_frame <= end + 1] the step ends with the state of
    the merge and [last_gloss_end = end]; when not, the whole
    [merge_animation] raises [AssertionError]; so a run that returns has
    met the tolerance at this step. *)
Theorem merge_end_frame_tolerance (frame_range : Action -> Q * Q)
    (path_exists : Path -> bool) (use_rel_time : bool) (m : MMS)
    (action_name : string) (done rest : table) (e : key * MMSLine)
    (actions0 actions actions1 : Actions) (last start end_ end_frame : Q) :
  mms m = (done ++ e :: rest)%list ->
  foldM (merge_step frame_range path_exists use_rel_time m action_name)
        done (actions0, 1%Q) = Ok (actions, last) ->
  path_exists (path (snd e)) = true ->
  gloss_times use_rel_time last (snd e) = Ok (start, end_) ->
  merge_gloss frame_range m action_name actions e start end_
    = Ok (actions1, end_frame) ->
  ((end_ - 1 <= end_frame)%Q /\ (end_frame <= end_ + 1)%Q ->
   foldM (merge_step frame_range path_exists use_rel_time m action_name)
         (done ++ [e]) (actions0, 1%Q) = Ok (actions1, end_)) /\
  (~ ((end_ - 1 <= end_frame)%Q /\ (end_frame <= end_ + 1)%Q) ->
   merge_animation frame_range path_exists use_rel_time m action_name actions0
     = Raise AssertionError) /\
  (forall final,
     merge_animation frame_range path_exists use_rel_time m action_name actions0
       = Ok final ->
     (end_ - 1 <= end_frame)%Q /\ (end_frame <= end_ + 1)%Q).
Proof.
  intros Hm Hdone Hpe Htimes Hgloss.
  assert (Hstep : merge_step frame_range path_exists use_rel_time m action_name
                    (actions, last) e
                  = if compatible end_ end_frame then Ok (actions1, end_)
                    else Raise AssertionError).
  { unfold merge_step. rewrite Hpe. cbn [negb]. rewrite Htimes.
    cbn [Py.bind]. rewrite Hgloss. reflexivity. }
  assert (Hbad : compatible end_ end_frame = false ->
                 merge_animation frame_range path_exists use_rel_time m
                   action_name actions0 = Raise AssertionError).
  { intros Hc. unfold merge_animation. rewrite Hm.
    apply (foldM_raise _ done rest e (actions0, 1%Q) (actions, last));
      [exact Hdone|]. rewrite Hstep, Hc. reflexivity. }
  split; [|split].
  - intros Hc. apply compatible_iff in Hc.
    rewrite foldM_snoc, Hdone. cbn [Py.bind]. rewrite Hstep, Hc. reflexivity.
  - intros Hn. apply Hbad.
    destruct (compatible end_ end_frame) eqn:Hc; [|reflexivity].
    exfalso. apply Hn. apply compatible_iff. exact Hc.
  - intros final Hfinal. apply compatible_iff.
    destruct (compatible end_ end_frame) eqn:Hc; [reflexivity|].
    rewrite (Hbad eq_refl) in Hfinal. discriminate.
Qed.

(** *** The source of a hold *)

(** When the keys still count the positions, as they do when the rows
    of the file are in time order, a HOLD freezes the entry before it. *)
Lemma hold_source_in_order (m : MMS) (p : nat) (k : key) (prev : key * MMSLine) :
  fst k = S p ->
  nth_error (mms m) p = Some prev ->
  hold_source m k = Ok ("inflected_" ++ output_name (snd prev)).
Proof.
  intros Hk Hp. unfold hold_source, index. rewrite Hk.
  assert (Hlt : p < List.length (mms m))
    by (apply nth_error_Some; congruence).
  replace (Z.of_nat (S p) - 1)%Z with (Z.of_nat p) by lia.
  assert (H1 : (Z.of_nat p <? 0)%Z = false) by (apply Z.ltb_ge; lia).
  assert (H2 : (0 <=? Z.of_nat p)%Z = true) by (apply Z.leb_le; lia).
  assert (H3 : (Z.of_nat p <? Z.of_nat (List.length (mms m)))%Z = true)
    by (apply Z.ltb_lt; lia).
  rewrite H1, H2, H3. cbn [andb]. rewrite Nat2Z.id, Hp. reflexivity.
Qed.


(** C8 on rows that are not in time order.  The file lists [A], then the
    HOLD, then [B]; in time order they are [A], [B], HOLD.  The HOLD, at
    position 2, follows [B] (action [inflected_2_B]) and its path is the
    path of [B], yet the action it freezes is the one of [A]. *)
Theorem hold_source_out_of_order :
  parse (Samples.header :: Samples.shuffled_rows) Samples.root
    = Ok Samples.shuffled /\
  find_mocap_data_files (fun _ => true) Samples.shuffled
    = Ok Samples.shuffled_resolved /\
  map (fun e => output_name (snd e)) (mms Samples.shuffled_resolved)
    = ["0_A"; "2_B"; "1_<HOLD>"] /\
  datatype (snd (Samples.pair_at Samples.shuffled_resolved 2)) = "HOLD" /\
  path (snd (Samples.pair_at Samples.shuffled_resolved 2))
    = path (snd (Samples.pair_at Samples.shuffled_resolved 1)) /\
  hold_source Samples.shuffled_resolved
              (fst (Samples.pair_at Samples.shuffled_resolved 2))
    = Ok "inflected_0_A" /\
  "inflected_0_A"
    <> "inflected_" ++ output_name (snd (Samples.pair_at Samples.shuffled_resolved 1)).
Proof.
  repeat split; try (vm_compute; reflexivity).
  vm_compute. discriminate.
Qed.

(** *** The statements on the sample scene *)

Lemma hold_freezes_value_witness :
  NoDup (map channel_of Samples.hello_action) /\
  exists actions' target',
    perform_hold Samples.scene_ready "final_action" "inflected_0_HELLO"
                 (121 # 1)%Q (151 # 1)%Q = Ok (actions', (151 # 1)%Q) /\
    dict_get actions' "final_action" = Ok target'.
Proof.
  assert (Hnd : NoDup (map channel_of Samples.hello_action)).
  { repeat constructor; simpl; intros H;
      repeat (destruct H as [H|H]; [discriminate|]); exact H. }
  split; [exact Hnd|].
  destruct (hold_freezes_value Samples.scene_ready "final_action"
              "inflected_0_HELLO" (121 # 1)%Q (151 # 1)%Q
              Samples.hello_action
              [mkFCurve Samples.root_rotation 0 [];
               mkFCurve Samples.root_location 0 []])
    as [actions' [target' [E [G _]]]].
  - vm_compute; reflexivity.
  - vm_compute; reflexivity.
  - exact Hnd.
  - intros c [<-|[<-|[]]]; split; try reflexivity; vm_compute; discriminate.
  - exists actions', target'. split; [exact E | exact G].
Defined.

Lemma merge_requires_target_channels_witness :
  Samples.hello_action <> [] /\
  exists actions' target,
    create_new_fcurves Samples.scene Samples.sentence_resolved
                       "final_action" None = Ok actions' /\
    dict_get actions' "final_action" = Ok target /\
    map channel_of target = map channel_of Samples.hello_action.
Proof.
  split; [discriminate|].
  destruct (merge_requires_target_channels Samples.first_curve_range
              Samples.scene Samples.sentence_resolved "final_action"
              (Samples.pair_at Samples.sentence_resolved 0)
              Samples.hello_action)
    as [actions' [target [E [G [C _]]]]].
  - vm_compute; reflexivity.
  - vm_compute; reflexivity.
  - discriminate.
  - repeat constructor; simpl; intros H;
      repeat (destruct H as [H|H]; [discriminate|]); exact H.
  - vm_compute; reflexivity.
  - exists actions', target. auto.
Defined.

Lemma merge_end_frame_tolerance_witness :
  merge_gloss Samples.first_curve_range Samples.sentence_resolved
              "final_action" Samples.scene_ready
              (Samples.pair_at Samples.sentence_resolved 0)
              (1 # 1)%Q (61 # 1)%Q
    = Ok Samples.scene_hello /\
  ((61 # 1) - 1 <= snd Samples.scene_hello)%Q /\
  (snd Samples.scene_hello <= (61 # 1) + 1)%Q /\
  foldM (merge_step Samples.first_curve_range (fun _ => true) false
                    Samples.sentence_resolved "final_action")
        ([] ++ [Samples.pair_at Samples.sentence_resolved 0])
        (Samples.scene_ready, 1%Q)
    = Ok (fst Samples.scene_hello, (61 # 1)%Q).
Proof.
  assert (H1 : ((61 # 1) - 1 <= snd Samples.scene_hello)%Q)
    by (vm_compute; discriminate).
  assert (H2 : (snd Samples.scene_hello <= (61 # 1) + 1)%Q)
    by (vm_compute; discriminate).
  split; [vm_compute; reflexivity|]. split; [exact H1|]. split; [exact H2|].
  apply (merge_end_frame_tolerance Samples.first_curve_range (fun _ => true)
           false Samples.sentence_resolved "final_action" []
           (tl (mms Samples.sentence_resolved))
           (Samples.pair_at Samples.sentence_resolved 0)
           Samples.scene_ready Samples.scene_ready (fst Samples.scene_hello)
           1%Q (1 # 1)%Q (61 # 1)%Q (snd Samples.scene_hello)).
  - vm_compute; reflexivity.
  - reflexivity.
  - reflexivity.
  - vm_compute; reflexivity.
  - vm_compute; reflexivity.
  - split; [exact H1 | exact H2].
Defined.

End MergeProps.
(* ================================================================== *)
(** ** The inflection targets *)

Module TargetsProps.
Import PyFacts MMSParser Targets.

(** Three empty cells are an absent component. *)
Lemma handle_none_absent (l : MMSLine) (key : string) :
  getitem l (key ++ "x") = Ok CNone ->
  getitem l (key ++ "y") = Ok CNone ->
  getitem l (key ++ "z") = Ok CNone ->
  handle_none l key = Ok None.
Proof.
  intros Hx Hy Hz. unfold handle_none. rewrite Hx, Hy, Hz. reflexivity.
Qed.

Section HostMath.

Variables Matrix Quaternion Vector Euler : Type.
Variable matrix_identity : Matrix.
Variable quaternion_identity : Quaternion.
Variable mat_mul : Matrix -> Matrix -> Matrix.
Variable mat_vec : Matrix -> Vector -> Vector.
Variable mat_inverted : Matrix -> Matrix.
Variable mat_to_quaternion : Matrix -> Quaternion.
Variable quat_mul : Quaternion -> Quaternion -> Quaternion.
Variable quat_inverted : Quaternion -> Quaternion.
Variable quat_to_euler_zxy : Quaternion -> Euler.
Variable euler_zxy : Q * Q * Q -> Euler.
Variable euler_to_matrix4 : Euler -> Matrix.
Variable euler_to_quaternion : Euler -> Quaternion.
Variable translation_matrix : Q * Q * Q -> Matrix.
Variable scale_matrix : Q * Q * Q -> Matrix.
Variable translation_of : Vector -> Matrix.
Variable vec_add : Vector -> Vector -> Vector.
Variable vec_sub : Vector -> Vector -> Vector.
Variable vec_neg : Vector -> Vector.

Local Abbreviation fresh c dom itype :=
  (new_target Vector matrix_identity quaternion_identity c dom itype).
Local Abbreviation init t l :=
  (init_from_mms mat_mul euler_zxy euler_to_matrix4 euler_to_quaternion
                 translation_matrix scale_matrix t l).
Local Abbreviation run t r p f :=
  (inflect mat_mul mat_vec mat_inverted mat_to_quaternion quat_mul
           quat_inverted quat_to_euler_zxy euler_to_quaternion translation_of
           vec_add vec_sub vec_neg t r p f).

(** A local rotation whose delta is [None] only keys the rotation the
    bone has already. *)
Lemma local_rotation_absent (l : MMSLine) (dom itype : string) :
  handle_none l (dom ++ "handrot") = Ok None ->
  exists t,
    init (fresh LocalRotationTarget dom itype) l = Ok t /\
    delta_o t = None /\
    forall r p frame,
      run t r p frame
      = Ok (t, mkRig (rotation_euler r) (ctrl_location r)
                     (ctrl_rotation_quaternion r)
                     (keys r ++ [KeyRotationEuler Quaternion Vector frame
                                   (rotation_euler r)])%list).
Proof.
  intros H. unfold init_from_mms, hand_orientation, getter.
  cbn [cls new_target dominance]. rewrite H. cbn [Py.bind option_map].
  eexists. split; [reflexivity|]. split; [reflexivity|].
  intros r p frame. reflexivity.
Qed.

(** A trajectory target cannot even be initialised: [h_rotation @
    h_scale] multiplies [None]. *)
Lemma trajectory_absent (l : MMSLine) (dom itype : string) :
  handle_none l (dom ++ "handreloc") = Ok None ->
  handle_none l (dom ++ "handreloca") = Ok None ->
  handle_none l (dom ++ "handrelocs") = Ok None ->
  init (fresh TrajectoryTarget dom itype) l = Raise TypeError.
Proof.
  intros Ht Hr Hs.
  unfold init_from_mms, translation, traj_rotation, scale, getter.
  cbn [cls new_target dominance]. rewrite Ht, Hr, Hs. reflexivity.
Qed.

(** A torso or shoulder target is initialised with [None] deltas and
    its first [inflect] multiplies one of them. *)
Lemma relative_loc_rot_absent (l : MMSLine) (dom itype : string) :
  (itype = "torso" /\ handle_none l "torsoreloc" = Ok None /\
   handle_none l "torsoreloca" = Ok None) \/
  (itype = "shoulder" /\ handle_none l (dom ++ "shoulderreloc") = Ok None) ->
  exists t,
    init (fresh RelativeLocRotTarget dom itype) l = Ok t /\
    forall r p frame, run t r p frame = Raise TypeError.
Proof.
  intros [[-> [Hs Hr]]|[-> Hs]];
    unfold init_from_mms, torso_shift, torso_rot, shoulder_shift, getter;
    cbn [cls new_target dominance inflection_type String.eqb Ascii.eqb Bool.eqb];
    [rewrite Hs, Hr | rewrite Hs]; cbn [Py.bind option_map];
    (eexists; split; [reflexivity|]); intros r p frame; reflexivity.
Qed.

(** So does the first [inflect] of a head target. *)
Lemma head_rot_absent (l : MMSLine) (dom itype : string) :
  handle_none l "headrot" = Ok None ->
  exists t,
    init (fresh HeadRotTarget dom itype) l = Ok t /\
    forall r p frame, run t r p frame = Raise TypeError.
Proof.
  intros H. unfold init_from_mms, head_rot, getter.
  cbn [cls new_target dominance]. rewrite H. cbn [Py.bind option_map].
  eexists. split; [reflexivity|]. intros r p frame. reflexivity.
Qed.

(** C1 on the first row of the sample sentence, whose inflection cells
    are all empty: the local rotation is left as it is, and the three
    other targets raise [TypeError], the trajectory target in
    [init_from_mms], the torso and the head targets at their first
    [inflect]. *)
Theorem absent_component_inflection :
  let l := Samples.entry Samples.sentence 0 in
  handle_none l "domhandrot" = Ok None /\
  handle_none l "domhandreloc" = Ok None /\
  handle_none l "torsoreloc" = Ok None /\
  handle_none l "headrot" = Ok None /\
  (exists t,
     init (fresh LocalRotationTarget "dom" "hand") l = Ok t /\
     delta_o t = None /\
     forall r p frame,
       exists r', run t r p frame = Ok (t, r') /\
                  rotation_euler r' = rotation_euler r) /\
  init (fresh TrajectoryTarget "dom" "hand") l = Raise TypeError /\
  (exists t,
     init (fresh RelativeLocRotTarget "dom" "torso") l = Ok t /\
     forall r p frame, run t r p frame = Raise TypeError) /\
  (exists t,
     init (fresh HeadRotTarget "dom" "head") l = Ok t /\
     forall r p frame, run t r p frame = Raise TypeError).
Proof.
  intros l.
  assert (H1 : handle_none l "domhandrot" = Ok None) by (vm_compute; reflexivity).
  assert (H2 : handle_none l "domhandreloc" = Ok None) by (vm_compute; reflexivity).
  assert (H3 : handle_none l "torsoreloc" = Ok None) by (vm_compute; reflexivity).
  assert (H4 : handle_none l "headrot" = Ok None) by (vm_compute; reflexivity).
  split; [exact H1|]. split; [exact H2|]. split; [exact H3|]. split; [exact H4|].
  split; [|split; [|split]].
  - destruct (local_rotation_absent l "dom" "hand" H1) as [t [E [D R]]].
    exists t. split; [exact E|]. split; [exact D|].
    intros r p frame. eexists. split; [apply R | reflexivity].
  - apply trajectory_absent; vm_compute; reflexivity.
  - apply relative_loc_rot_absent. left.
    split; [reflexivity|]. split; vm_compute; reflexivity.
  - apply head_rot_absent. exact H4.
Qed.

End HostMath.
End TargetsProps.
(* ================================================================== *)
(** ** The resampler *)

Module ResamplerProps.
Import PyFacts MMSParser Bpy HostProps Resampler.

(** *** Loops over the channels of an armature *)

Lemma foldM_map {A B S} (f : S -> B -> result S) (g : A -> B) (l : list A)
    (st : S) :
  foldM f (map g l) st = foldM (fun s x => f s (g x)) l st.
Proof.
  revert st; induction l as [|x l IH]; intros st; simpl; [reflexivity|].
  destruct (f st (g x)); simpl; auto.
Qed.

Lemma foldM_flat_map {A B S} (f : S -> B -> result S) (h : A -> list B)
    (l : list A) (st : S) :
  foldM (fun s a => foldM f (h a) s) l st = foldM f (flat_map h l) st.
Proof.
  revert st; induction l as [|a l IH]; intros st; simpl; [reflexivity|].
  rewrite foldM_app. destruct (foldM f (h a) st); simpl; auto.
Qed.

Lemma foldM_ext {A S} (f g : S -> A -> result S) (l : list A) (st : S) :
  (forall s x, f s x = g s x) -> foldM f l st = foldM g l st.
Proof.
  intros H. revert st; induction l as [|x l IH]; intros st; simpl;
    [reflexivity|]. rewrite H. destruct (g st x); simpl; auto.
Qed.

Section Host.

Variable evaluate : FCurve -> Q -> Q.
Variable frame_range : Action -> Q * Q.

(** The value sampled on channel [k] of the source at [source_frame]. *)
Local Abbreviation sampled source_action k source_frame :=
  (match find_channel source_action k with
   | Some fcurve => evaluate fcurve source_frame
   | None => 0%Q
   end).

Local Abbreviation keyed_at source_action source_frame target_frame :=
  (fun (k : channel) (c : FCurve) =>
     with_points (kf_insert target_frame (sampled source_action k source_frame)
                            (keyframe_points c)) c).

Local Abbreviation channel_step source_action source_frame target_frame :=
  (fun (t : Action) (k : channel) =>
     sample_channel evaluate source_action source_frame target_frame
                    (fst k) t (snd k)).

Lemma set_rotation_and_location_channels (source_action : Action)
    (bone : string) (source_frame target_frame : Q) (t : Action) :
  set_rotation_and_location evaluate source_action bone source_frame t
                            target_frame
  = foldM (channel_step source_action source_frame target_frame)
          (bone_channels bone) t.
Proof.
  unfold set_rotation_and_location, bone_channels.
  rewrite foldM_app, !foldM_map. reflexivity.
Qed.

Lemma write_sample_channels (action : Action) (bones : list string)
    (t : Action) (n : nat) (sample : Q) :
  write_sample evaluate action bones t (n, sample)
  = foldM (channel_step action sample (inject_Z (Z.of_nat n + 1)))
          (armature_channels bones) t.
Proof.
  unfold write_sample, armature_channels.
  rewrite <- foldM_flat_map. apply foldM_ext.
  intros s b. apply set_rotation_and_location_channels.
Qed.





(** *** The destination channel set *)

Lemma create_if_missing_spec (t : Action) (p : string) (i : nat) :
  no_keyframes t ->
  exists t',
    create_if_missing t p i = Ok t' /\ no_keyframes t' /\
    In (p, i) (map channel_of t') /\
    incl (map channel_of t) (map channel_of t').
Proof.
  intros Hn. unfold create_if_missing, new.
  destruct (find t p i) as [c|] eqn:E.
  - exists t. split; [reflexivity|]. split; [exact Hn|].
    split; [|apply incl_refl].
    destruct (find_channel_some t (p, i) c E) as [Hc Hin].
    rewrite <- Hc. apply in_map. exact Hin.
  - exists (t ++ [mkFCurve p i []])%list. split; [reflexivity|].
    split; [apply Forall_app; split; [exact Hn | repeat constructor]|].
    rewrite map_app. split; [apply in_or_app; right; left; reflexivity|].
    apply incl_appl, incl_refl.
Qed.

Lemma create_f_curves_bone_spec (t : Action) (bone : string) :
  no_keyframes t ->
  exists t',
    create_f_curves_bone t bone = Ok t' /\ no_keyframes t' /\
    (forall k, In k (bone_channels bone) -> In k (map channel_of t')) /\
    incl (map channel_of t) (map channel_of t').
Proof.
  intros H0. unfold create_f_curves_bone. cbn [foldM].
  destruct (create_if_missing_spec t (rot_path_name bone) 0 H0)
    as [t1 [E1 [H1 [I1 S1]]]].
  destruct (create_if_missing_spec t1 (loc_path_name bone) 0 H1)
    as [t2 [E2 [H2 [I2 S2]]]].
  destruct (create_if_missing_spec t2 (rot_path_name bone) 1 H2)
    as [t3 [E3 [H3 [I3 S3]]]].
  destruct (create_if_missing_spec t3 (loc_path_name bone) 1 H3)
    as [t4 [E4 [H4 [I4 S4]]]].
  destruct (create_if_missing_spec t4 (rot_path_name bone) 2 H4)
    as [t5 [E5 [H5 [I5 S5]]]].
  destruct (create_if_missing_spec t5 (loc_path_name bone) 2 H5)
    as [t6 [E6 [H6 [I6 S6]]]].
  rewrite E1. cbn [Py.bind]. rewrite E2. cbn [Py.bind].
  rewrite E3. cbn [Py.bind]. rewrite E4. cbn [Py.bind].
  rewrite E5. cbn [Py.bind]. rewrite E6. cbn [Py.bind].
  exists t6. split; [reflexivity|]. split; [exact H6|]. split.
  - intros k Hk. unfold bone_channels in Hk. simpl in Hk.
    unfold incl in *.
    destruct Hk as [<-|[<-|[<-|[<-|[<-|[<-|[]]]]]]]; eauto 10.
  - unfold incl in *. intros k Hk. eauto 10.
Qed.

Lemma create_f_curves_spec (bones : list string) :
  forall t,
    no_keyframes t ->
    exists t',
      create_f_curves bones t = Ok t' /\ no_keyframes t' /\
      (forall k, In k (armature_channels bones) -> In k (map channel_of t')) /\
      incl (map channel_of t) (map channel_of t').
Proof.
  induction bones as [|b bones IH]; intros t H0.
  - exists t. split; [reflexivity|]. split; [exact H0|].
    split; [intros k []|apply incl_refl].
  - destruct (create_f_curves_bone_spec t b H0) as [t1 [E1 [H1 [I1 S1]]]].
    destruct (IH t1 H1) as [t' [E' [H' [I' S']]]].
    exists t'. split; [unfold create_f_curves in *; simpl; rewrite E1; exact E'|].
    split; [exact H'|]. split.
    + intros k Hk. unfold armature_channels in Hk. cbn [flat_map] in Hk.
      apply in_app_or in Hk. destruct Hk as [Hk|Hk]; [|apply I'; exact Hk].
      apply S'. apply I1. exact Hk.
    + intros k Hk. apply S'. apply S1. exact Hk.
Qed.

(** *** The loop over the samples *)


(** The keyframes of a sampled curve after [n] samples. *)
Local Abbreviation sampled_points action k frame_start ratio n :=
  (map (fun j => (inject_Z (Z.of_nat j + 1),
                  sampled action k
                    (sample_position frame_start ratio (Z.of_nat j))))
       (seq 0 n)).



(** *** The resampled animation *)


End Host.


End ResamplerProps.
(* ================================================================== *)
(** ** More on the timing table *)

Module TableProps.
Import PyFacts MMSParser ParserProps MergeProps Vocabulary.

(** *** Columns *)

Lemma last_index_spec (k : string) (l : list string) :
  match last_index k l with
  | Some i => nth_error l i = Some k /\
              forall j, i < j -> nth_error l j <> Some k
  | None => ~ In k l
  end.
Proof.
  induction l as [|x t IH]; simpl.
  - intros [].
  - destruct (last_index k t) as [j|].
    + destruct IH as [Hj Hlast]. split; [exact Hj|].
      intros j' Hlt. destruct j' as [|j']; [lia|]. simpl.
      apply Hlast. lia.
    + destruct (x =? k) eqn:E.
      * apply String.eqb_eq in E. subst x. split; [reflexivity|].
        intros j Hlt. destruct j as [|j]; [lia|]. simpl.
        intros H. apply IH. eapply nth_error_In. exact H.
      * apply String.eqb_neq in E. intros [H|H]; [congruence | exact (IH H)].
Qed.

Lemma build_index_from (k : string) (rest : list string) :
  forall (n : nat) (d : dict nat),
    dict_get (fold_left (fun d ic => dict_set d (snd ic) (fst ic))
                        (enumerate_from n rest) d) k
    = match last_index k rest with
      | Some j => Ok (n + j)
      | None => dict_get d k
      end.
Proof.
  induction rest as [|x t IH]; intros n d; simpl; [reflexivity|].
  rewrite IH. destruct (last_index k t) as [j|].
  - f_equal. lia.
  - destruct (x =? k) eqn:E.
    + apply String.eqb_eq in E. subst x. rewrite dict_get_set_same.
      f_equal. lia.
    + apply String.eqb_neq in E. apply dict_get_set_other. exact E.
Qed.

(** [index_for_column], built by [MMSParser.parse], answers for a column
    name its last position in the header, and raises [KeyError] exactly
    for the names that are not in the header. *)
Theorem column_lookup (header : list string) (k : string) :
  (forall i,
     dict_get (build_index header) k = Ok i <->
     nth_error header i = Some k /\
     forall j, i < j -> nth_error header j <> Some k) /\
  (dict_get (build_index header) k = Raise KeyError <-> ~ In k header).
Proof.
  unfold build_index, enumerate. rewrite build_index_from. simpl.
  pose proof (last_index_spec k header) as Hs.
  destruct (last_index k header) as [j|]; split.
  - intros i. destruct Hs as [Hj Hlast]. split.
    + intros H. inversion H; subst. split; assumption.
    + intros [Hi Hl]. f_equal.
      destruct (Nat.lt_trichotomy i j) as [H|[H|H]]; [|congruence|].
      * exfalso. exact (Hl j H Hj).
      * exfalso. exact (Hlast i H Hi).
  - destruct Hs as [Hj _]. split; [discriminate|].
    intros Hn. exfalso. apply Hn. eapply nth_error_In. exact Hj.
  - intros i. split; [discriminate|].
    intros [Hi _]. exfalso. apply Hs. eapply nth_error_In. exact Hi.
  - split; [intros _; exact Hs | reflexivity].
Qed.

(** *** Names and categories *)

(** [find_datatype]: a name without colon is a sign; [category:name]
    is split in two, and what follows a second colon is dropped. *)
Theorem find_datatype_cases (p n rest : string) :
  contains ":" p = false -> contains ":" n = false ->
  find_datatype n = (n, "signs") /\
  find_datatype (p ++ ":" ++ n) = (n, p) /\
  find_datatype (p ++ ":" ++ n ++ ":" ++ rest) = (n, p).
Proof.
  intros Hp Hn. split; [|split].
  - unfold find_datatype. rewrite Hn. reflexivity.
  - unfold find_datatype. simpl (":" ++ n). rewrite contains_app_sep.
    simpl negb. cbv iota.
    rewrite (split_app_sep _ _ _ Hp), (split_no_sep _ _ Hn). reflexivity.
  - unfold find_datatype. simpl (":" ++ _). rewrite contains_app_sep.
    simpl negb. cbv iota.
    rewrite (split_app_sep _ _ _ Hp).
    simpl (":" ++ rest). rewrite (split_app_sep _ _ _ Hn). reflexivity.
Qed.

Lemma find_datatype_cases_witness :
  contains ":" "num" = false /\
  find_datatype ("num" ++ ":" ++ "1-5" ++ ":" ++ "x") = ("1-5", "num").
Proof.
  split; [reflexivity|].
  apply (find_datatype_cases "num" "1-5" "x"); reflexivity.
Defined.

(** *** Sequence indices and names *)

(** What [parse] keeps true of the table it builds: the sequence
    indices count the entries, and every entry is keyed by its index and
    name and named after them. *)
Local Abbreviation well_keyed e :=
  (name (snd e) = snd (fst e) /\
   output_name (snd e) = str_of_nat (fst (fst e)) ++ "_" ++ snd (fst e)).

Lemma MMSLine_init_keyed (idx : dict nat) (line : list cell) (i : nat)
    (l : MMSLine) :
  MMSLine_init idx line i = Ok l ->
  output_name l = str_of_nat i ++ "_" ++ name l /\ store_index l = idx /\
  line_data l = line /\ path l = ["/"; "none"].
Proof.
  unfold MMSLine_init. intros H. apply bind_ok in H.
  destruct H as [c0 [_ H]]. destruct c0 as [|s|q]; try discriminate.
  destruct (find_datatype s) as [nm dt]. inversion H; subst. simpl. auto.
Qed.

Lemma compound_fold_indices (idx : dict nat) (gloss_line : list cell)
    (prefix : string) (start delta : Q) (n base : nat) (rest : list string) :
  forall (k : nat) (glosses out : table),
    foldM (compound_step idx gloss_line prefix start delta n base)
          (enumerate_from k rest) glosses = Ok out ->
    exists new,
      out = (glosses ++ new)%list /\
      map sequence_index new = seq (base + k) (List.length rest) /\
      Forall (fun e => well_keyed e) new.
Proof.
  induction rest as [|g rest IH]; intros k glosses out H.
  - simpl in H. inversion H; subst. exists []. rewrite app_nil_r.
    repeat split; constructor.
  - cbn [enumerate_from foldM] in H. apply bind_ok in H.
    destruct H as [g1 [Hstep H]].
    unfold compound_step in Hstep. apply bind_ok in Hstep.
    destruct Hstep as [line [_ Hstep]]. apply bind_ok in Hstep.
    destruct Hstep as [gd [Hinit Hstep]]. inversion Hstep; subst g1.
    destruct (MMSLine_init_keyed _ _ _ _ Hinit) as [Hout _].
    destruct (IH (S k) _ out H) as [new [-> [Hidx Hall]]].
    exists (((base + k, name gd), gd) :: new).
    rewrite <- app_assoc. split; [reflexivity|]. split.
    + simpl. rewrite Hidx. f_equal. f_equal. lia.
    + constructor; [|exact Hall]. simpl. split; [reflexivity | exact Hout].
Qed.

Lemma parse_row_indices (idx : dict nat) (glosses glosses' : table)
    (base base' : nat) (row : list string) :
  parse_row idx (glosses, base) row = Ok (glosses', base') ->
  exists new,
    glosses' = (glosses ++ new)%list /\
    map sequence_index new = seq base (base' - base) /\
    base <= base' /\
    Forall (fun e => well_keyed e) new.
Proof.
  unfold parse_row. intros H. apply bind_ok in H. destruct H as [c0 [_ H]].
  destruct (find_datatype c0) as [nm prefix].
  destruct (negb (prefix =? "signs") && contains "-" nm).
  - apply bind_ok in H. destruct H as [ifs [_ H]].
    apply bind_ok in H. destruct H as [cs [_ H]].
    apply bind_ok in H. destruct H as [s [_ H]].
    apply bind_ok in H. destruct H as [ife [_ H]].
    apply bind_ok in H. destruct H as [ce [_ H]].
    apply bind_ok in H. destruct H as [e [_ H]].
    apply bind_ok in H. destruct H as [out [Hfold H]].
    inversion H; subst.
    destruct (compound_fold_indices _ _ _ _ _ _ _ _ _ _ _ Hfold)
      as [new [-> [Hidx Hall]]].
    exists new. split; [reflexivity|].
    rewrite Nat.add_0_r in Hidx. rewrite Hidx.
    split; [f_equal; lia|]. split; [lia | exact Hall].
  - apply bind_ok in H. destruct H as [gd [Hinit H]]. inversion H; subst.
    destruct (MMSLine_init_keyed _ _ _ _ Hinit) as [Hout _].
    exists [((base, name gd), gd)]. split; [reflexivity|].
    replace (S base - base) with 1 by lia.
    split; [reflexivity|]. split; [lia|].
    constructor; [|constructor]. simpl. split; [reflexivity | exact Hout].
Qed.

Lemma parse_rows_indices (idx : dict nat) (rows : list (list string)) :
  forall (glosses : table) (base : nat) (st : table * nat),
    map sequence_index glosses = seq 0 base ->
    Forall (fun e => well_keyed e) glosses ->
    foldM (parse_row idx) rows (glosses, base) = Ok st ->
    map sequence_index (fst st) = seq 0 (snd st) /\
    Forall (fun e => well_keyed e) (fst st).
Proof.
  induction rows as [|row rows IH]; intros glosses base st Hidx Hall H.
  - simpl in H. inversion H; subst. auto.
  - cbn [foldM] in H. apply bind_ok in H. destruct H as [[g1 b1] [Hrow H]].
    destruct (parse_row_indices _ _ _ _ _ _ Hrow)
      as [new [-> [Hnew [Hle Hk]]]].
    apply (IH (glosses ++ new)%list b1 st); [| |exact H].
    + rewrite map_app, Hidx, Hnew.
      replace b1 with (base + (b1 - base)) at 2 by lia.
      rewrite seq_app. reflexivity.
    + apply Forall_app. split; assumption.
Qed.

Lemma keyed_items (items : table) :
  forall keyed : list (Z * (key * MMSLine)),
    mapM (fun kv => t <- timing (snd kv) ;; Ok (fst t, kv)) items = Ok keyed ->
    map snd keyed = items /\
    Forall (fun p => exists e, timing (snd (snd p)) = Ok (fst p, e)) keyed.
Proof.
  induction items as [|x items IH]; intros keyed H; simpl in H.
  - inversion H; subst. split; [reflexivity | constructor].
  - apply bind_ok in H. destruct H as [y [Hy H]].
    apply bind_ok in H. destruct H as [ys [Hys H]]. inversion H; subst.
    apply bind_ok in Hy. destruct Hy as [[s e] [Ht Hy]]. inversion Hy; subst.
    destruct (IH ys Hys) as [IH1 IH2].
    split; [simpl; rewrite IH1; reflexivity|].
    constructor; [exists e; exact Ht | exact IH2].
Qed.

Lemma sorted_by_start_keyed (items out : table) :
  sorted_by_start items = Ok out ->
  exists keyed : list (Z * (key * MMSLine)),
    out = map snd (sort_by keyed) /\ map snd keyed = items /\
    Forall (fun p => exists e, timing (snd (snd p)) = Ok (fst p, e)) keyed.
Proof.
  unfold sorted_by_start. intros H. apply bind_ok in H.
  destruct H as [keyed [Hk H]]. inversion H; subst.
  exists keyed. split; [reflexivity|]. apply keyed_items. exact Hk.
Qed.

Lemma sorted_by_start_perm (items out : table) :
  sorted_by_start items = Ok out -> Permutation items out.
Proof.
  intros H. destruct (sorted_by_start_keyed _ _ H) as [keyed [-> [<- _]]].
  apply Permutation_map. symmetry. apply sort_by_perm.
Qed.

(** After [parse] the sequence indices of the table are the numbers
    [0 .. n-1], each once, in some order; every entry is keyed by its
    own index and name, and its [output_name] is [index_name]. *)
Theorem parse_indices_dense (data : list (list string)) (root : Path)
    (m : MMS) :
  parse data root = Ok m ->
  Permutation (map sequence_index (mms m)) (seq 0 (List.length (mms m))) /\
  NoDup (map fst (mms m)) /\
  forall e, In e (mms m) ->
    name (snd e) = snd (fst e) /\
    output_name (snd e) = str_of_nat (fst (fst e)) ++ "_" ++ snd (fst e).
Proof.
  unfold parse. intros H.
  apply bind_ok in H. destruct H as [hd [_ H]].
  apply bind_ok in H. destruct H as [st [Hrows H]].
  apply bind_ok in H. destruct H as [items [Hs H]].
  inversion H; subst; clear H. cbn [mms].
  destruct (parse_rows_indices _ _ [] 0 st eq_refl (Forall_nil _) Hrows)
    as [Hidx Hall].
  pose proof (sorted_by_start_perm _ _ Hs) as Hperm.
  assert (Hlen : snd st = List.length items).
  { rewrite <- (Permutation_length Hperm), <- (length_map sequence_index),
      Hidx, length_seq. reflexivity. }
  assert (Hp : Permutation (map sequence_index items) (seq 0 (List.length items))).
  { rewrite <- Hlen, <- Hidx. apply Permutation_map. symmetry. exact Hperm. }
  split; [exact Hp|]. split.
  - assert (Hnd : NoDup (map sequence_index items)).
    { eapply Permutation_NoDup; [symmetry; exact Hp | apply seq_NoDup]. }
    assert (Hmm : map sequence_index items = map fst (map fst items)).
    { rewrite map_map. reflexivity. }
    rewrite Hmm in Hnd. eapply NoDup_map_inv. exact Hnd.
  - intros e He. rewrite Forall_forall in Hall. apply Hall.
    eapply Permutation_in; [symmetry; exact Hperm | exact He].
Qed.

Lemma parse_indices_dense_witness :
  parse (Samples.header :: Samples.shuffled_rows) Samples.root
    = Ok Samples.shuffled /\
  Permutation (map sequence_index (mms Samples.shuffled))
              (seq 0 (List.length (mms Samples.shuffled))).
Proof.
  split; [vm_compute; reflexivity|].
  apply (parse_indices_dense (Samples.header :: Samples.shuffled_rows)
                             Samples.root).
  vm_compute; reflexivity.
Defined.

(** *** The sort keeps the file order of simultaneous glosses *)

Lemma insert_by_stable {A} (s : Z) (x : Z * A) (l : list (Z * A)) :
  filter (fun p => (fst p =? s)%Z) (insert_by x l)
  = filter (fun p => (fst p =? s)%Z) (x :: l).
Proof.
  induction l as [|y t IH]; [reflexivity|].
  cbn [insert_by]. destruct (fst x <=? fst y)%Z eqn:E; [reflexivity|].
  apply Z.leb_gt in E. cbn [filter] in *.
  destruct (fst x =? s)%Z eqn:Ex.
  - apply Z.eqb_eq in Ex.
    assert (Ey : (fst y =? s)%Z = false) by (apply Z.eqb_neq; lia).
    rewrite Ey. exact IH.
  - rewrite IH. reflexivity.
Qed.

Lemma sort_by_stable {A} (s : Z) (l : list (Z * A)) :
  filter (fun p => (fst p =? s)%Z) (sort_by l)
  = filter (fun p => (fst p =? s)%Z) l.
Proof.
  induction l as [|x t IH]; [reflexivity|].
  cbn [sort_by fold_right]. rewrite insert_by_stable.
  cbn [filter]. fold (sort_by t). rewrite IH. reflexivity.
Qed.

Lemma filter_keyed (s : Z) (l : list (Z * (key * MMSLine))) :
  Forall (fun p => exists e, timing (snd (snd p)) = Ok (fst p, e)) l ->
  filter (starts_at s) (map snd l)
  = map snd (filter (fun p => (fst p =? s)%Z) l).
Proof.
  induction 1 as [|p t [e Hp] _ IH]; [reflexivity|].
  cbn [map filter]. unfold starts_at at 1. rewrite Hp.
  destruct (fst p =? s)%Z; cbn [map]; rewrite IH; reflexivity.
Qed.

(** The final sort of [parse] loses and invents no entry, and the
    entries that start on the same frame keep the order they had. *)
Theorem sort_is_stable (items out : table) :
  sorted_by_start items = Ok out ->
  Permutation items out /\
  forall s, filter (starts_at s) out = filter (starts_at s) items.
Proof.
  intros H. split; [apply sorted_by_start_perm; exact H|].
  intros s. destruct (sorted_by_start_keyed _ _ H) as [keyed [-> [Hsnd Hk]]].
  assert (Hk' : Forall (fun p => exists e, timing (snd (snd p)) = Ok (fst p, e))
                       (sort_by keyed)).
  { rewrite Forall_forall in *. intros p Hp. apply Hk.
    eapply Permutation_in; [apply sort_by_perm | exact Hp]. }
  rewrite (filter_keyed s _ Hk'), sort_by_stable, <- (filter_keyed s _ Hk).
  rewrite Hsnd. reflexivity.
Qed.

Lemma sort_is_stable_witness :
  sorted_by_start MoreSamples.tie_items = Ok MoreSamples.tie_sorted /\
  map (fun e => output_name (snd e)) MoreSamples.tie_items
    = ["0_A"; "1_B"; "2_C"] /\
  map (fun e => output_name (snd e)) MoreSamples.tie_sorted
    = ["2_C"; "0_A"; "1_B"] /\
  filter (starts_at 60) MoreSamples.tie_sorted
    = filter (starts_at 60) MoreSamples.tie_items.
Proof.
  split; [vm_compute; reflexivity|].
  split; [reflexivity|]. split; [reflexivity|].
  apply (sort_is_stable MoreSamples.tie_items MoreSamples.tie_sorted).
  vm_compute; reflexivity.
Defined.

(** *** Edges of the path resolution *)

Lemma resolve_hold_first (pe : Path -> bool) (m : MMS) (k : key)
    (g : MMSLine) (t : table) :
  mms m = (k, g) :: t -> is_hold g = true ->
  find_mocap_data_files pe m = Raise UnboundLocalError.
Proof.
  intros Hm Hh. unfold find_mocap_data_files. rewrite Hm.
  assert (Hne : (k, g) :: t <> []) by discriminate.
  destruct (exists_last Hne) as [l' [x Hx]].
  cbn [foldM]. unfold resolve_step at 1. rewrite Hh.
  change (List.last (map Some []) None) with (@None (key * MMSLine)).
  cbv iota. rewrite Hx, last_some_app. reflexivity.
Qed.

(** A table that opens with a HOLD stops the resolution at once: the
    local [gloss_path] is read before any entry has bound it. *)
Theorem hold_first_is_unbound (pe : Path -> bool) (m : MMS) (k : key)
    (g : MMSLine) (t : table) :
  mms m = (k, g) :: t -> is_hold g = true ->
  find_mocap_data_files pe m = Raise UnboundLocalError.
Proof.
  intros Hm Hh. unfold find_mocap_data_files. rewrite Hm.
  assert (Hne : (k, g) :: t <> []) by discriminate.
  destruct (exists_last Hne) as [l' [x Hx]].
  cbn [foldM]. unfold resolve_step at 1. rewrite Hh.
  change (List.last (map Some []) None) with (@None (key * MMSLine)).
  cbv iota. rewrite Hx, last_some_app. reflexivity.
Qed.

Lemma hold_first_is_unbound_witness :
  is_hold (Samples.entry MoreSamples.hold_first 0) = true /\
  find_mocap_data_files (fun _ => true) MoreSamples.hold_first
    = Raise UnboundLocalError.
Proof.
  split; [reflexivity|].
  apply (hold_first_is_unbound (fun _ => true) MoreSamples.hold_first
           (fst (Samples.pair_at MoreSamples.hold_first 0))
           (Samples.entry MoreSamples.hold_first 0)
           (tl (mms MoreSamples.hold_first))); reflexivity.
Defined.

Lemma resolved_from_idem (root : Path) (l : table) :
  forall p, resolved_from root p (resolved_from root p l)
            = resolved_from root p l.
Proof.
  induction l as [|[k g] t IH]; intros p; [reflexivity|].
  cbn [resolved_from]. destruct (is_hold g) eqn:Eh.
  - cbn [resolved_from]. rewrite is_hold_set_path, is_hold_set_datatype, Eh.
    rewrite IH. reflexivity.
  - cbn [resolved_from]. rewrite is_hold_set_path, Eh.
    change (mocap_path root (set_path g (mocap_path root g)))
      with (mocap_path root g).
    rewrite IH. reflexivity.
Qed.

Lemma resolved_from_all_exist (pe : Path -> bool) (root : Path) (l : table) :
  forall p, all_exist pe root l = true ->
            all_exist pe root (resolved_from root p l) = true.
Proof.
  induction l as [|[k g] t IH]; intros p H; [reflexivity|].
  cbn [all_exist forallb snd] in H. fold (all_exist pe root t) in H.
  apply andb_true_iff in H. destruct H as [Hg Ht].
  cbn [resolved_from]. destruct (is_hold g) eqn:Eh.
  - cbn [all_exist forallb snd]. fold (all_exist pe root (resolved_from root p t)).
    rewrite is_hold_set_path, is_hold_set_datatype, Eh. cbn [orb andb].
    apply IH. exact Ht.
  - cbn [all_exist forallb snd].
    fold (all_exist pe root (resolved_from root (mocap_path root g) t)).
    rewrite is_hold_set_path, Eh. cbn [orb] in Hg |- *.
    change (mocap_path root (set_path g (mocap_path root g)))
      with (mocap_path root g).
    rewrite Hg. cbn [andb]. apply IH. exact Ht.
Qed.

(** The outcome of the resolution on a table that does not open with a
    HOLD. *)
Lemma find_mocap_data_files_eq (pe : Path -> bool) (m : MMS) :
  (forall e, nth_error (mms m) 0 = Some e -> is_hold (snd e) = false) ->
  find_mocap_data_files pe m
  = if all_exist pe (generated_root m) (mms m)
    then Ok (mkMMS (resolved_from (generated_root m) [] (mms m))
                   (generated_root m) (inflections_availability_dict m))
    else Raise Exception_.
Proof.
  intros Hfirst. unfold find_mocap_data_files.
  destruct (mms m) as [|[k0 g0] t] eqn:Em; [reflexivity|].
  assert (H0 : is_hold g0 = false) by (apply (Hfirst (k0, g0)); reflexivity).
  assert (Hne : (k0, g0) :: t <> []) by discriminate.
  cbn [foldM resolve_step all_exist forallb snd resolved_from].
  rewrite H0. cbn [orb]. fold (all_exist pe (generated_root m) t).
  destruct (pe (mocap_path (generated_root m) g0)) eqn:Epe;
    cbn [negb andb Py.bind]; [|reflexivity].
  destruct (resolve_fold pe (generated_root m) ((k0, g0) :: t) Hne t
              ([] ++ [(k0, set_path g0 (mocap_path (generated_root m) g0))])%list
              (mocap_path (generated_root m) g0)) as [F1 F2].
  destruct (all_exist pe (generated_root m) t) eqn:Ex.
  - destruct (F1 eq_refl) as [gp' E].
    match goal with
    | |- context [Py.bind ?x _] =>
        match type of E with _ = ?r => assert (E' : x = r) by exact E end;
        rewrite E'
    end.
    reflexivity.
  - specialize (F2 eq_refl).
    match goal with
    | |- context [Py.bind ?x _] =>
        assert (E' : x = Raise Exception_) by exact F2; rewrite E'
    end.
    reflexivity.
Qed.

(** The resolution can be run again: on its own result it succeeds and
    changes nothing. *)
Theorem find_mocap_data_files_idempotent (pe : Path -> bool) (m m' : MMS) :
  find_mocap_data_files pe m = Ok m' ->
  find_mocap_data_files pe m' = Ok m'.
Proof.
  intros H.
  assert (Hfirst : forall e, nth_error (mms m) 0 = Some e ->
                             is_hold (snd e) = false).
  { intros [k g] He. cbn [snd]. destruct (is_hold g) eqn:Eh; [|reflexivity].
    destruct (mms m) as [|e0 t] eqn:Em; [discriminate|].
    simpl in He. inversion He; subst.
    rewrite (resolve_hold_first pe m k g t Em Eh) in H. discriminate. }
  rewrite (find_mocap_data_files_eq pe m Hfirst) in H.
  destruct (all_exist pe (generated_root m) (mms m)) eqn:Ex; [|discriminate].
  inversion H; subst; clear H.
  rewrite find_mocap_data_files_eq.
  - cbn [mms generated_root inflections_availability_dict].
    rewrite (resolved_from_all_exist pe _ _ [] Ex), resolved_from_idem.
    reflexivity.
  - cbn [mms]. intros e He.
    destruct (mms m) as [|[k0 g0] t] eqn:Em; [discriminate|].
    assert (H0 : is_hold g0 = false) by (apply (Hfirst (k0, g0)); reflexivity).
    cbn [resolved_from] in He. rewrite H0 in He. simpl in He.
    inversion He; subst. exact H0.
Qed.

Lemma find_mocap_data_files_idempotent_witness :
  find_mocap_data_files (fun _ => true) Samples.sentence
    = Ok Samples.sentence_resolved /\
  find_mocap_data_files (fun _ => true) Samples.sentence_resolved
    = Ok Samples.sentence_resolved.
Proof.
  assert (H : find_mocap_data_files (fun _ => true) Samples.sentence
              = Ok Samples.sentence_resolved) by (vm_compute; reflexivity).
  split; [exact H|].
  apply (find_mocap_data_files_idempotent (fun _ => true) Samples.sentence).
  exact H.
Defined.

(** *** Which names are HOLDs *)

Lemma until_gt_found (m post : string) :
  contains ">" m = false -> contains newline m = false ->
  until_gt (m ++ String ">" post) = Some m.
Proof.
  unfold newline.
  induction m as [|c m IH]; intros Hg Hn; [reflexivity|].
  cbn [contains] in Hg, Hn. cbn [append until_gt].
  destruct (Ascii.eqb ">" c) eqn:E1; [discriminate|].
  destruct (Ascii.eqb (ascii_of_nat 10) c) eqn:E2; [discriminate|].
  rewrite Ascii.eqb_sym in E1. rewrite Ascii.eqb_sym in E2.
  rewrite E1, E2, (IH Hg Hn). reflexivity.
Qed.

Lemma first_match_found (pre m post : string) :
  contains "<" pre = false ->
  contains ">" m = false -> contains newline m = false ->
  first_match (pre ++ String "<" (m ++ String ">" post)) = Some m.
Proof.
  intros Hp Hg Hn. induction pre as [|c pre IH].
  - cbn [append first_match]. rewrite Ascii.eqb_refl.
    rewrite (until_gt_found m post Hg Hn). reflexivity.
  - cbn [contains] in Hp. cbn [append first_match].
    destruct (Ascii.eqb "<" c) eqn:E; [discriminate|].
    rewrite Ascii.eqb_sym in E. rewrite E. apply IH. exact Hp.
Qed.

Lemma first_match_none (s : string) :
  contains "<" s = false -> first_match s = None.
Proof.
  induction s as [|c s IH]; intros H; [reflexivity|].
  cbn [contains] in H. cbn [first_match].
  destruct (Ascii.eqb "<" c) eqn:E; [discriminate|].
  rewrite Ascii.eqb_sym in E. rewrite E. apply IH. exact H.
Qed.

(** An entry is a HOLD when the first bracketed word of its name is
    [HOLD]: the name [<HOLD>], also after a text without ['<'] and
    before any text.  A name without ['<'], the bare [HOLD] for one, is
    not a HOLD. *)
Theorem hold_names (l : MMSLine) (pre post : string) :
  contains "<" pre = false ->
  (name l = pre ++ "<HOLD>" ++ post -> is_hold l = true) /\
  (name l = pre -> is_hold l = false).
Proof.
  intros Hp. unfold is_hold. split; intros ->.
  - change (pre ++ "<HOLD>" ++ post)
      with (pre ++ String "<" ("HOLD" ++ String ">" post)).
    rewrite first_match_found; reflexivity || exact Hp.
  - rewrite (first_match_none pre Hp). reflexivity.
Qed.

Lemma hold_names_witness :
  contains "<" "HOLD" = false /\
  is_hold (Samples.entry Samples.sentence 3) = true.
Proof.
  split; [reflexivity|].
  apply (hold_names (Samples.entry Samples.sentence 3) EmptyString EmptyString);
    reflexivity.
Defined.

(** *** Rows that stop the parser *)

(** A file without header line, a blank row and a row without gloss
    name stop [parse]: [IndexError] for the first two, [TypeError] for
    the third, whatever follows the row. *)
Theorem parse_rejects_bad_rows (header : list string)
    (before after : list (list string)) (root : Path) (st : table * nat) :
  foldM (parse_row (build_index header)) before ([], 0) = Ok st ->
  parse [] root = Raise IndexError /\
  parse (header :: before ++ [] :: after) root = Raise IndexError /\
  forall rest,
    parse (header :: before ++ (EmptyString :: rest) :: after) root
    = Raise TypeError.
Proof.
  intros Hb. split; [reflexivity|]. destruct st as [glosses base]. split.
  - unfold parse. cbn [get nth_error Py.bind tl].
    rewrite (foldM_raise _ before after [] _ _ IndexError Hb); reflexivity.
  - intros rest. unfold parse. cbn [get nth_error Py.bind tl].
    rewrite (foldM_raise _ before after (EmptyString :: rest) _ _ TypeError Hb);
      reflexivity.
Qed.

Lemma parse_rejects_bad_rows_witness :
  parse (Samples.header :: Samples.sentence_rows ++ [] :: Samples.short_rows)
        Samples.root
  = Raise IndexError.
Proof.
  eapply (parse_rejects_bad_rows Samples.header Samples.sentence_rows
            Samples.short_rows Samples.root).
  vm_compute. reflexivity.
Defined.

(** *** Components of a row *)

Lemma getitem_parsed (header row : list string) (l : MMSLine) (k s : string)
    (i : nat) :
  store_index l = build_index header -> line_data l = none_for_empty row ->
  dict_get (build_index header) k = Ok i -> nth_error row i = Some s ->
  getitem l k = Ok (if s =? EmptyString then CNone else CStr s).
Proof.
  intros Hs Hd Hk Hi. unfold getitem. rewrite Hs, Hk, Hd. cbn [Py.bind].
  unfold get, none_for_empty. rewrite nth_error_map, Hi. reflexivity.
Qed.

(** A component with an empty cell among its three is absent: [None],
    not an error. *)
Theorem partial_vector_is_absent (header row : list string) (l : MMSLine)
    (key sx sy sz : string) (ix iy iz : nat) :
  store_index l = build_index header -> line_data l = none_for_empty row ->
  dict_get (build_index header) (key ++ "x") = Ok ix ->
  dict_get (build_index header) (key ++ "y") = Ok iy ->
  dict_get (build_index header) (key ++ "z") = Ok iz ->
  nth_error row ix = Some sx -> nth_error row iy = Some sy ->
  nth_error row iz = Some sz ->
  sx = EmptyString \/ sy = EmptyString \/ sz = EmptyString ->
  handle_none l key = Ok None.
Proof.
  intros Hs Hd Hx Hy Hz Nx Ny Nz Hempty. unfold handle_none.
  rewrite (getitem_parsed header row l _ sx ix Hs Hd Hx Nx).
  rewrite (getitem_parsed header row l _ sy iy Hs Hd Hy Ny).
  rewrite (getitem_parsed header row l _ sz iz Hs Hd Hz Nz).
  cbn [Py.bind].
  destruct (sx =? EmptyString) eqn:Ex; [reflexivity|].
  destruct (sy =? EmptyString) eqn:Ey;
    [cbn [truthy]; rewrite Ex; reflexivity|].
  destruct (sz =? EmptyString) eqn:Ez;
    [cbn [truthy]; rewrite Ex, Ey; reflexivity|].
  apply String.eqb_neq in Ex, Ey, Ez. destruct Hempty as [H|[H|H]]; congruence.
Qed.

Lemma partial_vector_is_absent_witness :
  nth_error MoreSamples.partial_row 2 = Some EmptyString /\
  handle_none MoreSamples.partial_line "headrot" = Ok None.
Proof.
  split; [reflexivity|].
  refine (partial_vector_is_absent
            MoreSamples.head_header MoreSamples.partial_row
            MoreSamples.partial_line "headrot" "0.1" EmptyString "0.3"
            1 2 3 eq_refl eq_refl eq_refl eq_refl eq_refl eq_refl eq_refl
            eq_refl _).
  right; left; reflexivity.
Defined.

End TableProps.

(* ================================================================== *)
(** ** More on the glue stage *)

Module GlueProps.
Import PyFacts MMSParser Bpy HostProps Merge MergeProps Vocabulary.

(** *** What the merge leaves alone *)

Lemma perform_hold_inv (actions actions' : Actions) (target source : string)
    (start end_ x : Q) :
  perform_hold actions target source start end_ = Ok (actions', x) ->
  x = end_ /\ exists ta', actions' = dict_set actions target ta'.
Proof.
  unfold perform_hold. intros H.
  apply bind_ok in H. destruct H as [sa [_ H]].
  apply bind_ok in H. destruct H as [ta [_ H]].
  apply bind_ok in H. destruct H as [ta' [_ H]].
  inversion H; subst. split; [reflexivity | exists ta'; reflexivity].
Qed.

Lemma combine_animation_inv (frame_range : Action -> Q * Q)
    (actions actions' : Actions) (target source : string) (start x : Q) :
  combine_animation frame_range actions target source start = Ok (actions', x) ->
  exists ta', actions' = dict_set actions target ta'.
Proof.
  unfold combine_animation. intros H.
  apply bind_ok in H. destruct H as [sa [_ H]].
  destruct (frame_range sa) as [a_start a_end].
  apply bind_ok in H. destruct H as [ta [_ H]].
  apply bind_ok in H. destruct H as [ta' [_ H]].
  inversion H; subst. exists ta'; reflexivity.
Qed.

Lemma merge_gloss_inv (frame_range : Action -> Q * Q) (m : MMS)
    (action_name : string) (actions actions' : Actions) (e : key * MMSLine)
    (start end_ x : Q) :
  merge_gloss frame_range m action_name actions e start end_ = Ok (actions', x) ->
  (exists ta', actions' = dict_set actions action_name ta') /\
  (datatype (snd e) = "HOLD" -> x = end_).
Proof.
  unfold merge_gloss. intros H.
  destruct (datatype (snd e) =? "HOLD") eqn:E.
  - apply bind_ok in H. destruct H as [src [_ H]].
    apply perform_hold_inv in H. destruct H as [Hx Ha]. auto.
  - apply combine_animation_inv in H. split; [exact H|].
    intros Hd. rewrite Hd in E. discriminate.
Qed.

Lemma merge_step_inv (frame_range : Action -> Q * Q) (pe : Path -> bool)
    (rel : bool) (m : MMS) (action_name : string)
    (actions actions' : Actions) (last last' : Q) (e : key * MMSLine) :
  merge_step frame_range pe rel m action_name (actions, last) e
    = Ok (actions', last') ->
  forall n, n <> action_name -> dict_get actions' n = dict_get actions n.
Proof.
  unfold merge_step. intros H n Hn.
  destruct (negb (pe (path (snd e)))); [inversion H; reflexivity|].
  apply bind_ok in H. destruct H as [[start end_] [_ H]].
  apply bind_ok in H. destruct H as [[a1 ef] [Hg H]].
  destruct (compatible end_ ef); [|discriminate]. inversion H; subst.
  destruct (merge_gloss_inv _ _ _ _ _ _ _ _ _ Hg) as [[ta' ->] _].
  apply dict_get_set_other. congruence.
Qed.

(** The merge writes into the final action only: when it returns,
    every other action of the scene, the baked glosses among them, is
    what it was. *)
Theorem merge_leaves_sources (frame_range : Action -> Q * Q)
    (pe : Path -> bool) (rel : bool) (m : MMS) (action_name : string)
    (actions actions' : Actions) (last' : Q) :
  merge_animation frame_range pe rel m action_name actions
    = Ok (actions', last') ->
  forall n, n <> action_name -> dict_get actions' n = dict_get actions n.
Proof.
  unfold merge_animation. generalize 1%Q as last. revert actions.
  induction (mms m) as [|e l IH]; intros actions last H n Hn.
  - simpl in H. inversion H; reflexivity.
  - cbn [foldM] in H. apply bind_ok in H. destruct H as [[a1 l1] [Hstep H]].
    rewrite (IH a1 l1 H n Hn).
    apply (merge_step_inv _ _ _ _ _ _ _ _ _ _ Hstep n Hn).
Qed.

Lemma merge_leaves_sources_witness :
  "inflected_0_HELLO" <> "final_action" /\
  dict_get (fst MoreSamples.held_merged) "inflected_0_HELLO"
  = dict_get MoreSamples.held_ready "inflected_0_HELLO".
Proof.
  split; [discriminate|].
  apply (merge_leaves_sources Samples.first_curve_range (fun _ => true) false
           MoreSamples.held_table "final_action" MoreSamples.held_ready
           (fst MoreSamples.held_merged) (snd MoreSamples.held_merged)).
  - vm_compute; reflexivity.
  - discriminate.
Defined.

(** *** Holds and the check of the end frame *)

Lemma compatible_refl (x : Q) : compatible x x = true.
Proof.
  apply compatible_iff. split.
  - apply Qplus_le_l with (z := 1%Q). ring_simplify.
    setoid_replace x with (x + 0)%Q at 1 by ring.
    apply Qplus_le_r. discriminate.
  - setoid_replace x with (x + 0)%Q at 1 by ring.
    apply Qplus_le_r. discriminate.
Qed.

(** A hold that completes never trips the assertion on the end frame:
    [perform_hold] answers the [end] it was given. *)
Theorem hold_passes_check (frame_range : Action -> Q * Q)
    (pe : Path -> bool) (rel : bool) (m : MMS) (action_name : string)
    (actions actions1 : Actions) (last start end_ end_frame : Q)
    (e : key * MMSLine) :
  pe (path (snd e)) = true -> datatype (snd e) = "HOLD" ->
  gloss_times rel last (snd e) = Ok (start, end_) ->
  merge_gloss frame_range m action_name actions e start end_
    = Ok (actions1, end_frame) ->
  end_frame = end_ /\
  merge_step frame_range pe rel m action_name (actions, last) e
    = Ok (actions1, end_).
Proof.
  intros Hpe Hd Ht Hg.
  destruct (merge_gloss_inv _ _ _ _ _ _ _ _ _ Hg) as [_ Hx].
  specialize (Hx Hd). subst end_frame. split; [reflexivity|].
  unfold merge_step. rewrite Hpe. cbn [negb]. rewrite Ht. cbn [Py.bind].
  rewrite Hg. cbn [Py.bind]. rewrite compatible_refl. reflexivity.
Qed.

Lemma hold_passes_check_witness :
  datatype (snd (Samples.pair_at MoreSamples.held_table 1)) = "HOLD" /\
  merge_step Samples.first_curve_range (fun _ => true) false
             MoreSamples.held_table "final_action"
             (fst MoreSamples.held_hello, (61 # 1)%Q)
             (Samples.pair_at MoreSamples.held_table 1)
  = Ok (fst MoreSamples.held_merged, (91 # 1)%Q).
Proof.
  split; [reflexivity|].
  refine (proj2 (hold_passes_check Samples.first_curve_range (fun _ => true)
                   false MoreSamples.held_table "final_action"
                   (fst MoreSamples.held_hello) (fst MoreSamples.held_merged)
                   (61 # 1)%Q (61 # 1)%Q (91 # 1)%Q (91 # 1)%Q
                   (Samples.pair_at MoreSamples.held_table 1) _ _ _ _)).
  - reflexivity.
  - reflexivity.
  - vm_compute; reflexivity.
  - vm_compute; reflexivity.
Defined.

(** *** Glosses without file *)

(** [merge_animation] passes over the glosses whose file is missing:
    it is the merge of the others alone, and when no file is there the
    scene is returned as it was, with [last_gloss_end = 1]. *)
Theorem merge_skips_missing_assets (frame_range : Action -> Q * Q)
    (pe : Path -> bool) (rel : bool) (m : MMS) (action_name : string)
    (actions : Actions) :
  merge_animation frame_range pe rel m action_name actions
  = foldM (merge_step frame_range pe rel m action_name)
          (filter (fun e => pe (path (snd e))) (mms m)) (actions, 1%Q) /\
  ((forall e, In e (mms m) -> pe (path (snd e)) = false) ->
   merge_animation frame_range pe rel m action_name actions
   = Ok (actions, 1%Q)).
Proof.
  unfold merge_animation. generalize (actions, 1%Q) as st.
  assert (Hskip : forall st e, pe (path (snd e)) = false ->
            merge_step frame_range pe rel m action_name st e = Ok st).
  { intros [a l] e He. unfold merge_step. rewrite He. reflexivity. }
  induction (mms m) as [|e l IH]; intros st.
  - split; reflexivity.
  - destruct (IH st) as [_ IHnone]. split.
    + cbn [filter foldM]. destruct (pe (path (snd e))) eqn:Ee.
      * cbn [foldM].
        destruct (merge_step frame_range pe rel m action_name st e) as [st1|x];
          [|reflexivity].
        cbn [Py.bind]. apply IH.
      * rewrite (Hskip st e Ee). cbn [Py.bind]. apply IH.
    + intros Hall. cbn [foldM].
      rewrite (Hskip st e (Hall e (or_introl eq_refl))). cbn [Py.bind].
      apply IH. intros e' He'. apply Hall. right. exact He'.
Qed.


(** *** The channels of the final action are created once *)

Lemma new_fold_inv (l : list FCurve) :
  forall t t',
    foldM (fun t c => new t (data_path c) (array_index c)) l t = Ok t' ->
    map channel_of t' = (map channel_of t ++ map channel_of l)%list.
Proof.
  induction l as [|c l IH]; intros t t' H.
  - simpl in H. inversion H; subst. rewrite app_nil_r. reflexivity.
  - cbn [foldM] in H. apply bind_ok in H. destruct H as [t1 [Hnew H]].
    unfold new in Hnew.
    destruct (find t (data_path c) (array_index c)); [discriminate|].
    inversion Hnew; subst. rewrite (IH _ _ H), map_app.
    rewrite <- app_assoc. reflexivity.
Qed.

Lemma new_fold_clash (l : list FCurve) :
  forall t,
    (exists c, In c l /\ In (channel_of c) (map channel_of t)) ->
    foldM (fun t c => new t (data_path c) (array_index c)) l t
    = Raise RuntimeError.
Proof.
  induction l as [|c0 l IH]; intros t [c [Hc Hin]]; [destruct Hc|].
  cbn [foldM]. unfold new at 1.
  destruct (find t (data_path c0) (array_index c0)) as [x|] eqn:E;
    [reflexivity|].
  cbn [Py.bind]. apply IH.
  destruct Hc as [->|Hc].
  - exfalso. apply (find_channel_none t (channel_of c)) in E. exact (E Hin).
  - exists c. split; [exact Hc|]. rewrite map_app. apply in_or_app.
    left. exact Hin.
Qed.

(** [create_new_fcurves] cannot be run twice on one scene: after a
    first run the curves it wants to create exist, and the host refuses
    them with a [RuntimeError]. *)
Theorem create_new_fcurves_twice (actions actions' : Actions) (m : MMS)
    (self_action_name : string) (action_name : option string) :
  create_new_fcurves actions m self_action_name action_name = Ok actions' ->
  create_new_fcurves actions' m self_action_name action_name
    = Raise RuntimeError.
Proof.
  unfold create_new_fcurves. intros H.
  apply bind_ok in H. destruct H as [n [Hn H]]. rewrite Hn. cbn [Py.bind].
  apply bind_ok in H. destruct H as [ra [Hra H]].
  destruct (List.length ra =? 0)%nat eqn:El; [discriminate|].
  apply bind_ok in H. destruct H as [ta [Hta H]].
  apply bind_ok in H. destruct H as [ta' [Hfold H]].
  inversion H; subst actions'; clear H.
  pose proof (new_fold_inv _ _ _ Hfold) as Hch.
  destruct ra as [|c0 ra0]; [discriminate|].
  destruct (String.eqb_spec n self_action_name) as [->|Hne].
  - rewrite dict_get_set_same. cbn [Py.bind].
    assert (Hlen : (List.length ta' =? 0)%nat = false).
    { apply Nat.eqb_neq. rewrite <- (length_map channel_of), Hch.
      rewrite length_app. simpl. lia. }
    rewrite Hlen. cbn [Py.bind].
    destruct ta' as [|d0 ta0]; [discriminate|].
    rewrite new_fold_clash; [reflexivity|].
    exists d0. split; [left; reflexivity|]. left. reflexivity.
  - rewrite dict_get_set_other by congruence. rewrite Hra. cbn [Py.bind].
    cbn [List.length Nat.eqb]. rewrite dict_get_set_same. cbn [Py.bind].
    rewrite new_fold_clash; [reflexivity|].
    exists c0. split; [left; reflexivity|].
    rewrite Hch. apply in_or_app. right. left. reflexivity.
Qed.

Lemma create_new_fcurves_twice_witness :
  create_new_fcurves Samples.scene Samples.sentence_resolved
                     "final_action" None = Ok Samples.scene_ready /\
  create_new_fcurves Samples.scene_ready Samples.sentence_resolved
                     "final_action" None = Raise RuntimeError.
Proof.
  assert (H : create_new_fcurves Samples.scene Samples.sentence_resolved
                "final_action" None = Ok Samples.scene_ready)
    by (vm_compute; reflexivity).
  split; [exact H|].
  apply (create_new_fcurves_twice Samples.scene). exact H.
Defined.

End GlueProps.

(* ================================================================== *)
(** ** More on the resampler *)

Module ResampleEdges.
Import PyFacts MMSParser Bpy HostProps Resampler ResamplerProps.

(** *** The destination channels *)

Lemma in_channels_find (t : Action) (k : channel) :
  In k (map channel_of t) -> find t (fst k) (snd k) <> None.
Proof.
  intros Hin Hnone. apply (find_channel_none t k) in Hnone. exact (Hnone Hin).
Qed.

Lemma create_if_missing_grows (t : Action) (p : string) (i : nat) :
  exists added,
    create_if_missing t p i = Ok (t ++ added)%list /\ no_keyframes added /\
    In (p, i) (map channel_of (t ++ added)%list).
Proof.
  unfold create_if_missing, new.
  destruct (find t p i) as [c|] eqn:E.
  - exists []. rewrite app_nil_r. split; [reflexivity|].
    split; [constructor|].
    destruct (find_channel_some t (p, i) c E) as [Hc Hin].
    rewrite <- Hc. apply in_map. exact Hin.
  - exists [mkFCurve p i []]. split; [reflexivity|].
    split; [repeat constructor|].
    rewrite map_app. apply in_or_app. right. left. reflexivity.
Qed.

Lemma create_if_missing_present (t : Action) (p : string) (i : nat) :
  In (p, i) (map channel_of t) -> create_if_missing t p i = Ok t.
Proof.
  intros H. unfold create_if_missing.
  pose proof (in_channels_find t (p, i) H) as Hf. cbn [fst snd] in Hf.
  destruct (find t p i); [reflexivity | congruence].
Qed.

Ltac in_prefix :=
  first [assumption | apply in_or_app; left; in_prefix].

Lemma create_f_curves_bone_grows (t : Action) (bone : string) :
  exists added,
    create_f_curves_bone t bone = Ok (t ++ added)%list /\ no_keyframes added /\
    forall k, In k (bone_channels bone) ->
              In k (map channel_of (t ++ added)%list).
Proof.
  unfold create_f_curves_bone. cbn [foldM].
  destruct (create_if_missing_grows t (rot_path_name bone) 0) as [a1 [E1 [N1 I1]]].
  destruct (create_if_missing_grows (t ++ a1)%list (loc_path_name bone) 0)
    as [a2 [E2 [N2 I2]]].
  destruct (create_if_missing_grows ((t ++ a1) ++ a2)%list
              (rot_path_name bone) 1) as [a3 [E3 [N3 I3]]].
  destruct (create_if_missing_grows (((t ++ a1) ++ a2) ++ a3)%list
              (loc_path_name bone) 1) as [a4 [E4 [N4 I4]]].
  destruct (create_if_missing_grows ((((t ++ a1) ++ a2) ++ a3) ++ a4)%list
              (rot_path_name bone) 2) as [a5 [E5 [N5 I5]]].
  destruct (create_if_missing_grows
              (((((t ++ a1) ++ a2) ++ a3) ++ a4) ++ a5)%list
              (loc_path_name bone) 2) as [a6 [E6 [N6 I6]]].
  rewrite E1. cbn [Py.bind]. rewrite E2. cbn [Py.bind].
  rewrite E3. cbn [Py.bind]. rewrite E4. cbn [Py.bind].
  rewrite E5. cbn [Py.bind]. rewrite E6. cbn [Py.bind].
  exists (a1 ++ a2 ++ a3 ++ a4 ++ a5 ++ a6)%list.
  split; [rewrite !app_assoc; reflexivity|].
  split; [unfold no_keyframes in *; repeat (apply Forall_app; split); assumption|].
  intros k Hk. unfold bone_channels in Hk. simpl in Hk.
  rewrite !app_assoc. rewrite !map_app in *.
  destruct Hk as [<-|[<-|[<-|[<-|[<-|[<-|[]]]]]]]; in_prefix.
Qed.

Lemma create_f_curves_grows (bones : list string) :
  forall t,
    exists added,
      create_f_curves bones t = Ok (t ++ added)%list /\ no_keyframes added /\
      forall k, In k (armature_channels bones) ->
                In k (map channel_of (t ++ added)%list).
Proof.
  induction bones as [|b bones IH]; intros t.
  - exists []. rewrite app_nil_r. split; [reflexivity|].
    split; [constructor | intros k []].
  - destruct (create_f_curves_bone_grows t b) as [a1 [E1 [N1 I1]]].
    destruct (IH (t ++ a1)%list) as [a2 [E2 [N2 I2]]].
    exists (a1 ++ a2)%list.
    split; [unfold create_f_curves in *; cbn [foldM]; rewrite E1;
            cbn [Py.bind]; rewrite E2, app_assoc; reflexivity|].
    split; [apply Forall_app; split; assumption|].
    intros k Hk. unfold armature_channels in Hk. cbn [flat_map] in Hk.
    rewrite app_assoc. apply in_app_or in Hk. destruct Hk as [Hk|Hk].
    + rewrite map_app. apply in_or_app. left. apply I1. exact Hk.
    + apply I2. exact Hk.
Qed.

Lemma create_f_curves_present (bones : list string) (t : Action) :
  (forall k, In k (armature_channels bones) -> In k (map channel_of t)) ->
  create_f_curves bones t = Ok t.
Proof.
  unfold create_f_curves. induction bones as [|b bones IH]; intros H;
    [reflexivity|].
  cbn [foldM]. unfold armature_channels in H. cbn [flat_map] in H.
  assert (Hb : create_f_curves_bone t b = Ok t).
  { unfold create_f_curves_bone. cbn [foldM].
    assert (Hin : forall k, In k (bone_channels b) -> In k (map channel_of t))
      by (intros k Hk; apply H; apply in_or_app; left; exact Hk).
    unfold bone_channels in Hin. simpl in Hin.
    repeat (rewrite create_if_missing_present by (apply Hin; tauto);
            cbn [Py.bind]).
    reflexivity. }
  rewrite Hb. cbn [Py.bind]. apply IH.
  intros k Hk. apply H. apply in_or_app. right. exact Hk.
Qed.

(** [create_f_curves] never fails: it keeps the curves of the action as
    they are, appends an empty curve for each missing channel of each
    bone, and run again on its result it changes nothing. *)
Theorem create_f_curves_completes (bones : list string) (t : Action) :
  exists added,
    create_f_curves bones t = Ok (t ++ added)%list /\
    no_keyframes added /\
    (forall k, In k (armature_channels bones) ->
               In k (map channel_of (t ++ added)%list)) /\
    create_f_curves bones (t ++ added)%list = Ok (t ++ added)%list.
Proof.
  destruct (create_f_curves_grows bones t) as [added [E [N I]]].
  exists added. split; [exact E|]. split; [exact N|]. split; [exact I|].
  apply create_f_curves_present. exact I.
Qed.

Section Host.

Variable evaluate : FCurve -> Q -> Q.
Variable frame_range : Action -> Q * Q.

(** *** Sample counts below two *)

(** [resample] has no guard on the sample count [T]: with [T = 1], a
    window whose start and end frame coincide for one, the ratio divides
    by zero; with [T <= 0], an inverted window, no sample is taken and
    the new action has its channels and no keyframe. *)
Theorem resample_degenerate_counts (mms_line : MMSLine)
    (bones : list string) (action : Action) (timing : timing_arg) (T : Z) :
  target_frame_count frame_range action timing = Ok T ->
  (T = 1%Z ->
   resample evaluate frame_range mms_line bones action timing
     = Raise ZeroDivisionError) /\
  ((T <= 0)%Z ->
   exists sampled_action mms_line',
     resample evaluate frame_range mms_line bones action timing
       = Ok (sampled_action, mms_line') /\
     no_keyframes sampled_action /\
     forall k, In k (armature_channels bones) ->
               In k (map channel_of sampled_action)).
Proof.
  intros HT.
  destruct (create_f_curves_spec bones []) as [t0 [E0 [N0 [I0 _]]]];
    [constructor|].
  split.
  - intros ->. unfold resample. rewrite HT. cbn [Py.bind]. rewrite E0.
    reflexivity.
  - intros Hle. exists t0. eexists. split; [|split; [exact N0 | exact I0]].
    unfold resample. rewrite HT. cbn [Py.bind]. rewrite E0. cbn [Py.bind].
    assert (Hz : (T - 1 =? 0)%Z = false) by (apply Z.eqb_neq; lia).
    rewrite Hz. unfold samples, range.
    replace (Z.to_nat T) with 0 by lia. reflexivity.
Qed.

(** *** A source without a channel of a bone *)

Lemma sample_channel_raises (source_action : Action) (sf tf : Q)
    (p : string) (t : Action) (i : nat) (e : exn) :
  sample_channel evaluate source_action sf tf p t i = Raise e ->
  e = AttributeError.
Proof.
  unfold sample_channel, insert_key.
  destruct (find source_action p i); [|congruence].
  destruct (find t p i); congruence.
Qed.

Lemma channels_fail (source_action : Action) (sf tf : Q)
    (l : list channel) :
  forall t,
    (exists k, In k l /\ find_channel source_action k = None) ->
    foldM (fun (t : Action) (k : channel) =>
             sample_channel evaluate source_action sf tf (fst k) t (snd k))
          l t = Raise AttributeError.
Proof.
  induction l as [|x l IH]; intros t [k [Hk Hnone]]; [destruct Hk|].
  cbn [foldM].
  destruct (sample_channel evaluate source_action sf tf (fst x) t (snd x))
    as [t'|e] eqn:E.
  - cbn [Py.bind]. apply IH. destruct Hk as [<-|Hk].
    + exfalso. unfold sample_channel in E. unfold find_channel in Hnone.
      rewrite Hnone in E. discriminate.
    + exists k. split; assumption.
  - apply sample_channel_raises in E. subst e. reflexivity.
Qed.

(** When the source action lacks the rotation or location curve of one
    of the bones, the first sample already raises [AttributeError]. *)
Theorem resample_missing_channel (mms_line : MMSLine) (bones : list string)
    (action : Action) (timing : timing_arg) (T : Z) :
  target_frame_count frame_range action timing = Ok T ->
  (2 <= T)%Z ->
  (exists k, In k (armature_channels bones) /\ find_channel action k = None) ->
  resample evaluate frame_range mms_line bones action timing
    = Raise AttributeError.
Proof.
  intros HT H2 [k [Hk Hnone]].
  destruct (create_f_curves_spec bones []) as [t0 [E0 [N0 [I0 _]]]];
    [constructor|].
  unfold resample. rewrite HT. cbn [Py.bind]. rewrite E0. cbn [Py.bind].
  assert (Hz : (T - 1 =? 0)%Z = false) by (apply Z.eqb_neq; lia).
  rewrite Hz. unfold enumerate, samples, range.
  destruct (Z.to_nat T) as [|n] eqn:En; [lia|].
  cbn [seq map enumerate_from foldM].
  rewrite write_sample_channels.
  rewrite channels_fail; [reflexivity|].
  exists k. split; assumption.
Qed.

(** *** Proportional durations *)

Lemma ceil_whole (q : Q) (z : Z) : (q == inject_Z z)%Q -> ceil q = z.
Proof.
  intros H. unfold ceil. rewrite (Qceiling_comp _ _ H). apply Qceiling_Z.
Qed.

(** A proportion of one, the cell [100%], keeps the frames of the
    source: the count is [frame_end - frame_start + 1] and sample [i] is
    read at [frame_start + i]. *)
Theorem full_duration_keeps_frames (action : Action) (p : num) :
  (to_Q p == 1)%Q ->
  (int (fst (frame_range action)) < int (snd (frame_range action)))%Z ->
  let frame_start := int (fst (frame_range action)) in
  let frame_end := int (snd (frame_range action)) in
  let T := (frame_end - frame_start + 1)%Z in
  target_frame_count frame_range action (Duration p true) = Ok T /\
  forall i : Z,
    (sample_position frame_start
       (inject_Z (frame_end - frame_start) / inject_Z (T - 1)) i
     == inject_Z (frame_start + i))%Q.
Proof.
  intros Hp Hlt. cbn zeta. split.
  - unfold target_frame_count.
    destruct p; f_equal; apply ceil_whole;
      rewrite Hp, inject_Z_plus; change (inject_Z 1) with 1%Q; ring.
  - intros i. unfold sample_position.
    replace (int (snd (frame_range action)) - int (fst (frame_range action))
             + 1 - 1)%Z
      with (int (snd (frame_range action)) - int (fst (frame_range action)))%Z
      by lia.
    rewrite inject_Z_plus. field.
    intros H. unfold Qeq, inject_Z in H; simpl in H. lia.
Qed.

End Host.

Lemma resample_degenerate_counts_witness :
  resample Samples.ramp Samples.first_curve_range
           (Samples.entry Samples.sentence 0) ["Bone_Root"]
           Samples.root_action (Window 5 5) = Raise ZeroDivisionError /\
  exists sampled_action mms_line',
    resample Samples.ramp Samples.first_curve_range
             (Samples.entry Samples.sentence 0) ["Bone_Root"]
             Samples.root_action (Window 5 3)
      = Ok (sampled_action, mms_line') /\
    no_keyframes sampled_action.
Proof.
  split.
  - apply (proj1 (resample_degenerate_counts Samples.ramp
                    Samples.first_curve_range
                    (Samples.entry Samples.sentence 0) ["Bone_Root"]
                    Samples.root_action (Window 5 5) 1%Z eq_refl)).
    reflexivity.
  - destruct (proj2 (resample_degenerate_counts Samples.ramp
                       Samples.first_curve_range
                       (Samples.entry Samples.sentence 0) ["Bone_Root"]
                       Samples.root_action (Window 5 3) (-1)%Z eq_refl))
      as [sa [l' [E [N _]]]]; [lia|].
    exists sa, l'. split; [exact E | exact N].
Defined.

Lemma resample_missing_channel_witness :
  find_channel Samples.hello_action (Samples.root_rotation, 1) = None /\
  resample Samples.ramp Samples.first_curve_range
           (Samples.entry Samples.sentence 0) ["Bone_Root"]
           Samples.hello_action (Window 0 10) = Raise AttributeError.
Proof.
  split; [reflexivity|].
  apply (resample_missing_channel Samples.ramp Samples.first_curve_range
           (Samples.entry Samples.sentence 0) ["Bone_Root"]
           Samples.hello_action (Window 0 10) 11%Z).
  - reflexivity.
  - lia.
  - exists (Samples.root_rotation, 1). split; [|reflexivity].
    simpl. right. left. reflexivity.
Defined.

Lemma full_duration_keeps_frames_witness :
  target_frame_count Samples.first_curve_range Samples.root_action
                     (Duration (PFloat (100 # 100)) true) = Ok 30%Z.
Proof.
  apply (proj1 (full_duration_keeps_frames Samples.first_curve_range
                  Samples.root_action (PFloat (100 # 100))
                  eq_refl eq_refl)).
Defined.

End ResampleEdges.

(* ================================================================== *)
(** ** From the resampler to the merge *)

Module PipelineProps.
Import PyFacts MMSParser Bpy Resampler Merge ParserProps MergeProps Vocabulary.

(** *** Lines that were never resampled *)

Local Abbreviation unsampled e := (original_frame_range (snd e) = None).

Lemma MMSLine_init_unsampled (idx : dict nat) (line : list cell) (i : nat)
    (l : MMSLine) :
  MMSLine_init idx line i = Ok l -> original_frame_range l = None.
Proof.
  unfold MMSLine_init. intros H. apply bind_ok in H.
  destruct H as [c0 [_ H]]. destruct c0 as [|s|q]; try discriminate.
  destruct (find_datatype s) as [nm dt]. inversion H; subst. reflexivity.
Qed.

Lemma compound_fold_unsampled (idx : dict nat) (gloss_line : list cell)
    (prefix : string) (start delta : Q) (n base : nat) (rest : list string) :
  forall (k : nat) (glosses out : table),
    Forall (fun e => unsampled e) glosses ->
    foldM (compound_step idx gloss_line prefix start delta n base)
          (enumerate_from k rest) glosses = Ok out ->
    Forall (fun e => unsampled e) out.
Proof.
  induction rest as [|g rest IH]; intros k glosses out Hall H.
  - simpl in H. inversion H; subst. exact Hall.
  - cbn [enumerate_from foldM] in H. apply bind_ok in H.
    destruct H as [g1 [Hstep H]].
    unfold compound_step in Hstep. apply bind_ok in Hstep.
    destruct Hstep as [line [_ Hstep]]. apply bind_ok in Hstep.
    destruct Hstep as [gd [Hinit Hstep]]. inversion Hstep; subst g1.
    refine (IH (S k) _ out _ H).
    apply Forall_app. split; [exact Hall|].
    constructor; [|constructor].
    exact (MMSLine_init_unsampled _ _ _ _ Hinit).
Qed.

Lemma parse_row_unsampled (idx : dict nat) (glosses glosses' : table)
    (base base' : nat) (row : list string) :
  Forall (fun e => unsampled e) glosses ->
  parse_row idx (glosses, base) row = Ok (glosses', base') ->
  Forall (fun e => unsampled e) glosses'.
Proof.
  unfold parse_row. intros Hall H. apply bind_ok in H.
  destruct H as [c0 [_ H]].
  destruct (find_datatype c0) as [nm prefix].
  destruct (negb (prefix =? "signs") && contains "-" nm).
  - apply bind_ok in H. destruct H as [ifs [_ H]].
    apply bind_ok in H. destruct H as [cs [_ H]].
    apply bind_ok in H. destruct H as [s [_ H]].
    apply bind_ok in H. destruct H as [ife [_ H]].
    apply bind_ok in H. destruct H as [ce [_ H]].
    apply bind_ok in H. destruct H as [e [_ H]].
    apply bind_ok in H. destruct H as [out [Hfold H]].
    inversion H; subst.
    exact (compound_fold_unsampled _ _ _ _ _ _ _ _ _ _ _ Hall Hfold).
  - apply bind_ok in H. destruct H as [gd [Hinit H]]. inversion H; subst.
    apply Forall_app. split; [exact Hall|].
    constructor; [|constructor].
    exact (MMSLine_init_unsampled _ _ _ _ Hinit).
Qed.

Lemma parse_rows_unsampled (idx : dict nat) (rows : list (list string)) :
  forall (st st' : table * nat),
    Forall (fun e => unsampled e) (fst st) ->
    foldM (parse_row idx) rows st = Ok st' ->
    Forall (fun e => unsampled e) (fst st').
Proof.
  induction rows as [|row rows IH]; intros [glosses base] st' Hall H.
  - simpl in H. inversion H; subst. exact Hall.
  - cbn [foldM] in H. apply bind_ok in H. destruct H as [[g1 b1] [Hrow H]].
    apply (IH (g1, b1) st'); [|exact H].
    exact (parse_row_unsampled _ _ _ _ _ _ Hall Hrow).
Qed.

Lemma sorted_by_start_unsampled (items out : table) :
  sorted_by_start items = Ok out ->
  Forall (fun e => unsampled e) items -> Forall (fun e => unsampled e) out.
Proof.
  unfold sorted_by_start. intros H Hall. apply bind_ok in H.
  destruct H as [keyed [Hk H]]. inversion H; subst.
  assert (Hitems : map snd keyed = items).
  { clear - Hk. revert keyed Hk.
    induction items as [|x items IH]; intros keyed H; simpl in H.
    - inversion H; reflexivity.
    - apply bind_ok in H. destruct H as [y [Hy H]].
      apply bind_ok in H. destruct H as [ys [Hys H]]. inversion H; subst.
      apply bind_ok in Hy. destruct Hy as [t [_ Hy]]. inversion Hy; subst.
      simpl. rewrite (IH ys Hys). reflexivity. }
  rewrite Forall_forall in *. intros e He. apply Hall.
  rewrite <- Hitems.
  eapply Permutation_in; [|exact He].
  apply Permutation_map. apply sort_by_perm.
Qed.

Lemma resolve_fold_unsampled (pe : Path -> bool) (root : Path) (all : table)
    (rest : table) :
  forall (st st' : resolve_state),
    Forall (fun e => unsampled e) (fst st) ->
    Forall (fun e => unsampled e) rest ->
    foldM (resolve_step pe root all) rest st = Ok st' ->
    Forall (fun e => unsampled e) (fst st').
Proof.
  induction rest as [|[k g] rest IH]; intros [done gp] st' Hd Hr H.
  - simpl in H. inversion H; subst. exact Hd.
  - cbn [foldM] in H. apply bind_ok in H. destruct H as [[d1 gp1] [Hstep H]].
    inversion Hr as [|? ? Hg Hrest]; subst. cbn [snd] in Hg.
    apply (IH (d1, gp1) st'); [|exact Hrest|exact H].
    cbn [fst]. unfold resolve_step in Hstep.
    destruct (is_hold g).
    + destruct (match List.last (map Some done) None with
                | Some p => Some p
                | None => List.last (map Some all) None
                end) as [p|]; [|discriminate].
      destruct gp as [gp0|]; [|discriminate].
      inversion Hstep; subst.
      apply Forall_app. split; [exact Hd|].
      constructor; [exact Hg | constructor].
    + destruct (negb (pe (mocap_path root g))); [discriminate|].
      inversion Hstep; subst.
      apply Forall_app. split; [exact Hd|].
      constructor; [exact Hg | constructor].
Qed.

Section Host.

Variable evaluate : FCurve -> Q -> Q.
Variable frame_range : Action -> Q * Q.
Variable pe : Path -> bool.

(** A table that went from [parse] and [find_mocap_data_files] straight
    to the merge, no gloss having been resampled, cannot be merged in
    relative time where a duration is a proportion: the original frame
    range of the line is still [None] and unpacking it raises
    [TypeError]. *)
Theorem unresampled_percent_merge_fails (data : list (list string))
    (root : Path) (m0 m : MMS) (action_name : string) (actions : Actions)
    (last : Q) (e : key * MMSLine) (p : num) (tr : Z) :
  parse data root = Ok m0 ->
  find_mocap_data_files pe m0 = Ok m ->
  In e (mms m) ->
  pe (path (snd e)) = true ->
  transition (snd e) = Ok tr ->
  duration (snd e) = Ok (p, true) ->
  (0 <= to_Q p)%Q -> (to_Q p <= 1)%Q ->
  merge_step frame_range pe true m action_name (actions, last) e
    = Raise TypeError.
Proof.
  intros Hparse Hfind Hin Hpe Htr Hd H0 H1.
  assert (Hnone : original_frame_range (snd e) = None).
  { unfold parse in Hparse.
    apply bind_ok in Hparse. destruct Hparse as [hd [_ Hparse]].
    apply bind_ok in Hparse. destruct Hparse as [st [Hrows Hparse]].
    apply bind_ok in Hparse. destruct Hparse as [items [Hs Hparse]].
    inversion Hparse; subst m0; clear Hparse.
    unfold find_mocap_data_files in Hfind. cbn [mms generated_root] in Hfind.
    apply bind_ok in Hfind. destruct Hfind as [st' [Hfold Hfind]].
    inversion Hfind; subst m; clear Hfind. cbn [mms] in Hin.
    assert (Hitems : Forall (fun e => unsampled e) items).
    { apply (sorted_by_start_unsampled _ _ Hs).
      apply (parse_rows_unsampled _ _ ([], 0) st (Forall_nil _) Hrows). }
    pose proof (resolve_fold_unsampled _ _ _ _ ([], None) st'
                  (Forall_nil _) Hitems Hfold) as Hall.
    rewrite Forall_forall in Hall. exact (Hall e Hin). }
  unfold merge_step. rewrite Hpe. cbn [negb].
  unfold gloss_times. rewrite Htr. cbn [Py.bind]. rewrite Hd. cbn [Py.bind].
  apply Qle_bool_iff in H0. apply Qle_bool_iff in H1. rewrite H0, H1.
  cbn [andb negb]. rewrite Hnone. reflexivity.
Qed.

(** *** The end frame of a copied gloss *)

Lemma combine_end (actions a1 : Actions) (target source : string)
    (start ef : Q) (sa : Action) :
  dict_get actions source = Ok sa ->
  combine_animation frame_range actions target source start = Ok (a1, ef) ->
  ef = (inject_Z (int (snd (frame_range sa))) + start)%Q.
Proof.
  unfold combine_animation. intros Hs H. rewrite Hs in H. cbn [Py.bind] in H.
  destruct (frame_range sa) as [a_start a_end].
  apply bind_ok in H. destruct H as [ta [_ H]].
  apply bind_ok in H. destruct H as [ta' [_ H]].
  inversion H; subst. reflexivity.
Qed.

Lemma merge_gloss_copy (m : MMS) (action_name : string) (actions : Actions)
    (e : key * MMSLine) (start end_ : Q) :
  datatype (snd e) <> "HOLD" ->
  merge_gloss frame_range m action_name actions e start end_
  = combine_animation frame_range actions action_name
      ("inflected_" ++ output_name (snd e)) start.
Proof.
  intros Hd. unfold merge_gloss.
  destruct (datatype (snd e) =? "HOLD") eqn:E; [|reflexivity].
  apply String.eqb_eq in E. contradiction.
Qed.

(** In absolute time a gloss resampled to its window passes the check
    of the end frame at its upper limit: an action that ends on frame
    [T = end - start + 1], the count [resample] computes, is reported to
    end one frame after the [end] it is compared with. *)
Theorem window_merge_end_frame (m : MMS) (action_name : string)
    (actions a1 : Actions) (last ef : Q) (e : key * MMSLine)
    (action sampled : Action) (s en T : Z) :
  pe (path (snd e)) = true ->
  datatype (snd e) <> "HOLD" ->
  timing (snd e) = Ok (s, en) ->
  target_frame_count frame_range action (Window s en) = Ok T ->
  dict_get actions ("inflected_" ++ output_name (snd e)) = Ok sampled ->
  int (snd (frame_range sampled)) = T ->
  combine_animation frame_range actions action_name
    ("inflected_" ++ output_name (snd e)) (inject_Z s + 1)%Q = Ok (a1, ef) ->
  (ef == (inject_Z en + 1) + 1)%Q /\
  merge_step frame_range pe false m action_name (actions, last) e
    = Ok (a1, (inject_Z en + 1)%Q).
Proof.
  intros Hpe Hd Ht HT Hs Hend Hc.
  pose proof (combine_end _ _ _ _ _ _ _ Hs Hc) as Hef.
  rewrite Hend in Hef. cbn [target_frame_count] in HT.
  injection HT as HT. rewrite <- HT in Hef.
  assert (Hq : (ef == (inject_Z en + 1) + 1)%Q).
  { rewrite Hef. unfold Z.sub. rewrite !inject_Z_plus, inject_Z_opp.
    change (inject_Z 1) with 1%Q. ring. }
  split; [exact Hq|].
  unfold merge_step. rewrite Hpe. cbn [negb].
  unfold gloss_times. rewrite Ht. cbn [Py.bind].
  rewrite (merge_gloss_copy _ _ _ _ _ _ Hd), Hc. cbn [Py.bind].
  assert (Hok : compatible (inject_Z en + 1) ef = true).
  { apply compatible_iff. rewrite Hq. split.
    - apply Qle_trans with (inject_Z en + 1)%Q.
      + apply Qplus_le_l with (z := 1%Q). ring_simplify.
        apply Qplus_le_r. discriminate.
      + setoid_replace (inject_Z en + 1)%Q with (inject_Z en + 1 + 0)%Q at 1
          by ring.
        apply Qplus_le_r. discriminate.
    - apply Qle_refl. }
  rewrite Hok. reflexivity.
Qed.

End Host.

Lemma unresampled_percent_merge_fails_witness :
  merge_step Samples.first_curve_range (fun _ => true) true MoreSamples.held_table
             "final_action" (MoreSamples.held_ready, 1%Q)
             (Samples.pair_at MoreSamples.held_table 0)
  = Raise TypeError.
Proof.
  apply (unresampled_percent_merge_fails
           Samples.first_curve_range (fun _ => true)
           (Samples.header :: MoreSamples.held_rows) Samples.root
           MoreSamples.held_parsed MoreSamples.held_table "final_action"
           MoreSamples.held_ready 1%Q (Samples.pair_at MoreSamples.held_table 0)
           (PFloat (50 # 100)) 0%Z).
  - vm_compute; reflexivity.
  - vm_compute; reflexivity.
  - left. reflexivity.
  - reflexivity.
  - vm_compute; reflexivity.
  - vm_compute; reflexivity.
  - vm_compute; discriminate.
  - vm_compute; discriminate.
Defined.

Lemma window_merge_end_frame_witness :
  merge_step Samples.first_curve_range (fun _ => true) false MoreSamples.held_table
             "final_action" (MoreSamples.held_ready, 1%Q)
             (Samples.pair_at MoreSamples.held_table 0)
  = Ok (fst MoreSamples.held_hello, (inject_Z 60 + 1)%Q).
Proof.
  refine (proj2 (window_merge_end_frame
                   Samples.first_curve_range (fun _ => true)
                   MoreSamples.held_table "final_action" MoreSamples.held_ready
                   (fst MoreSamples.held_hello) 1%Q (62 # 1)%Q
                   (Samples.pair_at MoreSamples.held_table 0)
                   Samples.hello_action Samples.hello_action
                   0%Z 60%Z 61%Z _ _ _ _ _ _ _)).
  - reflexivity.
  - discriminate.
  - vm_compute; reflexivity.
  - reflexivity.
  - vm_compute; reflexivity.
  - vm_compute; reflexivity.
  - vm_compute; reflexivity.
Defined.

End PipelineProps.

(* ================================================================== *)
(** ** More on the targets *)

Module TargetsEdges.
Import PyFacts MMSParser Targets Controllers Vocabulary.

Lemma mem_In (s : string) (l : list string) : mem s l = true <-> In s l.
Proof.
  unfold mem. rewrite existsb_exists. split.
  - intros [x [Hin Hx]]. apply String.eqb_eq in Hx. subst x. exact Hin.
  - intros H. exists s. split; [exact H | apply String.eqb_refl].
Qed.

Lemma missing_column (header : list string) (l : MMSLine) (k : string) :
  store_index l = build_index header -> ~ In k header ->
  getitem l k = Raise KeyError.
Proof.
  intros Hs Hn. unfold getitem. rewrite Hs.
  unfold build_index, enumerate. rewrite TableProps.build_index_from.
  pose proof (TableProps.last_index_spec k header) as Hl.
  destruct (last_index k header) as [j|]; [|reflexivity].
  exfalso. apply Hn. destruct Hl as [Hj _]. eapply nth_error_In. exact Hj.
Qed.

Section HostMath.

Variables Matrix Quaternion Vector Euler : Type.
Variable matrix_identity : Matrix.
Variable quaternion_identity : Quaternion.
Variable mat_mul : Matrix -> Matrix -> Matrix.
Variable mat_vec : Matrix -> Vector -> Vector.
Variable mat_inverted : Matrix -> Matrix.
Variable mat_to_quaternion : Matrix -> Quaternion.
Variable quat_mul : Quaternion -> Quaternion -> Quaternion.
Variable quat_inverted : Quaternion -> Quaternion.
Variable quat_to_euler_zxy : Quaternion -> Euler.
Variable euler_zxy : Q * Q * Q -> Euler.
Variable euler_to_matrix4 : Euler -> Matrix.
Variable euler_to_quaternion : Euler -> Quaternion.
Variable translation_matrix : Q * Q * Q -> Matrix.
Variable scale_matrix : Q * Q * Q -> Matrix.
Variable translation_of : Vector -> Matrix.
Variable vec_add : Vector -> Vector -> Vector.
Variable vec_sub : Vector -> Vector -> Vector.
Variable vec_neg : Vector -> Vector.

Local Abbreviation fresh c dom itype :=
  (new_target Vector matrix_identity quaternion_identity c dom itype).
Local Abbreviation init t l :=
  (init_from_mms mat_mul euler_zxy euler_to_matrix4 euler_to_quaternion
                 translation_matrix scale_matrix t l).
Local Abbreviation run t r p f :=
  (inflect mat_mul mat_vec mat_inverted mat_to_quaternion quat_mul
           quat_inverted quat_to_euler_zxy euler_to_quaternion translation_of
           vec_add vec_sub vec_neg t r p f).
Local Abbreviation execute t r frames :=
  (execute_target mat_mul mat_vec mat_inverted mat_to_quaternion quat_mul
                  quat_inverted quat_to_euler_zxy euler_to_quaternion
                  translation_of vec_add vec_sub vec_neg t r frames).
Local Abbreviation anchor_of p :=
  (anchor mat_vec mat_inverted vec_add vec_sub p).
Local Abbreviation location_at dt dr h p :=
  (inflected_location mat_mul mat_vec translation_of vec_neg dt dr h
                      (anchor_of p)).

(** *** Availability looks at one column *)

(** The head inflection counts as available as soon as the header has
    the column [headrotx]; when [headroty] or [headrotz] is not there,
    the head target that is then created cannot be initialised: reading
    the missing column raises [KeyError]. *)
Theorem head_available_without_column (header : list string) (l : MMSLine)
    (dom itype : string) :
  store_index l = build_index header ->
  (forall k, In k header -> exists c, getitem l k = Ok c) ->
  In "headrotx" header ->
  ~ In "headroty" header \/ ~ In "headrotz" header ->
  av_head (inflections_availability header) = true /\
  init (fresh HeadRotTarget dom itype) l = Raise KeyError.
Proof.
  intros Hs Hrow Hx Hmiss. split.
  - cbn [inflections_availability av_head]. apply mem_In. exact Hx.
  - unfold init_from_mms, head_rot, getter, handle_none.
    cbn [cls new_target].
    change ("headrot" ++ "x") with "headrotx".
    change ("headrot" ++ "y") with "headroty".
    change ("headrot" ++ "z") with "headrotz".
    destruct (Hrow _ Hx) as [cx Hcx]. rewrite Hcx. cbn [Py.bind].
    destruct (in_dec string_dec "headroty" header) as [Hy|Hy].
    + destruct (Hrow _ Hy) as [cy Hcy]. rewrite Hcy. cbn [Py.bind].
      destruct Hmiss as [Hm|Hm]; [contradiction|].
      rewrite (missing_column header l "headrotz" Hs Hm). reflexivity.
    + rewrite (missing_column header l "headroty" Hs Hy). reflexivity.
Qed.

(** *** The pivot of a trajectory *)

Lemma trajectory_step (t : Target Matrix Quaternion Vector)
    (r : Rig Quaternion Vector Euler) (p : Pose Matrix Vector) (frame : Z)
    (dr dt : Matrix) :
  cls t = TrajectoryTarget ->
  delta_r t = Some dr -> delta_t t = Some dt ->
  let h := match head t with Some h => h | None => anchor_of p end in
  run t r p frame
  = Ok (mkTarget (cls t) (dominance t) (inflection_type t)
                 (delta_r t) (delta_o t) (delta_t t) (Some h),
        mkRig (rotation_euler r) (location_at dt dr h p)
              (ctrl_rotation_quaternion r)
              (keys r ++ [KeyLocation Quaternion Euler frame
                            (location_at dt dr h p)])%list).
Proof.
  intros Hc Hr Ht. unfold inflect. rewrite Hc.
  cbn [delta_t delta_r]. rewrite Hr, Ht. reflexivity.
Qed.

Lemma trajectory_frames (dr dt : Matrix) (h : Vector)
    (frames : list (Z * Pose Matrix Vector)) :
  forall (t : Target Matrix Quaternion Vector)
         (r : Rig Quaternion Vector Euler),
    cls t = TrajectoryTarget ->
    delta_r t = Some dr -> delta_t t = Some dt -> head t = Some h ->
    exists t' r',
      execute t r frames = Ok (t', r') /\
      head t' = Some h /\ delta_r t' = Some dr /\ delta_t t' = Some dt /\
      cls t' = TrajectoryTarget /\
      keys r' = (keys r ++ map (fun fp => KeyLocation Quaternion Euler (fst fp)
                                            (location_at dt dr h (snd fp)))
                               frames)%list /\
      rotation_euler r' = rotation_euler r /\
      ctrl_rotation_quaternion r' = ctrl_rotation_quaternion r.
Proof.
  induction frames as [|[f p] frames IH]; intros t r Hc Hr Ht Hh.
  - exists t, r. cbn [map]. rewrite app_nil_r. repeat split; assumption.
  - unfold execute_target. cbn [foldM fst snd].
    rewrite (trajectory_step t r p f dr dt Hc Hr Ht). cbn [Py.bind].
    rewrite Hh.
    match goal with
    | |- context [foldM _ frames (?t1, ?r1)] =>
        destruct (IH t1 r1) as [t' [r' [E [H1 [H2 [H3 [H4 [H5 [H6 H7]]]]]]]]];
          [exact Hc | exact Hr | exact Ht | reflexivity |]
    end.
    exists t', r'. unfold execute_target in E. rewrite E.
    split; [reflexivity|]. repeat (split; [assumption|]).
    split; [|split; assumption].
    rewrite H5. cbn [keys map fst snd]. rewrite <- app_assoc. reflexivity.
Qed.

(** Over the frames of [Controller.execute] a trajectory target turns
    and scales about one point: the anchor of the bone at the first
    frame, cached in [head] by the first call and never updated.  Every
    frame gets one location key, and nothing else of the controller is
    written. *)
Theorem trajectory_pivot_is_first_anchor
    (t : Target Matrix Quaternion Vector) (r : Rig Quaternion Vector Euler)
    (f0 : Z) (p0 : Pose Matrix Vector)
    (frames : list (Z * Pose Matrix Vector)) (dr dt : Matrix) :
  cls t = TrajectoryTarget ->
  delta_r t = Some dr -> delta_t t = Some dt -> head t = None ->
  exists t' r',
    execute t r ((f0, p0) :: frames) = Ok (t', r') /\
    head t' = Some (anchor_of p0) /\
    keys r' = (keys r ++ map (fun fp => KeyLocation Quaternion Euler (fst fp)
                                          (location_at dt dr (anchor_of p0)
                                                       (snd fp)))
                             ((f0, p0) :: frames))%list /\
    rotation_euler r' = rotation_euler r /\
    ctrl_rotation_quaternion r' = ctrl_rotation_quaternion r.
Proof.
  intros Hc Hr Ht Hh. unfold execute_target. cbn [foldM fst snd].
  rewrite (trajectory_step t r p0 f0 dr dt Hc Hr Ht). cbn [Py.bind].
  rewrite Hh.
  match goal with
  | |- context [foldM _ frames (?t1, ?r1)] =>
      destruct (trajectory_frames dr dt (anchor_of p0) frames t1 r1)
        as [t' [r' [E [H1 [_ [_ [_ [H5 [H6 H7]]]]]]]]];
        [exact Hc | exact Hr | exact Ht | reflexivity |]
  end.
  exists t', r'. unfold execute_target in E. rewrite E.
  split; [reflexivity|]. split; [exact H1|].
  split; [|split; assumption].
  rewrite H5. cbn [keys map fst snd]. rewrite <- app_assoc. reflexivity.
Qed.

End HostMath.

Lemma head_available_without_column_witness :
  av_head (inflections_availability MoreSamples.lone_header) = true /\
  init_from_mms (fun _ _ : unit => tt) (fun _ => tt) (fun _ : unit => tt)
                (fun _ : unit => tt) (fun _ => tt) (fun _ => tt)
                (new_target unit tt tt HeadRotTarget "dom" "head")
                MoreSamples.lone_line
  = Raise KeyError.
Proof.
  apply (head_available_without_column unit unit unit unit tt tt
           (fun _ _ => tt) (fun _ => tt) (fun _ => tt) (fun _ => tt)
           (fun _ => tt) (fun _ => tt)
           MoreSamples.lone_header MoreSamples.lone_line "dom" "head").
  - reflexivity.
  - intros k [<-|[<-|[]]]; eexists; vm_compute; reflexivity.
  - simpl. right. left. reflexivity.
  - left. simpl. intros [H|[H|[]]]; discriminate.
Defined.

Lemma trajectory_pivot_is_first_anchor_witness :
  exists t' r',
    execute_target Z.add Z.add Z.opp (fun _ : Z => tt)
                   (fun _ _ : unit => tt) (fun _ : unit => tt)
                   (fun _ : unit => tt) (fun _ : unit => tt)
                   (fun v : Z => v) Z.add Z.sub Z.opp
                   MoreSamples.line_target MoreSamples.line_rig
                   [(1%Z, MoreSamples.line_pose 3); (2%Z, MoreSamples.line_pose 4)]
      = Ok (t', r') /\
    head t' = Some 3%Z.
Proof.
  destruct (trajectory_pivot_is_first_anchor Z unit Z unit
              Z.add Z.add Z.opp (fun _ => tt) (fun _ _ => tt) (fun _ => tt)
              (fun _ => tt) (fun _ => tt) (fun v => v) Z.add Z.sub Z.opp
              MoreSamples.line_target MoreSamples.line_rig
              1%Z (MoreSamples.line_pose 3)
              [(2%Z, MoreSamples.line_pose 4)] 0%Z 5%Z)
    as [t' [r' [E [H _]]]]; try reflexivity.
  exists t', r'. split; [exact E | exact H].
Defined.

End TargetsEdges.
(* ================================================================== *)
(** ** Binary64 numbers *)

Module Float64Facts.
Import PrimFloat SpecFloat FloatOps.

(** *** Order *)






(** *** Zero *)

(** A finite float plus the zero a finite float times zero gives is
    that float. *)
Lemma times_zero (x : Float64.float) (q : Q) :
  Float64.value x = Some q ->
  exists sg, FloatOps.Prim2SF (x * zero)%float = SpecFloat.S754_zero sg.
Proof.
  unfold Float64.value. intros H. rewrite FloatAxioms.mul_spec.
  change (FloatOps.Prim2SF zero) with (SpecFloat.S754_zero false).
  destruct (FloatOps.Prim2SF x) as [s|s| |s m e]; try discriminate;
    eexists; reflexivity.
Qed.


End Float64Facts.


(* ================================================================== *)
(** ** The timing table in binary64 *)

Module Binary64Props.
Import PrimFloat PyFacts MMSParser ParserProps MMSParser64 Float64Facts.

(** *** Floats and the integers next to them *)

Lemma ceil_ok (x : Float64.float) (z : Z) :
  Float64.ceil x = Ok z ->
  exists q, Float64.value x = Some q /\ z = Qceiling q.
Proof.
  unfold Float64.ceil. destruct (Float64.value x) as [q|]; [|discriminate].
  intros H. inversion H. exists q. auto.
Qed.

Lemma floor_ok (x : Float64.float) (z : Z) :
  Float64.floor x = Ok z ->
  exists q, Float64.value x = Some q /\ z = Qfloor q.
Proof.
  unfold Float64.floor. destruct (Float64.value x) as [q|]; [|discriminate].
  intros H. inversion H. exists q. auto.
Qed.

(** Two numbers one apart or more have an integer between them. *)
Lemma ceiling_le_floor (a b : Q) :
  (a + 1 <= b)%Q -> (Qceiling a <= Qfloor b)%Z.
Proof.
  intros Hx.
  pose proof (Qceiling_lt a) as Hc.
  pose proof (Qlt_floor b) as Hf.
  remember (Qceiling a) as C. remember (Qfloor b) as F.
  assert (Hlt : (inject_Z (C - 1) + 1 < inject_Z (F + 1))%Q).
  { eapply Qlt_le_trans; [apply Qplus_lt_l; exact Hc|].
    eapply Qle_trans; [exact Hx|]. apply Qlt_le_weak; exact Hf. }
  clear - Hlt. unfold Qlt, Qplus, inject_Z in Hlt; simpl in Hlt. lia.
Qed.

(** *** The final sort *)

Lemma sorted_by_start_keys (items out : table) :
  sorted_by_start items = Ok out ->
  exists keyed : list (Z * (key * MMSLine)),
    out = map snd (sort_by keyed) /\
    Forall (fun p => exists e, timing (snd (snd p)) = Ok (fst p, e)) keyed.
Proof.
  unfold sorted_by_start. intros H.
  apply bind_ok in H. destruct H as [keyed [Hk H]]. inversion H; subst.
  exists keyed. split; [reflexivity|].
  apply mapM_ok in Hk. induction Hk as [|x y l l' Hxy _ IH]; constructor; auto.
  apply bind_ok in Hxy. destruct Hxy as [[s e] [Ht Hy]].
  inversion Hy; subst. simpl. exists e. exact Ht.
Qed.

(** *** Frames from seconds *)

Lemma timing_frames (l : MMSLine) (s e : Z) :
  timing l = Ok (s, e) ->
  exists fs fe qs qe,
    seconds_start l = Ok fs /\ seconds_end l = Ok fe /\
    Float64.value (fs * 60)%float = Some qs /\
    Float64.value (fe * 60)%float = Some qe /\
    s = Qceiling qs /\ e = Qfloor qe.
Proof.
  unfold timing, seconds_start, seconds_end. intros H.
  apply bind_ok in H. destruct H as [cs [Hcs H]].
  apply bind_ok in H. destruct H as [fs [Hfs H]].
  apply bind_ok in H. destruct H as [s' [Hs H]].
  apply bind_ok in H. destruct H as [ce [Hce H]].
  apply bind_ok in H. destruct H as [fe [Hfe H]].
  apply bind_ok in H. destruct H as [e' [He H]].
  inversion H; subst.
  apply ceil_ok in Hs. destruct Hs as [qs [Vs ->]].
  apply floor_ok in He. destruct He as [qe [Ve ->]].
  exists fs, fe, qs, qe. rewrite Hcs, Hce. cbn [Py.bind].
  repeat split; assumption || reflexivity.
Qed.

(** C3, amended.  After [MMSParser.parse] the entries are in
    non-decreasing order of start frame: for consecutive entries [a], [b]
    of the table, [timing a] and [timing b] are defined and
    [start a <= start b].  Every entry has
    [start = ceil (seconds_start * 60)] and
    [end = floor (seconds_end * 60)], the two products rounded to
    binary64, and [start <= end] holds for the entries whose window
    spans one frame or more, the second product being at least one above
    the first; shorter windows may be inverted. *)
Theorem parse_timing_order (data : list (list string)) (root : Path)
    (m : MMS) :
  parse data root = Ok m ->
  (forall i a b,
      nth_error (mms m) i = Some a -> nth_error (mms m) (S i) = Some b ->
      exists sa ea sb eb,
        timing (snd a) = Ok (sa, ea) /\ timing (snd b) = Ok (sb, eb) /\
        (sa <= sb)%Z) /\
  (forall e, In e (mms m) ->
      exists fs fe qs qe,
        seconds_start (snd e) = Ok fs /\ seconds_end (snd e) = Ok fe /\
        Float64.value (fs * 60)%float = Some qs /\
        Float64.value (fe * 60)%float = Some qe /\
        timing (snd e) = Ok (Qceiling qs, Qfloor qe) /\
        ((qs + 1 <= qe)%Q -> (Qceiling qs <= Qfloor qe)%Z)).
Proof.
  unfold parse. intros H.
  apply bind_ok in H. destruct H as [hd [_ H]].
  apply bind_ok in H. destruct H as [st [_ H]].
  apply bind_ok in H. destruct H as [items [Hs H]].
  inversion H; subst; clear H. cbn [mms].
  apply sorted_by_start_keys in Hs. destruct Hs as [keyed [-> Hk]].
  assert (Hk' : Forall (fun p => exists e, timing (snd (snd p)) = Ok (fst p, e))
                       (sort_by keyed)).
  { rewrite Forall_forall in *. intros p Hp. apply Hk.
    eapply Permutation_in; [apply sort_by_perm | exact Hp]. }
  split.
  - intros i a b Ha Hb.
    rewrite nth_error_map in Ha. rewrite nth_error_map in Hb.
    destruct (nth_error (sort_by keyed) i) as [pa|] eqn:Ea; [|discriminate].
    destruct (nth_error (sort_by keyed) (S i)) as [pb|] eqn:Eb; [|discriminate].
    simpl in Ha, Hb. inversion Ha; inversion Hb; subst.
    pose proof (Sorted_consecutive _ _ i _ _ (sort_by_sorted keyed) Ea Eb) as Hle.
    rewrite Forall_forall in Hk'.
    destruct (Hk' pa (nth_error_In _ _ Ea)) as [ea Hta].
    destruct (Hk' pb (nth_error_In _ _ Eb)) as [eb Htb].
    exists (fst pa), ea, (fst pb), eb. auto.
  - intros e He. apply in_map_iff in He. destruct He as [p [<- Hp]].
    rewrite Forall_forall in Hk'. destruct (Hk' p Hp) as [en Ht].
    destruct (timing_frames _ _ _ Ht) as [fs [fe [qs [qe [Hfs [Hfe [Vs [Ve [Es Ee]]]]]]]]].
    exists fs, fe, qs, qe. repeat split; auto.
    + rewrite Ht, Es, Ee. reflexivity.
    + apply ceiling_le_floor.
Qed.

Lemma parse_timing_order_witness :
  parse (Samples.header :: Samples.sentence_rows) Samples.root
    = Ok Samples64.sentence /\
  (forall i a b,
      nth_error (mms Samples64.sentence) i = Some a ->
      nth_error (mms Samples64.sentence) (S i) = Some b ->
      exists sa ea sb eb,
        timing (snd a) = Ok (sa, ea) /\ timing (snd b) = Ok (sb, eb) /\
        (sa <= sb)%Z).
Proof.
  split; [vm_compute; reflexivity|].
  apply (parse_timing_order (Samples.header :: Samples.sentence_rows)
                            Samples.root).
  vm_compute; reflexivity.
Defined.

(** C3 as stated fails on the row of the source's own comment: the
    window 1.61 s .. 1.616 s is parsed to the frames (97, 96). *)
Lemma timing_inversion_counterexample :
  parse (Samples.header :: Samples.short_rows) Samples.root
    = Ok Samples64.short /\
  In ((0, "BLINK"), Samples64.entry Samples64.short 0) (mms Samples64.short) /\
  timing (Samples64.entry Samples64.short 0) = Ok (97, 96)%Z /\
  ~ (97 <= 96)%Z.
Proof.
  split; [vm_compute; reflexivity|].
  split; [left; reflexivity|].
  split; [vm_compute; reflexivity | lia].
Qed.

(** *** The duration column *)

(** No float lies above and below zero. *)
Lemma not_around_zero (x : Float64.float) :
  (PrimFloat.ltb zero x && PrimFloat.ltb x zero)%bool = false.
Proof.
  rewrite !FloatAxioms.ltb_spec.
  change (FloatOps.Prim2SF zero) with (SpecFloat.S754_zero false).
  destruct (FloatOps.Prim2SF x) as [s|s| |s m e]; try reflexivity;
    destruct s; reflexivity.
Qed.

Lemma mul_float_int (r : Float64.float) (z : Z) :
  Float64.mul (Float64.Float r) (Float64.Int z)
  = (x <- Float64.of_Z z ;; Ok (Float64.Float (r * x)%float)).
Proof. reflexivity. Qed.

Lemma add_float_one (y : Float64.float) :
  Float64.add (Float64.Float y) (Float64.Int 1)
  = Ok (Float64.Float (y + 1)%float).
Proof. reflexivity. Qed.

(** C4, amended.  A [duration] cell that contains ['%'] yields
    [(float(cell stripped of '%') / 100, True)], with no range check at
    this point; any other cell is a number of seconds and yields
    [(ceil(float(cell) * 60), False)], a frame count at 60 fps; the
    operations are those of binary64.  A ratio is turned into frames
    twice.  [ArmatureOperator.resample] takes
    [ceil(ratio * (frame_end - frame_start) + 1)] samples of the source,
    whose frames are [int(action.frame_range)], without a range check.
    [Glue.merge_animation], in relative time, asserts
    [0 <= ratio <= 1] and multiplies the ratio by the original frame span
    [fe - fs] of the gloss. *)
Theorem duration_parse_and_resolution (l : MMSLine) (d : string) :
  getitem l "duration" = Ok (CStr d) ->
  (contains "%" d = true ->
   duration l
   = (t <- Float64.float_of_string (strip "%" d) ;;
      Ok (Float64.Float (t / 100)%float, true))) /\
  (contains "%" d = false ->
   duration l
   = (f <- Float64.float_of_string d ;;
      n <- Float64.ceil (f * 60)%float ;;
      Ok (Float64.Int n, false))) /\
  (forall (r : Float64.float) (range : Float64.float * Float64.float),
      Resampler64.target_frame_count range
        (Resampler64.Duration (Float64.Float r) true)
      = (frame_start <- Float64.int (fst range) ;;
         frame_end <- Float64.int (snd range) ;;
         span <- Float64.of_Z (frame_end - frame_start) ;;
         n <- Float64.ceil (r * span + 1)%float ;;
         Ok (Float64.Int n))) /\
  (forall (r : Float64.float) (tr : Z) (fs fe : Float64.float)
          (last : Float64.number),
      duration l = Ok (Float64.Float r, true) -> transition l = Ok tr ->
      original_frame_range l = Some (fs, fe) ->
      (forall q, Float64.value r = Some q -> (0 <= q)%Q -> (q <= 1)%Q ->
         Merge64.gloss_times true last l
         = (start <- Float64.add last (Float64.Int tr) ;;
            end_ <- Float64.add start
                      (Float64.Float ((fe - fs) * r)%float) ;;
            Ok (start, end_))) /\
      ((Float64.value r = None \/
        exists q, Float64.value r = Some q /\ ~ ((0 <= q)%Q /\ (q <= 1)%Q)) ->
         Merge64.gloss_times true last l
         = (start <- Float64.add last (Float64.Int tr) ;;
            Raise AssertionError))).
Proof.
  intros Hd. split; [|split; [|split]].
  - intros Hc. unfold duration. rewrite Hd. cbn [Py.bind]. rewrite Hc.
    reflexivity.
  - intros Hc. unfold duration. rewrite Hd. cbn [Py.bind]. rewrite Hc.
    reflexivity.
  - intros r range. unfold Resampler64.target_frame_count.
    destruct (Float64.int (fst range)) as [f0|e0]; [|reflexivity].
    destruct (Float64.int (snd range)) as [f1|e1]; [|reflexivity].
    cbn [Py.bind]. rewrite mul_float_int.
    destruct (Float64.of_Z (f1 - f0)) as [x|ex]; [|reflexivity].
    cbn [Py.bind]. rewrite add_float_one. reflexivity.
  - intros r tr fs fe last Hr Htr Hrange.
    assert (Hstep : forall b : bool,
      (Float64.le (Float64.Int 0) (Float64.Float r)
       && Float64.le (Float64.Float r) (Float64.Int 1))%bool = b ->
      Merge64.gloss_times true last l
      = (start <- Float64.add last (Float64.Int tr) ;;
         if b then
           end_ <- Float64.add start (Float64.Float ((fe - fs) * r)%float) ;;
           Ok (start, end_)
         else Raise AssertionError)).
    { intros b Hb. unfold Merge64.gloss_times. rewrite Htr. cbn [Py.bind].
      destruct (Float64.add last (Float64.Int tr)) as [start|e];
        [|reflexivity].
      cbn [Py.bind]. rewrite Hr. cbn [Py.bind]. rewrite Hb.
      destruct b; [|reflexivity]. cbn [negb]. rewrite Hrange. reflexivity. }
    split.
    + intros q Hq H0 H1. rewrite (Hstep true); [reflexivity|].
      unfold Float64.le. rewrite Hq.
      apply Qle_bool_iff in H0. apply Qle_bool_iff in H1.
      change (inject_Z 0) with 0%Q. change (inject_Z 1) with 1%Q.
      rewrite H0, H1. reflexivity.
    + intros Hbad. rewrite (Hstep false); [reflexivity|].
      unfold Float64.le. destruct Hbad as [Hn|[q [Hq Hbad]]].
      * rewrite Hn. apply not_around_zero.
      * rewrite Hq. change (inject_Z 0) with 0%Q. change (inject_Z 1) with 1%Q.
        destruct (Qle_bool 0 q) eqn:E0; [|reflexivity].
        destruct (Qle_bool q 1) eqn:E1; [|reflexivity].
        exfalso. apply Hbad. split; apply Qle_bool_iff; assumption.
Qed.

Lemma duration_parse_and_resolution_witness :
  getitem (Samples64.entry Samples64.sentence 0) "duration"
    = Ok (CStr "50%") /\
  duration (Samples64.entry Samples64.sentence 0)
    = Ok (Float64.Float 0.5%float, true).
Proof.
  split; [vm_compute; reflexivity|].
  refine (eq_trans
            (proj1 (duration_parse_and_resolution
                      (Samples64.entry Samples64.sentence 0) "50%" _) _) _);
    vm_compute; reflexivity.
Defined.

(** C4 as stated fails twice: the cell [0.5] is not returned as it is
    but as 30 frames, and the cell [150%] gives the ratio 1.5, outside
    [[0,1]]. *)
Lemma duration_counterexample :
  (getitem (Samples64.entry Samples64.sentence 1) "duration"
     = Ok (CStr "0.5") /\
   Float64.float_of_string "0.5" = Ok 0.5%float /\
   duration (Samples64.entry Samples64.sentence 1)
     = Ok (Float64.Int 30, false) /\
   exists q, Float64.value 0.5%float = Some q /\ ~ (inject_Z 30 == q)%Q) /\
  (getitem (Samples64.entry Samples64.short 0) "duration"
     = Ok (CStr "150%") /\
   duration (Samples64.entry Samples64.short 0)
     = Ok (Float64.Float 1.5%float, true) /\
   exists q, Float64.value 1.5%float = Some q /\ ~ (q <= 1)%Q).
Proof.
  split.
  - split; [vm_compute; reflexivity|]. split; [vm_compute; reflexivity|].
    split; [vm_compute; reflexivity|].
    eexists. split; [vm_compute; reflexivity|].
    intros H. vm_compute in H. discriminate.
  - split; [vm_compute; reflexivity|]. split; [vm_compute; reflexivity|].
    eexists. split; [vm_compute; reflexivity|].
    intros H. vm_compute in H. apply H. reflexivity.
Qed.

(** *** The compound split *)



Section CompoundSplit.

Variables (idx : dict nat) (row : list string) (c0 nm prefix : string).
Variables (ifs ife itr : nat) (cs ce ctr : cell) (s e : Float64.float).

Hypothesis Hrow0 : get row 0 = Ok c0.
Hypothesis Hdatatype : find_datatype c0 = (nm, prefix).
Hypothesis Hprefix : prefix <> "signs".
Hypothesis Hfs : dict_get idx "framestart" = Ok ifs.
Hypothesis Hfe : dict_get idx "frameend" = Ok ife.
Hypothesis Htr : dict_get idx "transition" = Ok itr.
Hypothesis Hcols : 0 < ifs /\ 0 < ife /\ 0 < itr.
Hypothesis Hdistinct : ifs <> ife /\ ifs <> itr /\ ife <> itr.
Hypothesis Hcs : get (none_for_empty row) ifs = Ok cs.
Hypothesis Hce : get (none_for_empty row) ife = Ok ce.
Hypothesis Hctr : get (none_for_empty row) itr = Ok ctr.






End CompoundSplit.



(** *** Proportional durations *)

(** The number of samples [ArmatureOperator.resample] takes of a source
    action whose first and last frame coincide, for a proportional
    duration [p], is [ceil(p * 0 + 1)]: 1 for every finite [p], while an
    infinite [p] and a NaN make [math.ceil] raise [ValueError]. *)
Theorem proportional_single_frame (range : Float64.float * Float64.float)
    (p : Float64.float) (z : Z) :
  Float64.int (fst range) = Ok z -> Float64.int (snd range) = Ok z ->
  (forall q, Float64.value p = Some q ->
     Resampler64.target_frame_count range
       (Resampler64.Duration (Float64.Float p) true)
     = Ok (Float64.Int 1)) /\
  (Float64.value p = None ->
     Resampler64.target_frame_count range
       (Resampler64.Duration (Float64.Float p) true)
     = Raise ValueError).
Proof.
  intros H0 H1.
  assert (E : Resampler64.target_frame_count range
                (Resampler64.Duration (Float64.Float p) true)
              = (n <- Float64.ceil (p * zero + 1)%float ;;
                 Ok (Float64.Int n))).
  { unfold Resampler64.target_frame_count. rewrite H0, H1. cbn [Py.bind].
    rewrite Z.sub_diag. reflexivity. }
  rewrite E. split.
  - intros q Hq. destruct (times_zero p q Hq) as [sg Hz].
    assert (Hone : FloatOps.Prim2SF (p * zero + 1)%float
                   = FloatOps.Prim2SF 1%float).
    { rewrite FloatAxioms.add_spec, Hz. reflexivity. }
    unfold Float64.ceil, Float64.value. rewrite Hone. reflexivity.
  - unfold Float64.value. intros Hp.
    assert (Hnan : FloatOps.Prim2SF (p * zero + 1)%float = SpecFloat.S754_nan).
    { rewrite FloatAxioms.add_spec, FloatAxioms.mul_spec.
      change (FloatOps.Prim2SF zero) with (SpecFloat.S754_zero false).
      destruct (FloatOps.Prim2SF p) as [s|s| |s m e]; try discriminate;
        reflexivity. }
    unfold Float64.ceil, Float64.value, Float64.not_finite, is_nan.
    rewrite FloatAxioms.eqb_spec, Hnan. reflexivity.
Qed.

Lemma proportional_single_frame_witness :
  Resampler64.target_frame_count (7%float, 7%float)
    (Resampler64.Duration (Float64.Float 0.5%float) true)
  = Ok (Float64.Int 1).
Proof.
  refine (proj1 (proportional_single_frame (7%float, 7%float) 0.5%float 7
                   eq_refl eq_refl) _ _).
  reflexivity.
Defined.

End Binary64Props.
